(** * Steam Art Manager: the grid cache of [CacheController.ts]

    A shallow embedding of [src/lib/controllers/CacheController.ts] (and of
    the page-count expression of [Grids.svelte]) together with the properties
    of the caching engine.

    Conventions of the embedding.
    - A JavaScript [number] that is used as an identity, a page or a counter is
      an integer [Z]; [n.toString()] is stdpp's decimal printer [pretty].
    - A plain object used as a dictionary is a [gmap string _]: property keys
      are strings, [Object.keys(o).includes(k)] is [is_Some (o !! k)].
    - An [async] method is a computation in the state and exception monad [M];
      a rejected promise is [Throw].  The remote services are oracles that see
      the history of the requests issued so far, so that they may answer the
      same request differently at different times.
    - The methods called from the user interface ([getGridImage],
      [fetchGrids]) run from call to return; the closures that
      [cacheAllGridsForGame] starts together with [Promise.all] are run from
      suspension point to suspension point, in any order.
    - An object that a method changes in place ([game.numResultPages = ...])
      is handed back by the embedded method, and the caller goes on with it.
    - Logging ([LogController.log], [console.log]) is left out.
    - The file system is the set of the paths that exist, directories and
      files alike; the calls that [init] awaits may reject. *)

From Stdlib Require Import ZArith Ascii String List Lia.
From stdpp Require Import base option gmap strings list pretty.

Local Open Scope Z_scope.
Local Open Scope string_scope.
Local Open Scope list_scope.

(** ** JavaScript primitives used by the controller *)

Module JS.

(** [s.includes(sub)] *)
Fixpoint includes (s sub : string) : bool :=
  String.prefix sub s ||
  match s with
  | EmptyString => false
  | String _ s' => includes s' sub
  end.

(** [s.lastIndexOf(c)] for a one-character [c]: the index of the last
    occurrence, [-1] when there is none. *)
Fixpoint lastIndexOf_from (c : ascii) (s : string) (i last : Z) : Z :=
  match s with
  | EmptyString => last
  | String d s' =>
      lastIndexOf_from c s' (i + 1) (if Ascii.eqb d c then i else last)
  end.

Definition lastIndexOf (s : string) (c : ascii) : Z :=
  lastIndexOf_from c s 0 (-1).

Fixpoint drop (n : nat) (s : string) : string :=
  match n, s with
  | O, _ => s
  | S _, EmptyString => EmptyString
  | S n', String _ s' => drop n' s'
  end.

(** [s.substring(start)]; a negative [start] counts as [0]. *)
Definition substring (s : string) (start : Z) : string :=
  drop (Z.to_nat start) s.

(** Truthiness of a string value that may be [undefined]. *)
Definition truthy_string (s : option string) : bool :=
  match s with
  | Some s' => negb (String.eqb s' "")
  | None => false
  end.

(** [s == o] for a string [s] and a string [o] that may be [undefined]. *)
Definition eq_string (s : string) (o : option string) : bool :=
  match o with
  | Some s' => String.eqb s s'
  | None => false
  end.

(** Truthiness of a number. *)
Definition truthy_number (n : Z) : bool := negb (Z.eqb n 0).

End JS.

(** ** Data model *)

(** [enum GridTypes] of [Stores.ts]: the members the controller names. *)
Inductive GridTypes := CAPSULE | WIDE_CAPSULE | HERO | LOGO | ICON.

(** [enum Platforms] of [Stores.ts].  The controller tests for [STEAM] and
    [NON_STEAM]; [OTHER_PLATFORM] stands for a value that is neither. *)
Inductive Platforms := STEAM | NON_STEAM | OTHER_PLATFORM.

#[global] Instance GridTypes_eq_dec : EqDecision GridTypes.
Proof. solve_decision. Defined.

#[global] Instance Platforms_eq_dec : EqDecision Platforms.
Proof. solve_decision. Defined.

(** Modelled from the spec: the image record [SGDBImage], declared in
    [models/SGDB]; its remote identifier and its source URL. *)
Record SGDBImage := { image_id : Z; image_url : string }.

(** [SGDBGame], declared in [models/SGDB], with the fields the controller
    reads and writes; [numResultPages] is absent until it is set. *)
Record SGDBGame := {
  id : Z;
  name : string;
  numResultPages : option Z
}.

Definition set_numResultPages (n : Z) (game : SGDBGame) : SGDBGame :=
  {| id := id game; name := name game; numResultPages := Some n |}.

Inductive Error :=
| GatewayError (message : string)
| TypeError (message : string).

Inductive Result (A : Type) :=
| Ok (a : A)
| Throw (e : Error).
Arguments Ok {A} a.
Arguments Throw {A} e.

(** The requests that leave the process. *)
Inductive Request :=
| SearchGame (gameName : string)
| GetGameBySteamAppId (appId : Z)
| ById (method : string) (gameId : Z) (page : Z)
| BySteamAppId (method : string) (appId : Z)
| DownloadGrid (imageURL dest : string).

(** The [SGDB] client held in [this.client].  The image methods are looked
    up by name ([this.client[`get...sById`]]); every method sees the requests
    issued before it. *)
Record SGDB := {
  searchGame : list Request -> string -> Result (list SGDBGame);
  getGameBySteamAppId : list Request -> Z -> Result SGDBGame;
  imagesById : list Request -> string -> Z -> Z -> Result (list SGDBImage);
  imagesBySteamAppId : list Request -> string -> Z -> Result (list SGDBImage)
}.

(** The stores and module-level objects of [Stores.ts] the controller
    imports, the fields of the controller, the local files and the history
    of requests. *)
Record State := {
  (* Stores.ts *)
  steamGridsCache : gmap string (gmap string (list SGDBImage));
  nonSteamGridsCache : gmap string (gmap string (gmap string (list SGDBImage)));
  steamGridSearchCache : gmap string (list SGDBGame);
  steamGridSteamAppIdMap : gmap string string;
  selectedSteamGridGameId : string;
  dowloadingGridId : option Z;
  gridType : GridTypes;
  currentPlatform : Platforms;
  selectedGameName : string;
  (* CacheController *)
  gridCacheDirPath : string;
  client : option SGDB;
  (* outside *)
  files : gset string;
  requests : list Request
}.

Definition set_steamGridsCache v (st : State) : State :=
  {| steamGridsCache := v;
     nonSteamGridsCache := nonSteamGridsCache st;
     steamGridSearchCache := steamGridSearchCache st;
     steamGridSteamAppIdMap := steamGridSteamAppIdMap st;
     selectedSteamGridGameId := selectedSteamGridGameId st;
     dowloadingGridId := dowloadingGridId st;
     gridType := gridType st;
     currentPlatform := currentPlatform st;
     selectedGameName := selectedGameName st;
     gridCacheDirPath := gridCacheDirPath st;
     client := client st;
     files := files st;
     requests := requests st |}.

Definition set_nonSteamGridsCache v (st : State) : State :=
  {| steamGridsCache := steamGridsCache st;
     nonSteamGridsCache := v;
     steamGridSearchCache := steamGridSearchCache st;
     steamGridSteamAppIdMap := steamGridSteamAppIdMap st;
     selectedSteamGridGameId := selectedSteamGridGameId st;
     dowloadingGridId := dowloadingGridId st;
     gridType := gridType st;
     currentPlatform := currentPlatform st;
     selectedGameName := selectedGameName st;
     gridCacheDirPath := gridCacheDirPath st;
     client := client st;
     files := files st;
     requests := requests st |}.

Definition set_steamGridSearchCache v (st : State) : State :=
  {| steamGridsCache := steamGridsCache st;
     nonSteamGridsCache := nonSteamGridsCache st;
     steamGridSearchCache := v;
     steamGridSteamAppIdMap := steamGridSteamAppIdMap st;
     selectedSteamGridGameId := selectedSteamGridGameId st;
     dowloadingGridId := dowloadingGridId st;
     gridType := gridType st;
     currentPlatform := currentPlatform st;
     selectedGameName := selectedGameName st;
     gridCacheDirPath := gridCacheDirPath st;
     client := client st;
     files := files st;
     requests := requests st |}.

Definition set_steamGridSteamAppIdMap v (st : State) : State :=
  {| steamGridsCache := steamGridsCache st;
     nonSteamGridsCache := nonSteamGridsCache st;
     steamGridSearchCache := steamGridSearchCache st;
     steamGridSteamAppIdMap := v;
     selectedSteamGridGameId := selectedSteamGridGameId st;
     dowloadingGridId := dowloadingGridId st;
     gridType := gridType st;
     currentPlatform := currentPlatform st;
     selectedGameName := selectedGameName st;
     gridCacheDirPath := gridCacheDirPath st;
     client := client st;
     files := files st;
     requests := requests st |}.

Definition set_selectedSteamGridGameId v (st : State) : State :=
  {| steamGridsCache := steamGridsCache st;
     nonSteamGridsCache := nonSteamGridsCache st;
     steamGridSearchCache := steamGridSearchCache st;
     steamGridSteamAppIdMap := steamGridSteamAppIdMap st;
     selectedSteamGridGameId := v;
     dowloadingGridId := dowloadingGridId st;
     gridType := gridType st;
     currentPlatform := currentPlatform st;
     selectedGameName := selectedGameName st;
     gridCacheDirPath := gridCacheDirPath st;
     client := client st;
     files := files st;
     requests := requests st |}.

Definition set_dowloadingGridId v (st : State) : State :=
  {| steamGridsCache := steamGridsCache st;
     nonSteamGridsCache := nonSteamGridsCache st;
     steamGridSearchCache := steamGridSearchCache st;
     steamGridSteamAppIdMap := steamGridSteamAppIdMap st;
     selectedSteamGridGameId := selectedSteamGridGameId st;
     dowloadingGridId := v;
     gridType := gridType st;
     currentPlatform := currentPlatform st;
     selectedGameName := selectedGameName st;
     gridCacheDirPath := gridCacheDirPath st;
     client := client st;
     files := files st;
     requests := requests st |}.

Definition set_files v (st : State) : State :=
  {| steamGridsCache := steamGridsCache st;
     nonSteamGridsCache := nonSteamGridsCache st;
     steamGridSearchCache := steamGridSearchCache st;
     steamGridSteamAppIdMap := steamGridSteamAppIdMap st;
     selectedSteamGridGameId := selectedSteamGridGameId st;
     dowloadingGridId := dowloadingGridId st;
     gridType := gridType st;
     currentPlatform := currentPlatform st;
     selectedGameName := selectedGameName st;
     gridCacheDirPath := gridCacheDirPath st;
     client := client st;
     files := v;
     requests := requests st |}.

Definition set_requests v (st : State) : State :=
  {| steamGridsCache := steamGridsCache st;
     nonSteamGridsCache := nonSteamGridsCache st;
     steamGridSearchCache := steamGridSearchCache st;
     steamGridSteamAppIdMap := steamGridSteamAppIdMap st;
     selectedSteamGridGameId := selectedSteamGridGameId st;
     dowloadingGridId := dowloadingGridId st;
     gridType := gridType st;
     currentPlatform := currentPlatform st;
     selectedGameName := selectedGameName st;
     gridCacheDirPath := gridCacheDirPath st;
     client := client st;
     files := files st;
     requests := v |}.

(** ** The monad of asynchronous methods *)

Definition M (A : Type) : Type := State -> Result A * State.

Definition ret {A} (a : A) : M A := fun st => (Ok a, st).

Definition throw {A} (e : Error) : M A := fun st => (Throw e, st).

Definition bind {A B} (m : M A) (k : A -> M B) : M B :=
  fun st =>
    match m st with
    | (Ok a, st') => k a st'
    | (Throw e, st') => (Throw e, st')
    end.

Notation "x <- m ;; k" := (bind m (fun x => k))
  (at level 100, m at next level, right associativity).
Notation "m ;;; k" := (bind m (fun _ => k))
  (at level 100, right associativity).

Definition gets {A} (f : State -> A) : M A := fun st => (Ok (f st), st).

Definition modify (f : State -> State) : M unit := fun st => (Ok tt, f st).

(** [await this.client.method(...)]: a [TypeError] when [this.client] is
    [null]; otherwise the request is issued and answered. *)
Definition call {A} (r : Request)
    (method : SGDB -> list Request -> Result A) : M A :=
  fun st =>
    match client st with
    | None => (Throw (TypeError "this.client is null"), st)
    | Some c => (method c (requests st), set_requests (requests st ++ [r]) st)
    end.

(** [o[k]... = v] on a nested object: reading through a key that is not
    there is a [TypeError], as in JavaScript. *)
Definition assign_in {V} (k : string) (f : V -> Result V)
    (o : gmap string V) : Result (gmap string V) :=
  match o !! k with
  | None => Throw (TypeError "cannot set properties of undefined")
  | Some v =>
      match f v with
      | Ok v' => Ok (<[k := v']> o)
      | Throw e => Throw e
      end
  end.

Definition assign {V} (k : string) (v : V)
    (o : gmap string V) : Result (gmap string V) :=
  Ok (<[k := v]> o).

Definition update_steamGridsCache
    (f : gmap string (gmap string (list SGDBImage)) ->
         Result (gmap string (gmap string (list SGDBImage)))) : M unit :=
  fun st =>
    match f (steamGridsCache st) with
    | Ok o => (Ok tt, set_steamGridsCache o st)
    | Throw e => (Throw e, st)
    end.

Definition update_nonSteamGridsCache
    (f : gmap string (gmap string (gmap string (list SGDBImage))) ->
         Result (gmap string (gmap string (gmap string (list SGDBImage))))) :
    M unit :=
  fun st =>
    match f (nonSteamGridsCache st) with
    | Ok o => (Ok tt, set_nonSteamGridsCache o st)
    | Throw e => (Throw e, st)
    end.

(** Where [fetchGridsForNonSteamGame] is suspended: at the [await] of line
    209 (page missing), 215 (category missing) or 222 (game missing). *)
Inductive Suspension := AtPage | AtType | AtGame.

Inductive Lookup :=
| Hit (grids : list SGDBImage)
| Miss (at_ : Suspension).

(** The closure that [cacheAllGridsForGame] runs for one game (lines
    255-275): about to call [fetchGridsForNonSteamGame] for page [numPages],
    suspended in that call with the answer on its way, or past the loop. *)
Inductive Walk :=
| Calling (numPages : Z)
| Suspended (numPages : Z) (at_ : Suspension)
    (response : Result (list SGDBImage))
| Finished (numPages : Z).

(** [fetches] counts the calls of [fetchGridsForNonSteamGame] the closure has
    made. *)
Record Closure := { game : SGDBGame; walk : Walk; fetches : nat }.

(** The number of name searches in a history of requests. *)
Definition is_search (r : Request) : bool :=
  match r with
  | SearchGame _ => true
  | _ => false
  end.

Definition searches (history : list Request) : nat :=
  length (filter (fun r => is_search r = true) history).

(** [nonSteamGridsCache[a][t][p]], if the three keys are there. *)
Definition cachedAt (st : State) (a t p : string) : option (list SGDBImage) :=
  pages ← (types ← nonSteamGridsCache st !! a; types !! t);
  pages !! p.

(** ** The controller *)

Section CacheController.

(** The string values of the members of [enum GridTypes]; they are
    declared in [Stores.ts]. *)
Variable value : GridTypes -> string.

(** [path.join] of the Tauri API. *)
Variable join : list string -> string.

(** The answer of the download command behind [RustInterop.downloadGrid]:
    the [success] flag, or a rejection. *)
Variable download : list Request -> string -> string -> Result bool.

(** Modelled from the spec: [RustInterop.downloadGrid], whose source is not
    part of the controller.  The download is requested; when it succeeds the
    bytes are written to [dest], when it does not the files are left as they
    were. *)
Definition RustInterop_downloadGrid (imageURL dest : string) : M bool :=
  fun st =>
    let st' := set_requests (requests st ++ [DownloadGrid imageURL dest]) st in
    match download (requests st) imageURL dest with
    | Ok true => (Ok true, set_files ({[dest]} ∪ files st) st')
    | r => (r, st')
    end.

(** *** [getGridImage] (lines 126-156) *)

(** Line 128. *)
Definition fileName (imageURL : string) : string :=
  JS.substring imageURL (JS.lastIndexOf imageURL "/" + 1).

(** Line 129. *)
Definition localImagePath (dir : string) (type : GridTypes)
    (imageURL : string) : string :=
  join [dir; value type; fileName imageURL].

Definition getGridImage (appId : Z) (imageURL : string) : M string :=
  dir <- gets gridCacheDirPath;;
  type <- gets gridType;;
  let localImagePath := localImagePath dir type imageURL in
  found <- gets (fun st => bool_decide (localImagePath ∈ files st));;
  if negb found then
    modify (set_dowloadingGridId (Some appId));;;
    success <- RustInterop_downloadGrid imageURL localImagePath;;
    modify (set_dowloadingGridId None);;;
    ret localImagePath
  else
    ret localImagePath.

(** *** The grid result caches (lines 165-228) *)

(** The method name
    [`get${type.includes("Capsule") ? "Grid" :
           (type == GridTypes.HERO ? "Heroe" : type)}s...`]. *)
Definition method_name (type : GridTypes) (suffix : string) : string :=
  "get" +:+
  (if JS.includes (value type) "Capsule" then "Grid"
   else if String.eqb (value type) (value HERO) then "Heroe"
   else value type) +:+
  suffix.

Definition fetchGridsForSteamGame (appId : Z) (type : GridTypes) :
    M (list SGDBImage) :=
  cache <- gets steamGridsCache;;
  match cache !! pretty appId with
  | Some types =>
      match types !! value type with
      | Some grids => ret grids
      | None =>
          let m := method_name type "sBySteamAppId" in
          grids <- call (BySteamAppId m appId)
                     (fun c h => imagesBySteamAppId c h m appId);;
          update_steamGridsCache
            (assign_in (pretty appId) (assign (value type) grids));;;
          ret grids
      end
  | None =>
      let m := method_name type "sBySteamAppId" in
      grids <- call (BySteamAppId m appId)
                 (fun c h => imagesBySteamAppId c h m appId);;
      update_steamGridsCache (assign (pretty appId) ∅);;;
      update_steamGridsCache
        (assign_in (pretty appId) (assign (value type) grids));;;
      ret grids
  end.

(** The request of lines 209, 215 and 222; the arguments that are the same
    in every call (styles, dimensions, ...) are left out. *)
Definition getById (appId : Z) (type : GridTypes) (page : Z) :
    M (list SGDBImage) :=
  let m := method_name type "sById" in
  call (ById m appId page) (fun c h => imagesById c h m appId page).

Definition fetchGridsForNonSteamGame (appId : Z) (type : GridTypes)
    (page : Z) : M (list SGDBImage) :=
  cache <- gets nonSteamGridsCache;;
  match cache !! pretty appId with
  | Some types =>
      match types !! value type with
      | Some pages =>
          match pages !! pretty page with
          | Some grids => ret grids
          | None =>
              grids <- getById appId type page;;
              update_nonSteamGridsCache
                (assign_in (pretty appId)
                   (assign_in (value type) (assign (pretty page) grids)));;;
              ret grids
          end
      | None =>
          grids <- getById appId type page;;
          update_nonSteamGridsCache
            (assign_in (pretty appId) (assign (value type) ∅));;;
          update_nonSteamGridsCache
            (assign_in (pretty appId)
               (assign_in (value type) (assign (pretty page) grids)));;;
          ret grids
      end
  | None =>
      grids <- getById appId type page;;
      update_nonSteamGridsCache (assign (pretty appId) ∅);;;
      update_nonSteamGridsCache
        (assign_in (pretty appId) (assign (value type) ∅));;;
      update_nonSteamGridsCache
        (assign_in (pretty appId)
           (assign_in (value type) (assign (pretty page) grids)));;;
      ret grids
  end.

(** The list cached for a triple, if any. *)
Definition cachedPage (st : State) (appId : Z) (type : GridTypes)
    (page : Z) : option (list SGDBImage) :=
  cachedAt st (pretty appId) (value type) (pretty page).


(** *** The two halves of [fetchGridsForNonSteamGame]

    The method runs without interruption up to its [await] (the three-level
    lookup and, on a miss, the request) and, once the answer is there, from
    the [await] to its [return] (the insertions). *)

Definition lookupPage (appId : Z) (type : GridTypes) (page : Z) : M Lookup :=
  cache <- gets nonSteamGridsCache;;
  match cache !! pretty appId with
  | Some types =>
      match types !! value type with
      | Some pages =>
          match pages !! pretty page with
          | Some grids => ret (Hit grids)
          | None => ret (Miss AtPage)
          end
      | None => ret (Miss AtType)
      end
  | None => ret (Miss AtGame)
  end.

Definition insertPage (appId : Z) (type : GridTypes) (page : Z)
    (at_ : Suspension) (grids : list SGDBImage) : M (list SGDBImage) :=
  match at_ with
  | AtPage =>
      update_nonSteamGridsCache
        (assign_in (pretty appId)
           (assign_in (value type) (assign (pretty page) grids)));;;
      ret grids
  | AtType =>
      update_nonSteamGridsCache
        (assign_in (pretty appId) (assign (value type) ∅));;;
      update_nonSteamGridsCache
        (assign_in (pretty appId)
           (assign_in (value type) (assign (pretty page) grids)));;;
      ret grids
  | AtGame =>
      update_nonSteamGridsCache (assign (pretty appId) ∅);;;
      update_nonSteamGridsCache
        (assign_in (pretty appId) (assign (value type) ∅));;;
      update_nonSteamGridsCache
        (assign_in (pretty appId)
           (assign_in (value type) (assign (pretty page) grids)));;;
      ret grids
  end.

(** *** Page counts (lines 238-278) *)

(** [getNumPages] returns nothing: it sets [numResultPages] on the game
    objects of [results], which are the objects its caller stores next.  The
    embedding hands the annotated objects back. *)
Definition getNumPages (results : list SGDBGame) (platform : Platforms)
    (type : GridTypes) : M (list SGDBGame) :=
  ret (map (fun game => set_numResultPages 1 game) results).

(** [cacheAllGridsForGame] starts one asynchronous closure per game with
    [Promise.all]; the closures are suspended at the requests of
    [fetchGridsForNonSteamGame] and resumed as the answers arrive, in an
    order the code does not control.  [closure_step] runs one closure from
    one suspension point to the next. *)

(** Lines 261-269: the outcome of one [fetchGridsForNonSteamGame]. *)
Definition next_walk (numPages : Z) (r : Result (list SGDBImage)) : Walk :=
  match r with
  | Ok grids =>
      if (0 <? Z.of_nat (length grids))%Z then Calling (numPages + 1)
      else Finished numPages
  | Throw _ => Finished numPages
  end.

Definition closure_step (type : GridTypes) (c : Closure) (st : State) :
    Closure * State :=
  match walk c with
  | Calling numPages =>
      match lookupPage (id (game c)) type numPages st with
      | (Ok (Hit grids), st') =>
          ({| game := game c;
              walk := next_walk numPages (Ok grids);
              fetches := S (fetches c) |}, st')
      | (Ok (Miss at_), st') =>
          let (response, st'') := getById (id (game c)) type numPages st' in
          ({| game := game c;
              walk := Suspended numPages at_ response;
              fetches := S (fetches c) |}, st'')
      | (Throw e, st') =>
          ({| game := game c;
              walk := Finished numPages;
              fetches := S (fetches c) |}, st')
      end
  | Suspended numPages at_ (Ok grids) =>
      let (r, st') := insertPage (id (game c)) type numPages at_ grids st in
      ({| game := game c;
          walk := next_walk numPages r;
          fetches := fetches c |}, st')
  | Suspended numPages at_ (Throw e) =>
      ({| game := game c;
          walk := Finished numPages;
          fetches := fetches c |}, st)
  | Finished _ => (c, st)
  end.

(** Resuming the closure of the game at index [i]. *)
Definition resume (type : GridTypes) (cfg : State * list Closure)
    (i : nat) : State * list Closure :=
  match snd cfg !! i with
  | Some c =>
      let (c', st') := closure_step type c (fst cfg) in
      (st', <[i := c']> (snd cfg))
  | None => cfg
  end.

Definition run_closures (type : GridTypes) (schedule : list nat)
    (cfg : State * list Closure) : State * list Closure :=
  fold_left (resume type) schedule cfg.

Definition start_closure (game : SGDBGame) : Closure :=
  {| game := game; walk := Calling 0; fetches := O |}.

Definition finished (c : Closure) : bool :=
  match walk c with
  | Finished _ => true
  | _ => false
  end.

(** Line 272. *)
Definition annotated (c : Closure) : SGDBGame :=
  match walk c with
  | Finished numPages => set_numResultPages numPages (game c)
  | _ => game c
  end.

(** [cacheAllGridsForGame] under a schedule of resumptions: it has
    returned, with the games annotated, when every closure has finished;
    [None] when the schedule ends before that.  Like [getNumPages] it hands
    back the objects it has annotated. *)
Definition cacheAllGridsForGame (schedule : list nat)
    (results : list SGDBGame) (platform : Platforms) (type : GridTypes)
    (st : State) : option (list SGDBGame) * State :=
  let (st', closures) :=
    run_closures type schedule (st, map start_closure results) in
  if forallb finished closures then (Some (map annotated closures), st')
  else (None, st').

(** *** [fetchGrids] (lines 288-350) *)

(** Lines 294-304 and 326-336, the same in both branches: the candidates of
    the search cache, searched by name on first use. *)
Definition getCandidates (appId : Z) (type : GridTypes) :
    M (list SGDBGame) :=
  gameName <- gets selectedGameName;;
  searchCache <- gets steamGridSearchCache;;
  match searchCache !! pretty appId with
  | Some results => ret results
  | None =>
      results <- call (SearchGame gameName)
                   (fun c h => searchGame c h gameName);;
      results <- getNumPages results STEAM type;;
      modify (fun st =>
        set_steamGridSearchCache
          (<[pretty appId := results]> (steamGridSearchCache st)) st);;;
      ret results
  end.

(** Lines 306-312. *)
Definition resolveProviderId (appId : Z) : M string :=
  idMap <- gets steamGridSteamAppIdMap;;
  if JS.truthy_string (idMap !! pretty appId) then
    ret (default "" (idMap !! pretty appId))
  else
    gameInfo <- call (GetGameBySteamAppId appId)
                  (fun c h => getGameBySteamAppId c h appId);;
    let gameId := pretty (id gameInfo) in
    modify (fun st =>
      set_steamGridSteamAppIdMap
        (<[pretty appId := gameId]> (steamGridSteamAppIdMap st)) st);;;
    ret gameId.

(** Line 315 and line 339. *)
Definition or_first (choosenResult : option SGDBGame)
    (results : list SGDBGame) : option SGDBGame :=
  match choosenResult with
  | None => if (0 <? Z.of_nat (length results))%Z then head results else None
  | Some game => Some game
  end.

(** Lines 314-315. *)
Definition choosenResult_steam (results : list SGDBGame)
    (selectedSteamGridId : option string) (gameId : string) :
    option SGDBGame :=
  or_first
    (if JS.truthy_string selectedSteamGridId
     then find (fun game =>
                  JS.eq_string (pretty (id game)) selectedSteamGridId) results
     else find (fun game => String.eqb (pretty (id game)) gameId) results)
    results.

(** Lines 338-339. *)
Definition choosenResult_nonSteam (results : list SGDBGame)
    (selectedSteamGridId : option string) (gameName : string) :
    option SGDBGame :=
  or_first
    (if JS.truthy_string selectedSteamGridId
     then find (fun game =>
                  JS.eq_string (pretty (id game)) selectedSteamGridId) results
     else find (fun game => String.eqb (name game) gameName) results)
    results.

(** Lines 317-324 and 341-348.  [steamGridSearchCache.set(searchCache)]
    publishes the object that line 303 or 335 has already written to, so it
    leaves the contents of the store as they are. *)
Definition fetchChoosen (choosenResult : option SGDBGame)
    (type : GridTypes) (page : Z) : M (option (list SGDBImage)) :=
  match choosenResult with
  | Some game =>
      if JS.truthy_number (id game) then
        modify (set_selectedSteamGridGameId (pretty (id game)));;;
        grids <- fetchGridsForNonSteamGame (id game) type page;;
        ret (Some grids)
      else ret (Some [])
  | None => ret (Some [])
  end.

(** The result is [None] where the method returns [undefined]. *)
Definition fetchGrids (appId page : Z) (selectedSteamGridId : option string) :
    M (option (list SGDBImage)) :=
  type <- gets gridType;;
  selectedPlatform <- gets currentPlatform;;
  match selectedPlatform with
  | STEAM =>
      results <- getCandidates appId type;;
      gameId <- resolveProviderId appId;;
      fetchChoosen (choosenResult_steam results selectedSteamGridId gameId)
        type page
  | NON_STEAM =>
      gameName <- gets selectedGameName;;
      results <- getCandidates appId type;;
      fetchChoosen
        (choosenResult_nonSteam results selectedSteamGridId gameName)
        type page
  | OTHER_PLATFORM => ret None
  end.

End CacheController.

(** ** [Grids.svelte] *)

(** The page count of lines 85 and 105:
    [searchCache[selectedAppId]?.find((game) => game.id.toString() == id)
       ?.numResultPages ?? 3]. *)
Definition numPages (searchCache : gmap string (list SGDBGame))
    (selectedAppId : Z) (selectedSteamGridGameId : string) : Z :=
  default 3
    (game ← (results ← searchCache !! pretty selectedAppId;
             find (fun game =>
                     String.eqb (pretty (id game)) selectedSteamGridGameId)
               results);
     numResultPages game).

(** The options of the drop-down of provider games and the page count that
    the component shows (its variables [availableSteamGridGames] and
    [numPages]). *)
Record DropDownOption := { label : string; data : string }.

Record GridsView := {
  availableSteamGridGames : list DropDownOption;
  shownPages : Z
}.

(** Lines 96-107.  [selectedAppId] is [null] while no game is selected; as a
    property key [null] reads ["null"]. *)
Definition setAvailableSgdbGamesOnStateChange (st : State)
    (searchCache : gmap string (list SGDBGame)) (selectedAppId : option Z)
    (view : GridsView) : GridsView :=
  let key :=
    match selectedAppId with
    | Some appId => pretty appId
    | None => "null"
    end in
  match currentPlatform st, searchCache !! key with
  | (STEAM | NON_STEAM), Some results =>
      if negb (String.eqb (selectedGameName st) "") then
        {| availableSteamGridGames :=
             map (fun value =>
                    {| label := name value; data := pretty (id value) |})
               results;
           shownPages :=
             default 3
               (game ← find (fun game =>
                               String.eqb (pretty (id game))
                                 (selectedSteamGridGameId st))
                         results;
                numResultPages game) |}
      else view
  | _, _ => view
  end.

(** ** [init] (lines 49-119) *)

Definition set_gridCacheDirPath v (st : State) : State :=
  {| steamGridsCache := steamGridsCache st;
     nonSteamGridsCache := nonSteamGridsCache st;
     steamGridSearchCache := steamGridSearchCache st;
     steamGridSteamAppIdMap := steamGridSteamAppIdMap st;
     selectedSteamGridGameId := selectedSteamGridGameId st;
     dowloadingGridId := dowloadingGridId st;
     gridType := gridType st;
     currentPlatform := currentPlatform st;
     selectedGameName := selectedGameName st;
     gridCacheDirPath := v;
     client := client st;
     files := files st;
     requests := requests st |}.

Definition set_client v (st : State) : State :=
  {| steamGridsCache := steamGridsCache st;
     nonSteamGridsCache := nonSteamGridsCache st;
     steamGridSearchCache := steamGridSearchCache st;
     steamGridSteamAppIdMap := steamGridSteamAppIdMap st;
     selectedSteamGridGameId := selectedSteamGridGameId st;
     dowloadingGridId := dowloadingGridId st;
     gridType := gridType st;
     currentPlatform := currentPlatform st;
     selectedGameName := selectedGameName st;
     gridCacheDirPath := gridCacheDirPath st;
     client := v;
     files := files st;
     requests := requests st |}.

Section Startup.

Variable value : GridTypes -> string.

(** The Tauri API that [init] awaits, none of which is code of the
    controller: the answer of [appCacheDir()] and of [path.join(...)], the
    error, if any, with which [fs.exists(dir)] and [fs.createDir(dir)]
    reject in a file system with the given paths, and the constructor
    [new SGDB(key)].  Any of the awaited calls may reject. *)
Variable appCacheDir : Result string.
Variable path_join : list string -> Result string.
Variable fs_exists_rejects : gset string -> string -> option Error.
Variable fs_createDir_rejects : gset string -> string -> option Error.
Variable new_SGDB : string -> SGDB.

(** [await promise]. *)
Definition await {A} (r : Result A) : M A := fun st => (r, st).

(** [fs.exists(dir)]: a directory is a path of [files], like a file. *)
Definition fs_exists (dir : string) : M bool :=
  fun st =>
    match fs_exists_rejects (files st) dir with
    | Some e => (Throw e, st)
    | None => (Ok (bool_decide (dir ∈ files st)), st)
    end.

(** [fs.createDir(dir)], without the [recursive] option. *)
Definition fs_createDir (dir : string) : M unit :=
  fun st =>
    match fs_createDir_rejects (files st) dir with
    | Some e => (Throw e, st)
    | None => (Ok tt, set_files ({[dir]} ∪ files st) st)
    end.

(** [if (!(await fs.exists(dir))) { await fs.createDir(dir); }] *)
Definition ensureDir (dir : string) : M unit :=
  found <- fs_exists dir;;
  if negb found then fs_createDir dir else ret tt.

(** The callback of lines 108-116, which the store runs with its value at
    once and on every change ([this.key], which nothing reads, is left
    out). *)
Definition apiKeySubscriber (key : string) : M unit :=
  if negb (String.eqb key "") then modify (set_client (Some (new_SGDB key)))
  else modify (set_client None).

(** [init]; [key] is the value of [steamGridDBKey] at that time.  The
    field [this.appCacheDirPath], which only [init] reads, is the local
    [appCacheDirPath]. *)
Definition init (key : string) : M unit :=
  appCacheDirPath <- await appCacheDir;;
  ensureDir appCacheDirPath;;;
  gridCacheDirPath <- await (path_join [appCacheDirPath; "grids"]);;
  modify (set_gridCacheDirPath gridCacheDirPath);;;
  ensureDir gridCacheDirPath;;;
  capsuleCacheDir <- await (path_join [gridCacheDirPath; value CAPSULE]);;
  ensureDir capsuleCacheDir;;;
  wideCapsuleCacheDir <-
    await (path_join [gridCacheDirPath; value WIDE_CAPSULE]);;
  ensureDir wideCapsuleCacheDir;;;
  heroCacheDir <- await (path_join [gridCacheDirPath; value HERO]);;
  ensureDir heroCacheDir;;;
  logoCacheDir <- await (path_join [gridCacheDirPath; value LOGO]);;
  ensureDir logoCacheDir;;;
  iconCacheDir <- await (path_join [gridCacheDirPath; value ICON]);;
  ensureDir iconCacheDir;;;
  apiKeySubscriber key.

End Startup.

(** ** Vocabulary of the statements *)

(** [game] is the first of [results] that satisfies [P]. *)
Definition first_with (P : SGDBGame -> Prop) (results : list SGDBGame)
    (game : SGDBGame) : Prop :=
  exists before after,
    results = before ++ game :: after /\
    P game /\
    Forall (fun g => ~ P g) before.

(** [game] carries the provider identity [s]. *)
Definition has_id (s : string) (game : SGDBGame) : Prop :=
  pretty (id game) = s.

Definition has_name (s : string) (game : SGDBGame) : Prop :=
  name game = s.

(** What [fetchGridsForNonSteamGame] can return for a page: the list that is
    cached for it in [st], or an answer of the provider. *)
Definition served (value : GridTypes -> string) (st : State) (c : SGDB)
    (gameId : Z) (type : GridTypes) (page : Z)
    (r : Result (list SGDBImage)) : Prop :=
  (exists grids,
     cachedPage value st gameId type page = Some grids /\ r = Ok grids) \/
  (exists history,
     r = imagesById c history (method_name value type "sById") gameId page).

Definition nonempty_page (r : Result (list SGDBImage)) : Prop :=
  exists grids, r = Ok grids /\ grids ≠ [].

(** An empty page, or a fetch that raises. *)
Definition last_page (r : Result (list SGDBImage)) : Prop :=
  r = Ok [] \/ exists e, r = Throw e.

(** The pages of one game: [entry] is [nonSteamGridsCache[gameId]]. *)
Definition pageOf
    (entry : option (gmap string (gmap string (list SGDBImage))))
    (t p : string) : option (list SGDBImage) :=
  pages ← (types ← entry; types !! t);
  pages !! p.

Definition levelOf
    (entry : option (gmap string (gmap string (list SGDBImage))))
    (t p : string) : Lookup :=
  match entry with
  | Some types =>
      match types !! t with
      | Some pages =>
          match pages !! p with
          | Some grids => Hit grids
          | None => Miss AtPage
          end
      | None => Miss AtType
      end
  | None => Miss AtGame
  end.

(** The levels that the insertions after a suspension write through. *)
Definition level_present
    (entry : option (gmap string (gmap string (list SGDBImage))))
    (t : string) (at_ : Suspension) : Prop :=
  match at_ with
  | AtPage => is_Some (types ← entry; types !! t)
  | AtType => is_Some entry
  | AtGame => True
  end.

(** The outcome expected of page [n] of a game with [N] non-empty pages. *)
Definition page_ok (N : nat) (n : Z) (r : Result (list SGDBImage)) : Prop :=
  ((n < Z.of_nat N)%Z -> nonempty_page r) /\
  (n = Z.of_nat N -> last_page r).

(** The pages 0 to [N] that are cached for the game are as expected. *)
Definition cache_ok (N : nat) (t : string)
    (entry : option (gmap string (gmap string (list SGDBImage)))) : Prop :=
  forall p grids,
    (0 <= p <= Z.of_nat N)%Z ->
    pageOf entry t (pretty p) = Some grids ->
    page_ok N p (Ok grids).

(** The invariant of a closure that walks the pages of such a game; [entry]
    is the cache entry of the game, [t] the value of the category. *)
Definition walk_inv (N : nat) (t : string)
    (entry : option (gmap string (gmap string (list SGDBImage))))
    (c : Closure) : Prop :=
  match walk c with
  | Calling n => (0 <= n <= Z.of_nat N)%Z /\ fetches c = Z.to_nat n
  | Suspended n at_ r =>
      (0 <= n <= Z.of_nat N)%Z /\
      fetches c = S (Z.to_nat n) /\
      level_present entry t at_ /\
      page_ok N n r
  | Finished n => n = Z.of_nat N /\ fetches c = S N
  end.

(** The invariant of the closures of [cacheAllGridsForGame], as far as the
    game of identity [gameId] is concerned. *)
Definition pool_inv (N : nat) (t : string) (sgdb : SGDB) (gameId : Z)
    (cfg : State * list Closure) : Prop :=
  client (fst cfg) = Some sgdb /\
  cache_ok N t (nonSteamGridsCache (fst cfg) !! pretty gameId) /\
  (forall j cj,
     snd cfg !! j = Some cj ->
     id (game cj) = gameId ->
     walk_inv N t (nonSteamGridsCache (fst cfg) !! pretty gameId) cj).

(** A bound on the resumptions the closure still needs. *)
Definition steps_left (N : nat) (c : Closure) : nat :=
  match walk c with
  | Calling n => 2 * (N + 1 - Z.to_nat n)
  | Suspended n _ _ => 2 * (N - Z.to_nat n) + 1
  | Finished _ => 0
  end.

(** [s] has no ["/"] in it. *)
Fixpoint no_slash (s : string) : bool :=
  match s with
  | EmptyString => true
  | String c s' => negb (Ascii.eqb c "/") && no_slash s'
  end.

(** The number of direct lookups in a history of requests. *)
Definition is_lookup (r : Request) : bool :=
  match r with
  | GetGameBySteamAppId _ => true
  | _ => false
  end.

Definition lookups (history : list Request) : nat :=
  length (filter (fun r => is_lookup r = true) history).

(** Every candidate of the search cache carries the page count 1. *)
Definition candidates_annotated
    (searchCache : gmap string (list SGDBGame)) : Prop :=
  forall key results g,
    searchCache !! key = Some results ->
    g ∈ results ->
    numResultPages g = Some 1%Z.

(** [grids] is what the provider answered to a request of [history] for the
    page. *)
Definition answered (c : SGDB) (history : list Request) (m : string)
    (gameId page : Z) (grids : list SGDBImage) : Prop :=
  exists before later,
    history = before ++ ById m gameId page :: later /\
    imagesById c before m gameId page = Ok grids.

(** Every list of the non-steam cache is the provider's answer to a request
    for the game, category and page it is stored under. *)
Definition cache_answered (value : GridTypes -> string) (c : SGDB)
    (st : State) : Prop :=
  forall a t p grids,
    cachedAt st a t p = Some grids ->
    exists gameId type page,
      a = pretty gameId /\ t = value type /\ p = pretty page /\
      answered c (requests st) (method_name value type "sById") gameId page
        grids.

(** The invariants of the closures of a game all of whose pages are
    non-empty. *)
Definition cache_nonempty (t : string)
    (entry : option (gmap string (gmap string (list SGDBImage)))) : Prop :=
  forall p grids,
    (0 <= p)%Z -> pageOf entry t (pretty p) = Some grids -> grids ≠ [].

Definition walk_inv_unbounded (t : string)
    (entry : option (gmap string (gmap string (list SGDBImage))))
    (c : Closure) : Prop :=
  match walk c with
  | Calling n => (0 <= n)%Z
  | Suspended n at_ r =>
      (0 <= n)%Z /\ level_present entry t at_ /\ nonempty_page r
  | Finished _ => False
  end.

Definition pool_inv_unbounded (t : string) (sgdb : SGDB) (gameId : Z)
    (cfg : State * list Closure) : Prop :=
  client (fst cfg) = Some sgdb /\
  cache_nonempty t (nonSteamGridsCache (fst cfg) !! pretty gameId) /\
  (forall j cj,
     snd cfg !! j = Some cj ->
     id (game cj) = gameId ->
     walk_inv_unbounded t (nonSteamGridsCache (fst cfg) !! pretty gameId) cj).

(** The pages below [n] are cached, each with a list that is not empty. *)
Definition pages_cached (t : string)
    (entry : option (gmap string (gmap string (list SGDBImage))))
    (n : Z) : Prop :=
  forall p,
    (0 <= p < n)%Z ->
    exists grids, pageOf entry t (pretty p) = Some grids /\ grids ≠ [].

(** The invariant of a closure that no other closure shares its game with:
    the pages that it has counted are cached. *)
Definition walk_cached (t : string)
    (entry : option (gmap string (gmap string (list SGDBImage))))
    (c : Closure) : Prop :=
  match walk c with
  | Calling n => (0 <= n)%Z /\ pages_cached t entry n
  | Suspended n at_ _ =>
      (0 <= n)%Z /\ levelOf entry t (pretty n) = Miss at_ /\
      pages_cached t entry n
  | Finished n => (0 <= n)%Z /\ pages_cached t entry n
  end.

(** What [fetchGrids] has no business with stays as it is. *)
Definition outside_caches (st st' : State) : Prop :=
  steamGridsCache st' = steamGridsCache st /\
  dowloadingGridId st' = dowloadingGridId st /\
  gridType st' = gridType st /\
  currentPlatform st' = currentPlatform st /\
  selectedGameName st' = selectedGameName st /\
  gridCacheDirPath st' = gridCacheDirPath st /\
  client st' = client st /\
  files st' = files st.

(** ** Concrete instances

    A client, a state and an assignment of the enumeration values, used to
    run the controller on actual inputs. *)

Module Examples.

Definition value (type : GridTypes) : string :=
  match type with
  | CAPSULE => "Capsule"
  | WIDE_CAPSULE => "Wide Capsule"
  | HERO => "Hero"
  | LOGO => "Logo"
  | ICON => "Icon"
  end.

(** Joining with the separator of POSIX paths. *)
Definition join (segments : list string) : string :=
  String.concat "/" segments.

(** A download command that fails. *)
Definition download_fails (history : list Request) (imageURL dest : string) :
    Result bool :=
  Ok false.

Definition img1 : SGDBImage :=
  {| image_id := 1; image_url := "https://cdn.example/grid/a.png" |}.

Definition img2 : SGDBImage :=
  {| image_id := 2; image_url := "https://cdn.example/grid/b.png" |}.

Definition foo : SGDBGame :=
  {| id := 5; name := "Foo"; numResultPages := None |}.

(** A provider that knows the game ["Foo"] under the identity 5, with two
    pages of images followed by empty pages. *)
Definition provider : SGDB :=
  {| searchGame := fun _ _ => Ok [foo];
     getGameBySteamAppId := fun _ _ => Ok foo;
     imagesById := fun _ _ _ page =>
       if (page =? 0)%Z then Ok [img1]
       else if (page =? 1)%Z then Ok [img2]
       else Ok [];
     imagesBySteamAppId := fun _ _ _ => Ok [img1] |}.

(** The state at startup, with the native game 100 (["Foo"]) selected. *)
Definition startup (c : option SGDB) (platform : Platforms)
    (gameName : string) : State :=
  {| steamGridsCache := ∅;
     nonSteamGridsCache := ∅;
     steamGridSearchCache := ∅;
     steamGridSteamAppIdMap := ∅;
     selectedSteamGridGameId := "None";
     dowloadingGridId := None;
     gridType := CAPSULE;
     currentPlatform := platform;
     selectedGameName := gameName;
     gridCacheDirPath := "/cache/grids";
     client := c;
     files := ∅;
     requests := [] |}.

Definition st0 : State := startup (Some provider) STEAM "Foo".

Definition baz : SGDBGame :=
  {| id := 1; name := "Baz"; numResultPages := None |}.

Definition bar : SGDBGame :=
  {| id := 2; name := "Bar"; numResultPages := None |}.

(** A provider that does not know the selected game: the name search
    finds nothing and the direct lookup fails. *)
Definition provider_unknown : SGDB :=
  {| searchGame := fun _ _ => Ok [];
     getGameBySteamAppId := fun _ _ => Throw (GatewayError "Game not found");
     imagesById := fun _ _ _ _ => Ok [];
     imagesBySteamAppId := fun _ _ _ => Ok [] |}.

Definition st_unknown : State := startup (Some provider_unknown) STEAM "Qux".

Definition st_unknown_nonSteam : State :=
  startup (Some provider_unknown) NON_STEAM "Qux".

(** A provider whose name search answers with ["Baz"] and ["Bar"]. *)
Definition provider_bar : SGDB :=
  {| searchGame := fun _ _ => Ok [baz; bar];
     getGameBySteamAppId := fun _ _ => Throw (GatewayError "Game not found");
     imagesById := fun _ _ gameId _ =>
       if (gameId =? 2)%Z then Ok [img2] else Ok [img1];
     imagesBySteamAppId := fun _ _ _ => Ok [] |}.

(** The non-native entry ["Bar"] selected at startup. *)
Definition st_bar : State := startup (Some provider_bar) NON_STEAM "Bar".

(** A native entry of the same name, which the provider finds by name but
    not by its app id. *)
Definition st_bar_native : State := startup (Some provider_bar) STEAM "Bar".

(** A provider that is down, and the startup without an API key. *)
Definition provider_down : SGDB :=
  {| searchGame := fun _ _ => Throw (GatewayError "503");
     getGameBySteamAppId := fun _ _ => Throw (GatewayError "503");
     imagesById := fun _ _ _ _ => Throw (GatewayError "503");
     imagesBySteamAppId := fun _ _ _ => Throw (GatewayError "503") |}.

Definition st_down : State := startup (Some provider_down) STEAM "Foo".

Definition st_no_key : State := startup None STEAM "Foo".

(** A provider with pages without end. *)
Definition provider_endless : SGDB :=
  {| searchGame := fun _ _ => Ok [foo];
     getGameBySteamAppId := fun _ _ => Ok foo;
     imagesById := fun _ _ _ _ => Ok [img1];
     imagesBySteamAppId := fun _ _ _ => Ok [img1] |}.

Definition st_endless : State := startup (Some provider_endless) STEAM "Foo".

(** A download command that succeeds. *)
Definition download_succeeds (history : list Request)
    (imageURL dest : string) : Result bool :=
  Ok true.

Definition download_rejects (history : list Request)
    (imageURL dest : string) : Result bool :=
  Throw (GatewayError "invoke failed").

(** A file system that rejects nothing, one outside the scope that the
    application may access, and the join of POSIX paths as [path.join]
    answers it. *)
Definition fs_accepts (paths : gset string) (dir : string) : option Error :=
  None.

Definition fs_forbidden (paths : gset string) (dir : string) :
    option Error :=
  Some (GatewayError "path not allowed on the configured scope").

Definition path_join (segments : list string) : Result string :=
  Ok (join segments).

Definition no_view : GridsView :=
  {| availableSteamGridGames := [{| label := "None"; data := "None" |}];
     shownPages := 1 |}.

End Examples.

(** * Properties *)

(** The method names of the five categories, and the file name of a URL. *)
Example method_names :
  map (fun type => method_name Examples.value type "sById")
    [CAPSULE; WIDE_CAPSULE; HERO; LOGO; ICON] =
  ["getGridsById"; "getGridsById"; "getHeroesById"; "getLogosById";
   "getIconsById"].
Proof. reflexivity. Qed.

Example fileName_a :
  fileName "https://cdn.example/grid/a.png" = "a.png" /\
  fileName "a.png" = "a.png" /\
  fileName "https://cdn.example/grid/" = "".
Proof. repeat split. Qed.

(** The scenario of a first and a second call for the native game 100. *)
Example fetchGrids_twice :
  let st1 := snd (fetchGrids Examples.value 100 0 None Examples.st0) in
  fst (fetchGrids Examples.value 100 0 None Examples.st0) =
    Ok (Some [Examples.img1]) /\
  requests st1 =
    [SearchGame "Foo"; GetGameBySteamAppId 100; ById "getGridsById" 5 0] /\
  selectedSteamGridGameId st1 = "5" /\
  fst (fetchGrids Examples.value 100 0 None st1) = Ok (Some [Examples.img1]) /\
  requests (snd (fetchGrids Examples.value 100 0 None st1)) = requests st1.
Proof. repeat split. Qed.

Ltac unfold_setters :=
  unfold set_steamGridsCache, set_nonSteamGridsCache,
    set_steamGridSearchCache, set_steamGridSteamAppIdMap,
    set_selectedSteamGridGameId, set_dowloadingGridId, set_files,
    set_requests in *;
  simpl in *.

Section GridResultCache.

Variable value : GridTypes -> string.

Lemma lookup3_insert
    (cache : gmap string (gmap string (gmap string (list SGDBImage))))
    a t p grids types pages a' t' p' :
  (types0 ← <[a := <[t := <[p := grids]> pages]> types]> cache !! a';
   types0 !! t') ≫= (.!! p') =
  if decide (a' = a) then
    if decide (t' = t) then
      if decide (p' = p) then Some grids else pages !! p'
    else types !! t' ≫= (.!! p')
  else (types0 ← cache !! a'; types0 !! t') ≫= (.!! p').
Proof.
  repeat case_decide; simplify_map_eq; done.
Qed.

(** The state after a miss whose request was answered with [grids]. *)
Lemma fetchGridsForNonSteamGame_miss st c appId type page :
  client st = Some c ->
  cachedPage value st appId type page = None ->
  let m := method_name value type "sById" in
  exists cache',
    fetchGridsForNonSteamGame value appId type page st =
      (imagesById c (requests st) m appId page,
       match imagesById c (requests st) m appId page with
       | Ok _ =>
           set_nonSteamGridsCache cache'
             (set_requests (requests st ++ [ById m appId page]) st)
       | Throw _ => set_requests (requests st ++ [ById m appId page]) st
       end) /\
    forall grids, imagesById c (requests st) m appId page = Ok grids ->
      forall a t p,
        (types ← cache' !! a; types !! t) ≫= (.!! p) =
        if decide ((a, t, p) = (pretty appId, value type, pretty page))
        then Some grids else cachedAt st a t p.
Proof.
  intros Hc Hmiss m. unfold cachedPage, cachedAt in Hmiss.
  unfold fetchGridsForNonSteamGame, getById, call, bind, gets; simpl.
  fold m.
  destruct (nonSteamGridsCache st !! pretty appId) as [types|] eqn:Ha;
    simpl in Hmiss.
  - destruct (types !! value type) as [pages|] eqn:Ht; simpl in Hmiss.
    + rewrite Hmiss, Hc.
      destruct (imagesById c (requests st) m appId page) as [grids|e] eqn:Hr.
      * unfold update_nonSteamGridsCache, assign_in, assign, ret; simpl.
        rewrite Ha, Ht. eexists; split; [reflexivity|].
        intros ? [= <-] a t p. unfold cachedAt.
        rewrite lookup3_insert.
        repeat case_decide; simplify_eq; simplify_map_eq; try done.
      * exists ∅; split; [reflexivity | discriminate].
    + rewrite Hc.
      destruct (imagesById c (requests st) m appId page) as [grids|e] eqn:Hr.
      * unfold update_nonSteamGridsCache, assign_in, assign, ret; simpl.
        rewrite Ha; simpl. rewrite lookup_insert_eq; simpl.
        rewrite lookup_insert_eq; simpl.
        eexists; split; [reflexivity|].
        intros ? [= <-] a t p. unfold cachedAt.
        rewrite lookup3_insert.
        repeat case_decide; simplify_eq; simplify_map_eq; try done.
      * exists ∅; split; [reflexivity | discriminate].
  - rewrite Hc.
    destruct (imagesById c (requests st) m appId page) as [grids|e] eqn:Hr.
    + unfold update_nonSteamGridsCache, assign_in, assign, ret; simpl.
      rewrite !lookup_insert_eq; simpl. rewrite !lookup_insert_eq; simpl.
      eexists; split; [reflexivity|].
      intros ? [= <-] a t p. unfold cachedAt.
      rewrite lookup3_insert.
      repeat case_decide; simplify_eq; simplify_map_eq; try done.
    + exists ∅; split; [reflexivity | discriminate].
Qed.

Lemma fetchGridsForNonSteamGame_hit st appId type page grids :
  cachedPage value st appId type page = Some grids ->
  fetchGridsForNonSteamGame value appId type page st = (Ok grids, st).
Proof.
  unfold cachedPage, cachedAt, fetchGridsForNonSteamGame, bind, gets, ret.
  simpl. intros H.
  destruct (nonSteamGridsCache st !! pretty appId) as [types|]; [|done].
  simpl in H. destruct (types !! value type) as [pages|]; [|done].
  simpl in H. by rewrite H.
Qed.

(** C1.  A call of [fetchGridsForNonSteamGame] for a triple that is not in
    the cache issues exactly one request, the by-identity request for that
    game, category and page, and changes nothing but the cache and the
    history of requests.  When the request is answered with a list, the list
    is returned and is cached under the triple, every other triple is
    cached as before, and a repeated call (at once, or in any later state
    that still holds the entry) returns the same list with no request and no
    change of state.  When the request fails, nothing is cached. *)
Theorem fetchGridsForNonSteamGame_fetches_once st c appId type page :
  client st = Some c ->
  cachedPage value st appId type page = None ->
  let m := method_name value type "sById" in
  let response := imagesById c (requests st) m appId page in
  let st1 := snd (fetchGridsForNonSteamGame value appId type page st) in
  fst (fetchGridsForNonSteamGame value appId type page st) = response /\
  requests st1 = requests st ++ [ById m appId page] /\
  set_nonSteamGridsCache (nonSteamGridsCache st) st1 =
    set_requests (requests st ++ [ById m appId page]) st /\
  (forall grids, response = Ok grids ->
     cachedPage value st1 appId type page = Some grids /\
     (forall a t p,
        (a, t, p) ≠ (pretty appId, value type, pretty page) ->
        cachedAt st1 a t p = cachedAt st a t p) /\
     fetchGridsForNonSteamGame value appId type page st1 = (Ok grids, st1) /\
     (forall st2,
        cachedPage value st2 appId type page = Some grids ->
        fetchGridsForNonSteamGame value appId type page st2 =
          (Ok grids, st2))) /\
  (forall e, response = Throw e ->
     nonSteamGridsCache st1 = nonSteamGridsCache st).
Proof.
  intros Hc Hmiss m response st1.
  destruct (fetchGridsForNonSteamGame_miss st c appId type page Hc Hmiss)
    as (cache' & Hrun & Hcache).
  fold m in Hrun, Hcache. fold response in Hrun, Hcache.
  subst st1. rewrite Hrun; simpl.
  split; [done|].
  destruct response as [grids|e] eqn:Hr; simpl.
  - split; [done|]. split; [done|]. split; [|done].
    intros ? [= <-].
    assert (Hnew : cachedPage value
              (set_nonSteamGridsCache cache'
                 (set_requests (requests st ++ [ById m appId page]) st))
              appId type page = Some grids).
    { unfold cachedPage, cachedAt; simpl. rewrite (Hcache grids eq_refl).
      by rewrite decide_True. }
    split; [done|]. split.
    + intros a t p Hne. unfold cachedAt at 1; simpl.
      rewrite (Hcache grids eq_refl). by rewrite decide_False.
    + split; [by apply fetchGridsForNonSteamGame_hit|].
      intros st2. apply fetchGridsForNonSteamGame_hit.
  - split; [done|]. split; [done|]. split; [done|]. done.
Qed.

Lemma fetchGridsForNonSteamGame_no_client st appId type page :
  client st = None ->
  cachedPage value st appId type page = None ->
  fetchGridsForNonSteamGame value appId type page st =
    (Throw (TypeError "this.client is null"), st).
Proof.
  intros Hc. unfold cachedPage, cachedAt.
  unfold fetchGridsForNonSteamGame, getById, call, bind, gets, ret; simpl.
  destruct (nonSteamGridsCache st !! pretty appId) as [types|]; simpl;
    [|by rewrite Hc].
  destruct (types !! value type) as [pages|]; simpl; [|by rewrite Hc].
  intros ->. by rewrite Hc.
Qed.

(** [fetchGridsForNonSteamGame] changes the non-steam cache and the
    history of requests, and nothing else. *)
Lemma fetchGridsForNonSteamGame_frame st appId type page :
  let st' := snd (fetchGridsForNonSteamGame value appId type page st) in
  set_nonSteamGridsCache (nonSteamGridsCache st)
    (set_requests (requests st) st') = st.
Proof.
  destruct (cachedPage value st appId type page) as [grids|] eqn:Hp.
  - rewrite (fetchGridsForNonSteamGame_hit st appId type page grids) by done.
    by destruct st.
  - destruct (client st) as [c|] eqn:Hc.
    + destruct (fetchGridsForNonSteamGame_miss st c appId type page Hc Hp)
        as (cache' & -> & _); simpl.
      destruct (imagesById c _ _ _ _); by destruct st.
    + rewrite fetchGridsForNonSteamGame_no_client by done. by destruct st.
Qed.

End GridResultCache.

(** The first fetch of page 0 of the capsules of game 5 at startup. *)
Lemma fetchGridsForNonSteamGame_fetches_once_witness :
  client Examples.st0 = Some Examples.provider /\
  cachedPage Examples.value Examples.st0 5 CAPSULE 0 = None /\
  requests
    (snd (fetchGridsForNonSteamGame Examples.value 5 CAPSULE 0 Examples.st0)) =
    [ById "getGridsById" 5 0].
Proof.
  split; [reflexivity|]. split; [reflexivity|].
  apply (fetchGridsForNonSteamGame_fetches_once Examples.value Examples.st0
           Examples.provider 5 CAPSULE 0); reflexivity.
Defined.

Section SearchResultCache.

Variable value : GridTypes -> string.

Lemma searches_app h1 h2 :
  searches (h1 ++ h2) = (searches h1 + searches h2)%nat.
Proof. unfold searches. by rewrite filter_app, length_app. Qed.

Lemma searches_snoc_search h gameName :
  searches (h ++ [SearchGame gameName]) = S (searches h).
Proof.
  rewrite searches_app.
  change (searches [SearchGame gameName]) with 1%nat. lia.
Qed.

Lemma getCandidates_hit st appId type results :
  steamGridSearchCache st !! pretty appId = Some results ->
  getCandidates appId type st = (Ok results, st).
Proof.
  intros H. unfold getCandidates, bind, gets, ret; simpl. by rewrite H.
Qed.

Lemma getCandidates_miss st c appId type :
  client st = Some c ->
  steamGridSearchCache st !! pretty appId = None ->
  let gameName := selectedGameName st in
  let st' := set_requests (requests st ++ [SearchGame gameName]) st in
  getCandidates appId type st =
    match searchGame c (requests st) gameName with
    | Ok results =>
        let candidates := map (set_numResultPages 1) results in
        (Ok candidates,
         set_steamGridSearchCache
           (<[pretty appId := candidates]> (steamGridSearchCache st)) st')
    | Throw e => (Throw e, st')
    end.
Proof.
  intros Hc H. unfold getCandidates, bind, gets, call, getNumPages, ret;
    simpl.
  rewrite H, Hc. by destruct (searchGame c _ _).
Qed.

(** The search cache and the number of searches are left alone by the
    rest of [fetchGrids]. *)
Lemma resolveProviderId_searches st appId :
  let st' := snd (resolveProviderId appId st) in
  steamGridSearchCache st' = steamGridSearchCache st /\
  searches (requests st') = searches (requests st).
Proof.
  unfold resolveProviderId, bind, gets, call, modify, ret; simpl.
  destruct (JS.truthy_string _); [done|].
  destruct (client st) as [c|]; [|done]; simpl.
  destruct (getGameBySteamAppId c _ _); simpl;
    by rewrite searches_app, Nat.add_0_r.
Qed.

Lemma fetchGridsForNonSteamGame_searches st appId type page :
  let st' := snd (fetchGridsForNonSteamGame value appId type page st) in
  steamGridSearchCache st' = steamGridSearchCache st /\
  searches (requests st') = searches (requests st).
Proof.
  destruct (cachedPage value st appId type page) as [grids|] eqn:Hp.
  - by rewrite (fetchGridsForNonSteamGame_hit value st appId type page grids).
  - destruct (client st) as [c|] eqn:Hc.
    + destruct (fetchGridsForNonSteamGame_miss value st c appId type page
                  Hc Hp) as (cache' & -> & _); simpl.
      destruct (imagesById c _ _ _ _); simpl;
        by rewrite searches_app, Nat.add_0_r.
    + by rewrite (fetchGridsForNonSteamGame_no_client value).
Qed.

Lemma fetchChoosen_searches st choosenResult type page :
  let st' := snd (fetchChoosen value choosenResult type page st) in
  steamGridSearchCache st' = steamGridSearchCache st /\
  searches (requests st') = searches (requests st).
Proof.
  unfold fetchChoosen. destruct choosenResult as [game|]; [|done].
  destruct (JS.truthy_number (id game)); [|done].
  unfold bind, modify; simpl.
  pose proof (fetchGridsForNonSteamGame_searches
                (set_selectedSteamGridGameId (pretty (id game)) st)
                (id game) type page) as H; simpl in H.
  by destruct (fetchGridsForNonSteamGame _ _ _ _ _) as [[grids|e] st'].
Qed.

(** [fetchGrids], one step at a time. *)
Lemma fetchGrids_run st appId page selected :
  fetchGrids value appId page selected st =
    match currentPlatform st with
    | STEAM =>
        match getCandidates appId (gridType st) st with
        | (Ok results, st1) =>
            match resolveProviderId appId st1 with
            | (Ok gameId, st2) =>
                fetchChoosen value
                  (choosenResult_steam results selected gameId)
                  (gridType st) page st2
            | (Throw e, st2) => (Throw e, st2)
            end
        | (Throw e, st1) => (Throw e, st1)
        end
    | NON_STEAM =>
        match getCandidates appId (gridType st) st with
        | (Ok results, st1) =>
            fetchChoosen value
              (choosenResult_nonSteam results selected (selectedGameName st))
              (gridType st) page st1
        | (Throw e, st1) => (Throw e, st1)
        end
    | OTHER_PLATFORM => (Ok None, st)
    end.
Proof.
  unfold fetchGrids, bind, gets; simpl.
  destruct (currentPlatform st); reflexivity.
Qed.

(** After the candidates are there, [fetchGrids] neither searches nor
    touches the search cache. *)
Lemma fetchGrids_after_candidates st appId page selected results st' :
  currentPlatform st ≠ OTHER_PLATFORM ->
  getCandidates appId (gridType st) st = (Ok results, st') ->
  let st'' := snd (fetchGrids value appId page selected st) in
  steamGridSearchCache st'' = steamGridSearchCache st' /\
  searches (requests st'') = searches (requests st').
Proof.
  intros Hp Hrun. rewrite fetchGrids_run, Hrun.
  destruct (currentPlatform st); [| |done].
  - pose proof (resolveProviderId_searches st' appId) as [H1 H2].
    destruct (resolveProviderId appId st') as [[gameId|e] st2];
      simpl in *; [|done].
    pose proof (fetchChoosen_searches st2
      (choosenResult_steam results selected gameId) (gridType st) page)
      as [H3 H4].
    simpl in *. split; congruence.
  - apply fetchChoosen_searches.
Qed.

Lemma fetchGrids_without_candidates st appId page selected e st' :
  getCandidates appId (gridType st) st = (Throw e, st') ->
  fetchGrids value appId page selected st =
    match currentPlatform st with
    | OTHER_PLATFORM => (Ok None, st)
    | _ => (Throw e, st')
    end.
Proof.
  intros Hrun. rewrite fetchGrids_run, Hrun.
  by destruct (currentPlatform st).
Qed.

(** C2.  The search-cache lookup of [fetchGrids], for a native app id that
    has no entry in the search cache, issues exactly one name search (for
    the selected game's name); when the search is answered, the candidates
    are stored under the id, and a second lookup for the id (at once, or in
    any later state that still holds the entry) returns the same list with
    no request and no change of state.  Seen from [fetchGrids]: a call for
    an id without entry adds exactly one name search to the history, a call
    for an id with an entry adds none and leaves the entry as it is. *)
Theorem getCandidates_searches_once st c appId type :
  client st = Some c ->
  steamGridSearchCache st !! pretty appId = None ->
  let gameName := selectedGameName st in
  let response := searchGame c (requests st) gameName in
  let st1 := snd (getCandidates appId type st) in
  requests st1 = requests st ++ [SearchGame gameName] /\
  (forall results, response = Ok results ->
     let candidates := map (set_numResultPages 1) results in
     fst (getCandidates appId type st) = Ok candidates /\
     steamGridSearchCache st1 =
       <[pretty appId := candidates]> (steamGridSearchCache st) /\
     getCandidates appId type st1 = (Ok candidates, st1) /\
     (forall type' st2,
        steamGridSearchCache st2 !! pretty appId = Some candidates ->
        getCandidates appId type' st2 = (Ok candidates, st2))) /\
  (forall page selected,
     currentPlatform st ≠ OTHER_PLATFORM ->
     searches (requests (snd (fetchGrids value appId page selected st))) =
       S (searches (requests st))) /\
  (forall st2 page selected,
     is_Some (steamGridSearchCache st2 !! pretty appId) ->
     let st3 := snd (fetchGrids value appId page selected st2) in
     searches (requests st3) = searches (requests st2) /\
     steamGridSearchCache st3 !! pretty appId =
       steamGridSearchCache st2 !! pretty appId).
Proof.
  intros Hc Hmiss gameName response st1.
  pose proof (getCandidates_miss st c appId type Hc Hmiss) as Hrun.
  simpl in Hrun. fold gameName in Hrun. fold response in Hrun.
  split; [|split; [|split]].
  - subst st1. rewrite Hrun. by destruct response.
  - intros results Hr candidates. subst st1. rewrite Hrun, Hr; simpl.
    split; [done|]. split; [done|]. split.
    + apply getCandidates_hit; simpl. by rewrite lookup_insert_eq.
    + intros type' st2. apply getCandidates_hit.
  - intros page selected Hp.
    pose proof (getCandidates_miss st c appId (gridType st) Hc Hmiss) as Hg.
    simpl in Hg. fold gameName in Hg. fold response in Hg.
    destruct response as [results|e].
    + destruct (fetchGrids_after_candidates st appId page selected _ _ Hp Hg)
        as [_ ->]; simpl.
      apply searches_snoc_search.
    + rewrite (fetchGrids_without_candidates st appId page selected _ _ Hg).
      destruct (currentPlatform st); simpl; [| |done];
        apply searches_snoc_search.
  - intros st2 page selected [results Hhit] st3. subst st3.
    destruct (decide (currentPlatform st2 = OTHER_PLATFORM)) as [Ho|Hp].
    + unfold fetchGrids, bind, gets; simpl. by rewrite Ho.
    + pose proof (getCandidates_hit st2 appId (gridType st2) results Hhit)
        as Hg.
      destruct (fetchGrids_after_candidates st2 appId page selected _ _ Hp Hg)
        as [-> ->]. done.
Qed.

End SearchResultCache.

(** The first lookup of the candidates of the native game 100 at startup. *)
Lemma getCandidates_searches_once_witness :
  client Examples.st0 = Some Examples.provider /\
  steamGridSearchCache Examples.st0 !! pretty 100%Z = None /\
  requests (snd (getCandidates 100 CAPSULE Examples.st0)) = [SearchGame "Foo"].
Proof.
  split; [reflexivity|]. split; [reflexivity|].
  apply (getCandidates_searches_once Examples.value Examples.st0
           Examples.provider 100 CAPSULE); reflexivity.
Defined.

Section Resolution.

Variable value : GridTypes -> string.

Lemma find_first_with (p : SGDBGame -> bool) (P : SGDBGame -> Prop)
    results game :
  (forall g, p g = true <-> P g) ->
  first_with P results game ->
  find p results = Some game.
Proof.
  intros Hp (before & after & -> & HP & Hbefore).
  induction Hbefore as [|g before Hg _ IH]; simpl.
  - by rewrite (proj2 (Hp game) HP).
  - destruct (p g) eqn:E; [|done]. by apply Hp in E.
Qed.

Lemma find_none_with (p : SGDBGame -> bool) (P : SGDBGame -> Prop) results :
  (forall g, p g = true <-> P g) ->
  Forall (fun g => ~ P g) results ->
  find p results = None.
Proof.
  intros Hp Hnone. induction Hnone as [|g results Hg _ IH]; simpl; [done|].
  destruct (p g) eqn:E; [|done]. by apply Hp in E.
Qed.

Lemma eq_string_spec s o : JS.eq_string s o = true <-> Some s = o.
Proof.
  destruct o as [s'|]; simpl; [|done].
  rewrite String.eqb_eq. split; congruence.
Qed.

Lemma or_first_nonempty results :
  results ≠ [] -> or_first None results = head results.
Proof. by destruct results. Qed.

Lemma fetchChoosen_some st game type page :
  id game ≠ 0%Z ->
  fetchChoosen value (Some game) type page st =
    let st' := set_selectedSteamGridGameId (pretty (id game)) st in
    match fetchGridsForNonSteamGame value (id game) type page st' with
    | (Ok grids, st'') => (Ok (Some grids), st'')
    | (Throw e, st'') => (Throw e, st'')
    end.
Proof.
  intros Hid. unfold fetchChoosen, JS.truthy_number.
  destruct (Z.eqb_spec (id game) 0); [done|]. simpl.
  unfold bind, modify, ret; simpl.
  by destruct (fetchGridsForNonSteamGame _ _ _ _ _) as [[grids|e] st''].
Qed.

(** The choice of lines 314-315 and 338-339.  With candidates [results]
    that are not empty, and for a native entry once the identity resolution
    of lines 306-312 has completed, [fetchGrids]
    continues with a chosen candidate ([fetchChoosen], which for a
    candidate of non-zero identity publishes its identity and fetches its
    page).  The chosen candidate is: with an explicit selection, the first
    candidate of that identity; without one, for a native entry the first
    candidate whose identity is the directly resolved one, else the first
    candidate; for a non-native entry the first candidate whose name is the
    display name, else the first candidate.  The entry ["Bar"] with the
    candidates ["Baz"] (1) and ["Bar"] (2) resolves to candidate 2. *)
Theorem fetchGrids_choice results selected :
  results ≠ [] ->
  let supplied := JS.truthy_string selected = true in
  (* the candidate the call continues with *)
  (forall st appId page st1 gameId st2,
     currentPlatform st = STEAM ->
     getCandidates appId (gridType st) st = (Ok results, st1) ->
     resolveProviderId appId st1 = (Ok gameId, st2) ->
     fetchGrids value appId page selected st =
       fetchChoosen value (choosenResult_steam results selected gameId)
         (gridType st) page st2) /\
  (forall st appId page st1,
     currentPlatform st = NON_STEAM ->
     getCandidates appId (gridType st) st = (Ok results, st1) ->
     fetchGrids value appId page selected st =
       fetchChoosen value
         (choosenResult_nonSteam results selected (selectedGameName st))
         (gridType st) page st1) /\
  (forall st game type page,
     id game ≠ 0%Z ->
     let st' := snd (fetchChoosen value (Some game) type page st) in
     selectedSteamGridGameId st' = pretty (id game) /\
     fetchChoosen value (Some game) type page st =
       match fetchGridsForNonSteamGame value (id game) type page
               (set_selectedSteamGridGameId (pretty (id game)) st) with
       | (Ok grids, st'') => (Ok (Some grids), st'')
       | (Throw e, st'') => (Throw e, st'')
       end) /\
  (* an explicit selection *)
  (forall game gameId gameName,
     supplied ->
     first_with (fun g => Some (pretty (id g)) = selected) results game ->
     choosenResult_steam results selected gameId = Some game /\
     choosenResult_nonSteam results selected gameName = Some game) /\
  (* native entries *)
  (forall game gameId,
     ~ supplied ->
     first_with (has_id gameId) results game ->
     choosenResult_steam results selected gameId = Some game) /\
  (forall gameId,
     ~ supplied ->
     Forall (fun g => ~ has_id gameId g) results ->
     choosenResult_steam results selected gameId = head results) /\
  (* non-native entries *)
  (forall game gameName,
     ~ supplied ->
     first_with (has_name gameName) results game ->
     choosenResult_nonSteam results selected gameName = Some game) /\
  (forall gameName,
     ~ supplied ->
     Forall (fun g => ~ has_name gameName g) results ->
     choosenResult_nonSteam results selected gameName = head results) /\
  (* the scenario *)
  choosenResult_nonSteam [Examples.baz; Examples.bar] None "Bar" =
    Some Examples.bar /\
  selectedSteamGridGameId
    (snd (fetchGrids Examples.value 7 0 None Examples.st_bar)) = "2".
Proof.
  intros Hne supplied.
  assert (Hid : forall s g,
            String.eqb (pretty (id g)) s = true <-> has_id s g)
    by (intros; apply String.eqb_eq).
  assert (Hname : forall s g,
            String.eqb (name g) s = true <-> has_name s g)
    by (intros; apply String.eqb_eq).
  assert (Hsel : forall g,
            JS.eq_string (pretty (id g)) selected = true <->
            Some (pretty (id g)) = selected)
    by (intros; apply eq_string_spec).
  split_and!.
  - intros st appId page st1 gameId st2 Hp Hc Hr.
    by rewrite (fetchGrids_run value), Hp, Hc, Hr.
  - intros st appId page st1 Hp Hc.
    by rewrite (fetchGrids_run value), Hp, Hc.
  - intros st g type page Hg st'. subst st'.
    rewrite (fetchChoosen_some st g type page) by done. simpl.
    split; [|done].
    pose proof (fetchGridsForNonSteamGame_frame value
      (set_selectedSteamGridGameId (pretty (id g)) st) (id g) type page)
      as Hframe. simpl in Hframe.
    destruct (fetchGridsForNonSteamGame _ _ _ _ _) as [[grids|e] st''];
      simpl in *;
      by apply (f_equal selectedSteamGridGameId) in Hframe.
  - intros g gameId gameName Hs Hfirst.
    unfold choosenResult_steam, choosenResult_nonSteam.
    subst supplied. rewrite Hs.
    by rewrite (find_first_with _ _ results g Hsel).
  - intros g gameId Hs Hfirst. unfold choosenResult_steam.
    subst supplied. destruct (JS.truthy_string selected); [done|].
    by rewrite (find_first_with _ _ results g (Hid gameId)).
  - intros gameId Hs Hnone. unfold choosenResult_steam.
    subst supplied. destruct (JS.truthy_string selected); [done|].
    rewrite (find_none_with _ _ results (Hid gameId)) by done.
    by apply or_first_nonempty.
  - intros g gameName Hs Hfirst. unfold choosenResult_nonSteam.
    subst supplied. destruct (JS.truthy_string selected); [done|].
    by rewrite (find_first_with _ _ results g (Hname gameName)).
  - intros gameName Hs Hnone. unfold choosenResult_nonSteam.
    subst supplied. destruct (JS.truthy_string selected); [done|].
    rewrite (find_none_with _ _ results (Hname gameName)) by done.
    by apply or_first_nonempty.
  - reflexivity.
  - reflexivity.
Qed.

End Resolution.

(** C3.  The choice is not reached when the direct lookup of lines 308-309
    raises.  For the native entry ["Bar"], with the candidates ["Baz"] (1)
    and ["Bar"] (2) found by name and a direct lookup that the provider
    answers with an error, [fetchGrids] raises that error and publishes no
    selection, with the explicit selection "2" (for which the resolved
    identity is not even consulted) and without one; the non-native entry
    of the same name, with the same candidates and the same selection, gets
    candidate 2 and its images. *)
Lemma fetchGrids_choice_failing_input :
  currentPlatform Examples.st_bar_native = STEAM /\
  fst (getCandidates 7 CAPSULE Examples.st_bar_native) =
    Ok [set_numResultPages 1 Examples.baz;
        set_numResultPages 1 Examples.bar] /\
  fst (fetchGrids Examples.value 7 0 (Some "2") Examples.st_bar_native) =
    Throw (GatewayError "Game not found") /\
  selectedSteamGridGameId
    (snd (fetchGrids Examples.value 7 0 (Some "2") Examples.st_bar_native)) =
    "None" /\
  fst (fetchGrids Examples.value 7 0 None Examples.st_bar_native) =
    Throw (GatewayError "Game not found") /\
  fst (fetchGrids Examples.value 7 0 (Some "2") Examples.st_bar) =
    Ok (Some [Examples.img2]) /\
  selectedSteamGridGameId
    (snd (fetchGrids Examples.value 7 0 (Some "2") Examples.st_bar)) = "2".
Proof. split_and!; reflexivity. Qed.

(** The candidates ["Baz"] and ["Bar"] with an explicit selection of "2". *)
Lemma fetchGrids_choice_witness :
  [Examples.baz; Examples.bar] ≠ [] /\
  choosenResult_steam [Examples.baz; Examples.bar] (Some "2") "1" =
    Some Examples.bar.
Proof.
  split; [discriminate|].
  pose proof (fetchGrids_choice Examples.value [Examples.baz; Examples.bar]
                (Some "2")) as H.
  destruct H as (_ & _ & _ & H & _); [discriminate|].
  apply (H Examples.bar "1" "Bar"); [reflexivity|].
  exists [Examples.baz], []. split; [reflexivity|]. split; [reflexivity|].
  constructor; [discriminate|constructor].
Defined.

Section Frames.

Variable value : GridTypes -> string.

(** What each step of [fetchGrids] may change. *)
Lemma getCandidates_frame st appId type :
  let st' := snd (getCandidates appId type st) in
  set_steamGridSearchCache (steamGridSearchCache st)
    (set_requests (requests st) st') = st.
Proof.
  destruct (steamGridSearchCache st !! pretty appId) as [results|] eqn:H.
  - rewrite (getCandidates_hit st appId type results H). by destruct st.
  - destruct (client st) as [c|] eqn:Hc.
    + rewrite (getCandidates_miss st c appId type Hc H).
      destruct (searchGame c _ _); by destruct st.
    + unfold getCandidates, bind, gets, call; simpl. rewrite H, Hc.
      simpl. by destruct st.
Qed.

Lemma resolveProviderId_frame st appId :
  let st' := snd (resolveProviderId appId st) in
  set_steamGridSteamAppIdMap (steamGridSteamAppIdMap st)
    (set_requests (requests st) st') = st.
Proof.
  unfold resolveProviderId, bind, gets, call, modify, ret; simpl.
  destruct (JS.truthy_string _); [by destruct st|].
  destruct (client st) as [c|]; [|by destruct st]; simpl.
  destruct (getGameBySteamAppId c _ _); by destruct st.
Qed.

Lemma fetchChoosen_frame st choosenResult type page :
  let st' := snd (fetchChoosen value choosenResult type page st) in
  set_selectedSteamGridGameId (selectedSteamGridGameId st)
    (set_nonSteamGridsCache (nonSteamGridsCache st)
       (set_requests (requests st) st')) = st.
Proof.
  unfold fetchChoosen. destruct choosenResult as [g|]; [|by destruct st].
  destruct (JS.truthy_number (id g)); [|by destruct st].
  unfold bind, modify; simpl.
  pose proof (fetchGridsForNonSteamGame_frame value
                (set_selectedSteamGridGameId (pretty (id g)) st)
                (id g) type page) as H; simpl in H.
  destruct (fetchGridsForNonSteamGame _ _ _ _ _) as [[grids|e] st'];
    simpl in *; destruct st, st'; unfold_setters;
    injection H; intros; by subst.
Qed.

(** Without a chosen candidate nothing happens. *)
Lemma fetchChoosen_none st type page :
  fetchChoosen value None type page st = (Ok (Some []), st).
Proof. reflexivity. Qed.

Lemma choosenResult_steam_nil selected gameId :
  choosenResult_steam [] selected gameId = None.
Proof.
  unfold choosenResult_steam. by destruct (JS.truthy_string selected).
Qed.

Lemma choosenResult_nonSteam_nil selected gameName :
  choosenResult_nonSteam [] selected gameName = None.
Proof.
  unfold choosenResult_nonSteam. by destruct (JS.truthy_string selected).
Qed.

(** The identity map: served from the map, or looked up and stored. *)
Lemma resolveProviderId_lookup st c appId :
  client st = Some c ->
  JS.truthy_string (steamGridSteamAppIdMap st !! pretty appId) = false ->
  let st' := set_requests (requests st ++ [GetGameBySteamAppId appId]) st in
  resolveProviderId appId st =
    match getGameBySteamAppId c (requests st) appId with
    | Ok gameInfo =>
        (Ok (pretty (id gameInfo)),
         set_steamGridSteamAppIdMap
           (<[pretty appId := pretty (id gameInfo)]>
              (steamGridSteamAppIdMap st)) st')
    | Throw e => (Throw e, st')
    end.
Proof.
  intros Hc Hm. unfold resolveProviderId, bind, gets, call, modify, ret.
  simpl. rewrite Hm, Hc. by destruct (getGameBySteamAppId c _ _).
Qed.

(** A page that [fetchGridsForNonSteamGame] returns is in the non-steam
    cache afterwards, and the history of requests only grows. *)
Lemma fetchGridsForNonSteamGame_cached st appId type page grids :
  fst (fetchGridsForNonSteamGame value appId type page st) = Ok grids ->
  cachedPage value
    (snd (fetchGridsForNonSteamGame value appId type page st))
    appId type page = Some grids.
Proof.
  destruct (cachedPage value st appId type page) as [grids'|] eqn:Hp.
  - rewrite (fetchGridsForNonSteamGame_hit value st appId type page grids')
      by done.
    simpl. by intros [= <-].
  - destruct (client st) as [c|] eqn:Hc.
    + destruct (fetchGridsForNonSteamGame_miss value st c appId type page
                  Hc Hp) as (cache' & -> & Hcache); simpl.
      intros Hr. rewrite Hr. unfold cachedPage, cachedAt; simpl.
      rewrite (Hcache grids Hr). by rewrite decide_True.
    + by rewrite (fetchGridsForNonSteamGame_no_client value).
Qed.

Lemma fetchGridsForNonSteamGame_requests st appId type page :
  exists later,
    requests (snd (fetchGridsForNonSteamGame value appId type page st)) =
      requests st ++ later.
Proof.
  destruct (cachedPage value st appId type page) as [grids'|] eqn:Hp.
  - rewrite (fetchGridsForNonSteamGame_hit value st appId type page grids')
      by done.
    exists []. by rewrite app_nil_r.
  - destruct (client st) as [c|] eqn:Hc.
    + destruct (fetchGridsForNonSteamGame_miss value st c appId type page
                  Hc Hp) as (cache' & -> & _); simpl.
      eexists. by destruct (imagesById c _ _ _ _).
    + rewrite (fetchGridsForNonSteamGame_no_client value) by done.
      exists []. by rewrite app_nil_r.
Qed.

Lemma fetchChoosen_requests st choosenResult type page :
  exists later,
    requests (snd (fetchChoosen value choosenResult type page st)) =
      requests st ++ later.
Proof.
  unfold fetchChoosen.
  destruct choosenResult as [g|]; [|exists []; by rewrite app_nil_r].
  destruct (JS.truthy_number (id g)); [|exists []; by rewrite app_nil_r].
  unfold bind, modify; simpl.
  destruct (fetchGridsForNonSteamGame_requests
              (set_selectedSteamGridGameId (pretty (id g)) st)
              (id g) type page) as [later H].
  exists later.
  by destruct (fetchGridsForNonSteamGame _ _ _ _ _) as [[grids|e] st'].
Qed.

End Frames.

Section Orchestrator.

Variable value : GridTypes -> string.

(** What [fetchGrids] does with an empty candidate list: the active
    provider-game identity is left as it was; for a non-native entry the
    result is the empty list; for a native entry the result is the empty
    list when the identity resolution of lines 306-312 completes, and the
    error of the direct lookup when that raises. *)
Theorem fetchGrids_no_candidates st appId page selected st1 :
  getCandidates appId (gridType st) st = (Ok [], st1) ->
  let r := fst (fetchGrids value appId page selected st) in
  let st' := snd (fetchGrids value appId page selected st) in
  selectedSteamGridGameId st' = selectedSteamGridGameId st /\
  (currentPlatform st = NON_STEAM -> r = Ok (Some []) /\ st' = st1) /\
  (currentPlatform st = STEAM ->
     (forall gameId st2,
        resolveProviderId appId st1 = (Ok gameId, st2) ->
        r = Ok (Some []) /\ st' = st2) /\
     (forall e st2,
        resolveProviderId appId st1 = (Throw e, st2) ->
        r = Throw e /\ st' = st2)).
Proof.
  intros Hc r st'. subst r st'. rewrite (fetchGrids_run value), Hc.
  pose proof (f_equal selectedSteamGridGameId
                (getCandidates_frame st appId (gridType st))) as H1.
  rewrite Hc in H1. simpl in H1.
  pose proof (f_equal selectedSteamGridGameId
                (resolveProviderId_frame st1 appId)) as H2.
  simpl in H2.
  destruct (currentPlatform st); simpl.
  - destruct (resolveProviderId appId st1) as [[gameId|e] st2]; simpl in *.
    + rewrite choosenResult_steam_nil; simpl.
      split; [congruence|]. split; [done|]. intros _.
      split; intros ?? [= <- <-]; done.
    + split; [congruence|]. split; [done|]. intros _.
      split; intros ?? [= <- <-]; done.
  - rewrite choosenResult_nonSteam_nil; simpl.
    split; [done|]. split; done.
  - split; [done|]. split; done.
Qed.

(** C10.  In a call of [fetchGrids] for a native entry whose identity is
    not in the identity map, once the candidates are there, the direct
    lookup is requested whatever selection was passed; when it is answered,
    the identity is in the identity map at the end of the call; and with an
    explicit selection the chosen candidate does not depend on the identity
    that was resolved. *)
Theorem fetchGrids_resolves_identity st c appId page selected results st1 :
  currentPlatform st = STEAM ->
  client st = Some c ->
  JS.truthy_string (steamGridSteamAppIdMap st !! pretty appId) = false ->
  getCandidates appId (gridType st) st = (Ok results, st1) ->
  let st' := snd (fetchGrids value appId page selected st) in
  let response := getGameBySteamAppId c (requests st1) appId in
  (exists later,
     requests st' = requests st1 ++ GetGameBySteamAppId appId :: later) /\
  (forall gameInfo,
     response = Ok gameInfo ->
     steamGridSteamAppIdMap st' !! pretty appId =
       Some (pretty (id gameInfo))) /\
  (forall e, response = Throw e ->
     fst (fetchGrids value appId page selected st) = Throw e) /\
  (JS.truthy_string selected = true ->
   forall gameId gameId',
     choosenResult_steam results selected gameId =
     choosenResult_steam results selected gameId').
Proof.
  intros Hp Hc Hm Hg st' response. subst st'.
  rewrite (fetchGrids_run value), Hp, Hg.
  pose proof (getCandidates_frame st appId (gridType st)) as Hf.
  rewrite Hg in Hf. simpl in Hf.
  assert (Hc1 : client st1 = Some c).
  { apply (f_equal client) in Hf. simpl in Hf. congruence. }
  assert (Hm1 : JS.truthy_string
                  (steamGridSteamAppIdMap st1 !! pretty appId) = false).
  { apply (f_equal steamGridSteamAppIdMap) in Hf. simpl in Hf. congruence. }
  rewrite (resolveProviderId_lookup st1 c appId Hc1 Hm1).
  fold response. split_and!.
  - destruct response as [gameInfo|e]; [|by exists []].
    destruct (fetchChoosen_requests value
                (set_steamGridSteamAppIdMap
                   (<[pretty appId := pretty (id gameInfo)]>
                      (steamGridSteamAppIdMap st1))
                   (set_requests
                      (requests st1 ++ [GetGameBySteamAppId appId]) st1))
                (choosenResult_steam results selected
                   (pretty (id gameInfo)))
                (gridType st) page) as [later ->]; simpl.
    exists later. by rewrite <- app_assoc.
  - intros gameInfo ->.
    pose proof (f_equal steamGridSteamAppIdMap
                  (fetchChoosen_frame value
                     (set_steamGridSteamAppIdMap
                        (<[pretty appId := pretty (id gameInfo)]>
                           (steamGridSteamAppIdMap st1))
                        (set_requests
                           (requests st1 ++ [GetGameBySteamAppId appId])
                           st1))
                     (choosenResult_steam results selected
                        (pretty (id gameInfo)))
                     (gridType st) page)) as H.
    simpl in H. rewrite H. by rewrite lookup_insert_eq.
  - by intros e ->.
  - intros Hs gameId gameId'. unfold choosenResult_steam. by rewrite Hs.
Qed.

End Orchestrator.

(** C4.  The empty result is not reached when the direct lookup of lines
    308-309 raises.  For the native game 100, which the provider knows
    neither by name nor by app id, the name search finds no candidate and
    the direct lookup raises: [fetchGrids] raises that error instead of
    returning the empty list of lines 321-323; the selection is left as it
    was.  The non-native entry of the same name gets the empty list. *)
Lemma fetchGrids_no_candidates_failing_input :
  currentPlatform Examples.st_unknown = STEAM /\
  fst (getCandidates 100 CAPSULE Examples.st_unknown) = Ok [] /\
  fst (fetchGrids Examples.value 100 0 None Examples.st_unknown) =
    Throw (GatewayError "Game not found") /\
  selectedSteamGridGameId
    (snd (fetchGrids Examples.value 100 0 None Examples.st_unknown)) =
    selectedSteamGridGameId Examples.st_unknown /\
  fst (fetchGrids Examples.value 100 0 None Examples.st_unknown_nonSteam) =
    Ok (Some []).
Proof. split_and!; reflexivity. Qed.

(** The non-native entry ["Qux"], for which the search finds nothing. *)
Lemma fetchGrids_no_candidates_witness :
  fst (getCandidates 100 CAPSULE Examples.st_unknown_nonSteam) = Ok [] /\
  fst (fetchGrids Examples.value 100 0 None Examples.st_unknown_nonSteam) =
    Ok (Some []).
Proof.
  split; [reflexivity|].
  edestruct (fetchGrids_no_candidates Examples.value
               Examples.st_unknown_nonSteam 100 0 None) as (_ & H & _);
    [reflexivity|].
  apply H. reflexivity.
Defined.

(** The first call for the native game 100 at startup, with the explicit
    selection "5". *)
Lemma fetchGrids_resolves_identity_witness :
  currentPlatform Examples.st0 = STEAM /\
  client Examples.st0 = Some Examples.provider /\
  JS.truthy_string
    (steamGridSteamAppIdMap Examples.st0 !! pretty 100%Z) = false /\
  fst (getCandidates 100 CAPSULE Examples.st0) =
    Ok [set_numResultPages 1 Examples.foo] /\
  steamGridSteamAppIdMap
    (snd (fetchGrids Examples.value 100 0 (Some "5") Examples.st0))
    !! pretty 100%Z = Some "5".
Proof.
  split_and!; [reflexivity ..|].
  edestruct (fetchGrids_resolves_identity Examples.value Examples.st0
               Examples.provider 100 0 (Some "5")) as (_ & H & _);
    [reflexivity ..|].
  apply (H Examples.foo). reflexivity.
Defined.

Section DiskBlobStore.

Variable value : GridTypes -> string.
Variable join : list string -> string.

Lemma lastIndexOf_from_no_slash s i last :
  no_slash s = true -> JS.lastIndexOf_from "/" s i last = last.
Proof.
  revert i last. induction s as [|c s IH]; intros i last; simpl; [done|].
  intros [Hc Hs]%andb_prop. rewrite IH by done.
  by destruct (Ascii.eqb c "/").
Qed.

Lemma lastIndexOf_from_segment prefix base i last :
  no_slash base = true ->
  JS.lastIndexOf_from "/" (prefix +:+ String "/" base) i last =
    (i + Z.of_nat (String.length prefix))%Z.
Proof.
  intros Hb. revert i last.
  induction prefix as [|c prefix IH]; intros i last; simpl.
  - rewrite lastIndexOf_from_no_slash by done. lia.
  - rewrite IH. lia.
Qed.

Lemma drop_segment prefix base :
  JS.drop (S (String.length prefix)) (prefix +:+ String "/" base) = base.
Proof. induction prefix as [|c prefix IH]; simpl; [done|]. apply IH. Qed.

(** Line 128 on a URL that ends with the segment [base]. *)
Lemma fileName_segment prefix base :
  no_slash base = true ->
  fileName (prefix +:+ "/" +:+ base) = base.
Proof.
  intros Hb. unfold fileName, JS.lastIndexOf, JS.substring.
  change (prefix +:+ "/" +:+ base) with (prefix +:+ String "/" base).
  rewrite lastIndexOf_from_segment by done.
  replace (Z.to_nat (0 + Z.of_nat (String.length prefix) + 1))
    with (S (String.length prefix)) by lia.
  apply drop_segment.
Qed.

Lemma fileName_no_slash url : no_slash url = true -> fileName url = url.
Proof.
  intros Hb. unfold fileName, JS.lastIndexOf, JS.substring.
  by rewrite lastIndexOf_from_no_slash.
Qed.

Section Download.

Variable download : list Request -> string -> string -> Result bool.

Lemma getGridImage_run st appId imageURL :
  let path :=
    localImagePath value join (gridCacheDirPath st) (gridType st) imageURL in
  let st1 :=
    set_requests (requests st ++ [DownloadGrid imageURL path])
      (set_dowloadingGridId (Some appId) st) in
  getGridImage value join download appId imageURL st =
    if bool_decide (path ∈ files st) then (Ok path, st)
    else
      match download (requests st) imageURL path with
      | Ok true =>
          (Ok path,
           set_dowloadingGridId None
             (set_files ({[path]} ∪ files st) st1))
      | Ok false => (Ok path, set_dowloadingGridId None st1)
      | Throw e => (Throw e, st1)
      end.
Proof.
  unfold getGridImage, bind, gets, modify, ret, RustInterop_downloadGrid.
  simpl. destruct (bool_decide _); simpl; [done|].
  by destruct (download _ _ _) as [[|]|e].
Qed.

(** C7, amended.  When the derived local file does not exist and the
    download does not succeed, [getGridImage] has requested the download
    and no file exists at the derived path afterwards.  When the download
    call completes and reports the failure ([success] is [false], the
    branch of line 139), the download-in-progress signal is back at its
    idle value [null] and the derived local path is returned: the failure
    is not propagated.  When the download call raises, the error is
    propagated to the caller. *)
Theorem getGridImage_download_failed st appId imageURL :
  let path :=
    localImagePath value join (gridCacheDirPath st) (gridType st) imageURL in
  path ∉ files st ->
  download (requests st) imageURL path ≠ Ok true ->
  let st' := snd (getGridImage value join download appId imageURL st) in
  (path ∉ files st') /\
  requests st' = requests st ++ [DownloadGrid imageURL path] /\
  (download (requests st) imageURL path = Ok false ->
   fst (getGridImage value join download appId imageURL st) = Ok path /\
   dowloadingGridId st' = None) /\
  (forall e,
     download (requests st) imageURL path = Throw e ->
     fst (getGridImage value join download appId imageURL st) = Throw e).
Proof.
  intros path Hfile Hfail st'. subst st'.
  rewrite getGridImage_run. fold path.
  rewrite bool_decide_eq_false_2 by done.
  destruct (download (requests st) imageURL path) as [[|]|e]; [done| |];
    simpl; split_and!; try done.
  by intros e' [= <-].
Qed.

(** A download whose promise is rejected is another matter: the rejection
    reaches the caller and the signal stays at the app id. *)
Lemma getGridImage_download_rejected st appId imageURL e :
  let path :=
    localImagePath value join (gridCacheDirPath st) (gridType st) imageURL in
  path ∉ files st ->
  download (requests st) imageURL path = Throw e ->
  let st' := snd (getGridImage value join download appId imageURL st) in
  fst (getGridImage value join download appId imageURL st) = Throw e /\
  dowloadingGridId st' = Some appId.
Proof.
  intros path Hfile Hfail st'. subst st'.
  rewrite getGridImage_run. fold path.
  rewrite bool_decide_eq_false_2 by done. by rewrite Hfail.
Qed.

(** A file that is there is not downloaded again. *)
Lemma getGridImage_cached st appId imageURL :
  let path :=
    localImagePath value join (gridCacheDirPath st) (gridType st) imageURL in
  path ∈ files st ->
  getGridImage value join download appId imageURL st = (Ok path, st).
Proof.
  intros path Hfile. rewrite getGridImage_run. fold path.
  by rewrite bool_decide_eq_true_2.
Qed.

(** C8.  The path that [getGridImage] returns depends on the cache
    directory, the category and the URL only: it is the join of the
    directory, the category's sub-directory and the final segment of the
    URL, whatever the app id, the files, the history or the outcome of the
    download.  Two URLs with the same final segment, under the same
    category, get the same path. *)
Theorem localImagePath_deterministic :
  (forall st appId imageURL p,
     fst (getGridImage value join download appId imageURL st) = Ok p ->
     p = localImagePath value join (gridCacheDirPath st) (gridType st)
           imageURL) /\
  (forall dir type prefix base,
     no_slash base = true ->
     localImagePath value join dir type (prefix +:+ "/" +:+ base) =
       join [dir; value type; base]) /\
  (forall dir type base,
     no_slash base = true ->
     localImagePath value join dir type base =
       join [dir; value type; base]) /\
  (forall dir type prefix1 prefix2 base,
     no_slash base = true ->
     localImagePath value join dir type (prefix1 +:+ "/" +:+ base) =
     localImagePath value join dir type (prefix2 +:+ "/" +:+ base)).
Proof.
  split_and!.
  - intros st appId imageURL p. rewrite getGridImage_run.
    destruct (bool_decide _); simpl; [congruence|].
    destruct (download _ _ _) as [[|]|e]; simpl; congruence.
  - intros dir type prefix base Hb. unfold localImagePath.
    by rewrite fileName_segment.
  - intros dir type base Hb. unfold localImagePath.
    by rewrite fileName_no_slash.
  - intros dir type prefix1 prefix2 base Hb. unfold localImagePath.
    by rewrite !fileName_segment.
Qed.

End Download.

End DiskBlobStore.

(** The image [a.png], not on disk, with a download that reports its
    failure. *)
Lemma getGridImage_download_failed_witness :
  ("/cache/grids/Capsule/a.png" ∉ files Examples.st0) /\
  Examples.download_fails (requests Examples.st0)
    "https://cdn.example/grid/a.png" "/cache/grids/Capsule/a.png" ≠ Ok true /\
  fst (getGridImage Examples.value Examples.join Examples.download_fails
         100 "https://cdn.example/grid/a.png" Examples.st0) =
    Ok "/cache/grids/Capsule/a.png" /\
  dowloadingGridId
    (snd (getGridImage Examples.value Examples.join Examples.download_fails
            100 "https://cdn.example/grid/a.png" Examples.st0)) = None.
Proof.
  split; [apply not_elem_of_empty|]. split; [discriminate|].
  edestruct (getGridImage_download_failed Examples.value Examples.join
               Examples.download_fails Examples.st0 100
               "https://cdn.example/grid/a.png") as (_ & _ & H & _);
    [apply not_elem_of_empty | discriminate |].
  apply H. reflexivity.
Defined.

(** C7 as stated fails: the image [a.png], not on disk, with a download
    call that raises.  The error reaches the caller, where the claim has the
    derived path returned, and the signal is left at the app id, where the
    claim has it back at its idle value. *)
Lemma getGridImage_download_failed_counterexample :
  ("/cache/grids/Capsule/a.png" ∉ files Examples.st0) /\
  Examples.download_rejects (requests Examples.st0)
    "https://cdn.example/grid/a.png" "/cache/grids/Capsule/a.png" =
    Throw (GatewayError "invoke failed") /\
  fst (getGridImage Examples.value Examples.join Examples.download_rejects
         100 "https://cdn.example/grid/a.png" Examples.st0) =
    Throw (GatewayError "invoke failed") /\
  dowloadingGridId
    (snd (getGridImage Examples.value Examples.join Examples.download_rejects
            100 "https://cdn.example/grid/a.png" Examples.st0)) = Some 100%Z /\
  ~ (fst (getGridImage Examples.value Examples.join Examples.download_rejects
            100 "https://cdn.example/grid/a.png" Examples.st0) =
       Ok "/cache/grids/Capsule/a.png" /\
     dowloadingGridId
       (snd (getGridImage Examples.value Examples.join
               Examples.download_rejects 100
               "https://cdn.example/grid/a.png" Examples.st0)) = None).
Proof.
  split; [apply not_elem_of_empty|].
  split_and!; try reflexivity. by intros [[=] _].
Qed.

(** Two URLs that end in [a.png]. *)
Lemma localImagePath_deterministic_witness :
  no_slash "a.png" = true /\
  localImagePath Examples.value Examples.join "/cache/grids" HERO
    ("https://cdn.example/grid" +:+ "/" +:+ "a.png") =
  localImagePath Examples.value Examples.join "/cache/grids" HERO
    ("https://other.example/thumb" +:+ "/" +:+ "a.png").
Proof.
  split; [reflexivity|].
  apply (localImagePath_deterministic Examples.value Examples.join
           Examples.download_fails).
  reflexivity.
Defined.

Section TwoCaches.

Variable value : GridTypes -> string.

Lemma fetchGridsForSteamGame_frame st appId type :
  let st' := snd (fetchGridsForSteamGame value appId type st) in
  set_steamGridsCache (steamGridsCache st)
    (set_requests (requests st) st') = st.
Proof.
  unfold fetchGridsForSteamGame, call, bind, gets, ret; simpl.
  destruct (steamGridsCache st !! pretty appId) as [types|] eqn:Ha.
  - destruct (types !! value type) as [grids|]; [by destruct st|].
    destruct (client st) as [c|]; [|by destruct st].
    destruct (imagesBySteamAppId c _ _ _); [|by destruct st].
    unfold update_steamGridsCache, assign_in, assign; simpl.
    rewrite Ha. by destruct st.
  - destruct (client st) as [c|]; [|by destruct st].
    destruct (imagesBySteamAppId c _ _ _); [|by destruct st].
    unfold update_steamGridsCache, assign_in, assign; simpl.
    rewrite lookup_insert_eq. by destruct st.
Qed.

(** C9, amended.  There are two grid caches, but [fetchGrids] serves native
    and non-native entries alike from the non-steam one: it leaves
    [steamGridsCache] as it is, and the images it returns for the candidate
    it has chosen are the entry of [nonSteamGridsCache] for that candidate's
    provider identity, the selected category and the page.
    [steamGridsCache], keyed by the native app id, is read and written by
    [fetchGridsForSteamGame] only, which leaves [nonSteamGridsCache] as it
    is. *)
Theorem fetchGrids_uses_nonSteamGridsCache st appId page selected :
  let st' := snd (fetchGrids value appId page selected st) in
  steamGridsCache st' = steamGridsCache st /\
  (forall grids,
     fst (fetchGrids value appId page selected st) = Ok (Some grids) ->
     (grids = [] /\ nonSteamGridsCache st' = nonSteamGridsCache st) \/
     (exists g,
        selectedSteamGridGameId st' = pretty (id g) /\
        cachedPage value st' (id g) (gridType st) page = Some grids)) /\
  (forall appId' type,
     nonSteamGridsCache (snd (fetchGridsForSteamGame value appId' type st)) =
       nonSteamGridsCache st).
Proof.
  intros st'. subst st'.
  assert (Hchoosen : forall st0 choosenResult,
    let st' := snd (fetchChoosen value choosenResult (gridType st) page st0) in
    steamGridsCache st' = steamGridsCache st0 /\
    forall grids,
      fst (fetchChoosen value choosenResult (gridType st) page st0) =
        Ok (Some grids) ->
      (grids = [] /\ nonSteamGridsCache st' = nonSteamGridsCache st0) \/
      (exists g,
         selectedSteamGridGameId st' = pretty (id g) /\
         cachedPage value st' (id g) (gridType st) page = Some grids)).
  { intros st0 choosenResult st'. subst st'. split.
    - pose proof (f_equal steamGridsCache
        (fetchChoosen_frame value st0 choosenResult (gridType st) page))
        as H. by simpl in H.
    - intros grids. unfold fetchChoosen.
      destruct choosenResult as [g|]; simpl; [|intros [= <-]; by left].
      destruct (JS.truthy_number (id g)); simpl; [|intros [= <-]; by left].
      unfold bind, modify; simpl.
      pose proof (fetchGridsForNonSteamGame_cached value
        (set_selectedSteamGridGameId (pretty (id g)) st0) (id g)
        (gridType st) page) as Hcached.
      pose proof (f_equal selectedSteamGridGameId
        (fetchGridsForNonSteamGame_frame value
           (set_selectedSteamGridGameId (pretty (id g)) st0) (id g)
           (gridType st) page)) as Hsel. simpl in Hsel.
      destruct (fetchGridsForNonSteamGame _ _ _ _ _) as [[grids'|e] st''];
        simpl in *; [|done].
      intros [= <-]. right. exists g. split; [done|]. by apply Hcached. }
  split_and!.
  - rewrite (fetchGrids_run value).
    pose proof (f_equal steamGridsCache
      (getCandidates_frame st appId (gridType st))) as H1. simpl in H1.
    destruct (getCandidates appId (gridType st) st) as [[results|e] st1];
      simpl in *; [|by destruct (currentPlatform st)].
    pose proof (f_equal steamGridsCache
      (resolveProviderId_frame st1 appId)) as H2. simpl in H2.
    destruct (currentPlatform st); simpl; [| |done].
    + destruct (resolveProviderId appId st1) as [[gameId|e] st2];
        simpl in *; [|congruence].
      destruct (Hchoosen st2 (choosenResult_steam results selected gameId))
        as [-> _]. congruence.
    + destruct (Hchoosen st1
        (choosenResult_nonSteam results selected (selectedGameName st)))
        as [-> _]. congruence.
  - intros grids. rewrite (fetchGrids_run value).
    pose proof (f_equal nonSteamGridsCache
      (getCandidates_frame st appId (gridType st))) as H1. simpl in H1.
    destruct (getCandidates appId (gridType st) st) as [[results|e] st1];
      simpl in *; [|by destruct (currentPlatform st)].
    pose proof (f_equal nonSteamGridsCache
      (resolveProviderId_frame st1 appId)) as H2. simpl in H2.
    destruct (currentPlatform st); simpl; [| |done].
    + destruct (resolveProviderId appId st1) as [[gameId|e] st2];
        simpl in *; [|done].
      intros Hr.
      destruct (Hchoosen st2 (choosenResult_steam results selected gameId))
        as [_ H]. destruct (H grids Hr) as [[-> Hc]|Hg]; [left|by right].
      split; [done|]. congruence.
    + intros Hr.
      destruct (Hchoosen st1
        (choosenResult_nonSteam results selected (selectedGameName st)))
        as [_ H]. destruct (H grids Hr) as [[-> Hc]|Hg]; [left|by right].
      split; [done|]. congruence.
  - intros appId' type.
    pose proof (f_equal nonSteamGridsCache
      (fetchGridsForSteamGame_frame st appId' type)) as H. by simpl in H.
Qed.

(** C6, amended.  [getNumPages] annotates every candidate of the results
    with the page count 1 and leaves the rest of it, and the state, as they
    are.  The 3 is the page count that [Grids.svelte] falls back to: with
    the annotated candidates in the search cache, the page count shown is 1
    when the active provider game is one of them and 3 when it is not. *)
Theorem getNumPages_placeholder results platform type st :
  exists annotated,
    getNumPages results platform type st = (Ok annotated, st) /\
    Forall2
      (fun g g' =>
         id g' = id g /\ name g' = name g /\
         numResultPages g' = Some 1%Z)
      results annotated /\
    (forall searchCache appId selectedId,
       searchCache !! pretty appId = Some annotated ->
       (Exists (has_id selectedId) results ->
        numPages searchCache appId selectedId = 1%Z) /\
       (Forall (fun g => ~ has_id selectedId g) results ->
        numPages searchCache appId selectedId = 3%Z)).
Proof.
  exists (map (set_numResultPages 1) results). split; [done|]. split.
  - induction results; constructor; done.
  - intros searchCache appId selectedId Hs. unfold numPages. rewrite Hs.
    simpl.
    assert (Hfind :
      find (fun g => String.eqb (pretty (id g)) selectedId)
        (map (set_numResultPages 1) results) =
      set_numResultPages 1 <$>
        find (fun g => String.eqb (pretty (id g)) selectedId) results).
    { clear Hs. induction results as [|g l IH]; simpl; [done|].
      by destruct (String.eqb (pretty (id g)) selectedId). }
    rewrite Hfind. split.
    + intros Hex.
      destruct (find _ results) as [g|] eqn:E; simpl; [done|].
      apply Exists_exists in Hex as (g & Hin & Hg).
      apply list_elem_of_In in Hin.
      apply (find_none _ _ E) in Hin. unfold has_id in Hg.
      apply String.eqb_eq in Hg. congruence.
    + intros Hall.
      destruct (find _ results) as [g|] eqn:E; simpl; [|done].
      apply find_some in E as [Hin Hg]. apply String.eqb_eq in Hg.
      apply list_elem_of_In in Hin.
      rewrite Forall_forall in Hall. by destruct (Hall g Hin).
Qed.

End TwoCaches.

(** The first call for the native game 100 at startup. *)
Lemma fetchGrids_uses_nonSteamGridsCache_witness :
  fst (fetchGrids Examples.value 100 0 None Examples.st0) =
    Ok (Some [Examples.img1]) /\
  steamGridsCache (snd (fetchGrids Examples.value 100 0 None Examples.st0)) =
    steamGridsCache Examples.st0.
Proof.
  split; [reflexivity|].
  apply (fetchGrids_uses_nonSteamGridsCache Examples.value Examples.st0 100 0
           None).
Defined.

(** The candidate ["Foo"] annotated, with and without a matching selection. *)
Lemma getNumPages_placeholder_witness :
  exists annotated,
    getNumPages [Examples.foo] STEAM CAPSULE Examples.st0 =
      (Ok annotated, Examples.st0) /\
    numPages {[ pretty 100%Z := annotated ]} 100 "5" = 1%Z /\
    numPages {[ pretty 100%Z := annotated ]} 100 "None" = 3%Z.
Proof.
  destruct (getNumPages_placeholder [Examples.foo] STEAM CAPSULE Examples.st0)
    as (annotated & Hrun & _ & Hpages).
  exists annotated. split; [done|].
  destruct (Hpages {[ pretty 100%Z := annotated ]} 100%Z "5")
    as [H1 _]; [apply lookup_singleton_eq|].
  destruct (Hpages {[ pretty 100%Z := annotated ]} 100%Z "None")
    as [_ H3]; [apply lookup_singleton_eq|].
  split.
  - apply H1. by constructor.
  - apply H3. constructor; [discriminate|constructor].
Defined.

(** C9 as stated fails: the first call for the native game 100 populates the
    non-steam cache and leaves the steam cache empty. *)
Lemma fetchGrids_native_counterexample :
  currentPlatform Examples.st0 = STEAM /\
  cachedPage Examples.value Examples.st0 5 CAPSULE 0 = None /\
  cachedPage Examples.value
    (snd (fetchGrids Examples.value 100 0 None Examples.st0)) 5 CAPSULE 0 =
    Some [Examples.img1] /\
  steamGridsCache (snd (fetchGrids Examples.value 100 0 None Examples.st0)) =
    ∅.
Proof. split_and!; reflexivity. Qed.

(** C6 as stated fails: the candidate ["Foo"] is annotated with the page
    count 1. *)
Lemma getNumPages_counterexample :
  ~ exists annotated,
      fst (getNumPages [Examples.foo] STEAM CAPSULE Examples.st0) =
        Ok annotated /\
      Forall (fun g => numResultPages g = Some 3%Z) annotated.
Proof.
  intros (annotated & [= <-] & H). by inversion H.
Qed.

Section Pagination.

Variable value : GridTypes -> string.

#[local] Arguments next_walk _ _ : simpl never.

Lemma lookup_map {A B} (f : A -> B) (l : list A) (i : nat) :
  map f l !! i = f <$> (l !! i).
Proof.
  revert i. induction l as [|x l IH]; intros [|i]; simpl; done.
Qed.

Lemma lookupPage_run st appId type page :
  lookupPage value appId type page st =
    (Ok (levelOf (nonSteamGridsCache st !! pretty appId) (value type)
           (pretty page)), st).
Proof.
  unfold lookupPage, levelOf, bind, gets, ret; simpl.
  by repeat case_match.
Qed.

Lemma pageOf_levelOf entry t p :
  pageOf entry t p =
    match levelOf entry t p with
    | Hit grids => Some grids
    | Miss _ => None
    end.
Proof.
  unfold pageOf, levelOf. destruct entry as [types|]; simpl; [|done].
  destruct (types !! t) as [pages|]; simpl; [|done].
  by destruct (pages !! p).
Qed.

(** The method is its two halves with the request in between. *)
Lemma fetchGridsForNonSteamGame_halves st appId type page :
  fetchGridsForNonSteamGame value appId type page st =
    match lookupPage value appId type page st with
    | (Ok (Hit grids), st') => (Ok grids, st')
    | (Ok (Miss at_), st') =>
        match getById value appId type page st' with
        | (Ok grids, st'') =>
            insertPage value appId type page at_ grids st''
        | (Throw e, st'') => (Throw e, st'')
        end
    | (Throw e, st') => (Throw e, st')
    end.
Proof.
  rewrite lookupPage_run.
  unfold fetchGridsForNonSteamGame, levelOf, bind, gets, ret; simpl.
  destruct (nonSteamGridsCache st !! pretty appId) as [types|]; simpl.
  - destruct (types !! value type) as [pages|]; simpl.
    + destruct (pages !! pretty page); simpl; [done|].
      by destruct (getById value appId type page st) as [[grids|e] st''].
    + by destruct (getById value appId type page st) as [[grids|e] st''].
  - by destruct (getById value appId type page st) as [[grids|e] st''].
Qed.

Lemma insertPage_present st appId type page at_ grids :
  level_present (nonSteamGridsCache st !! pretty appId) (value type) at_ ->
  exists entry',
    insertPage value appId type page at_ grids st =
      (Ok grids,
       set_nonSteamGridsCache
         (<[pretty appId := entry']> (nonSteamGridsCache st)) st) /\
    is_Some (entry' !! value type) /\
    forall p l,
      pageOf (Some entry') (value type) p = Some l ->
      (p = pretty page /\ l = grids) \/
      pageOf (nonSteamGridsCache st !! pretty appId) (value type) p = Some l.
Proof.
  unfold level_present, insertPage, pageOf.
  unfold update_nonSteamGridsCache, assign_in, assign, bind, ret.
  destruct at_; simpl.
  - destruct (nonSteamGridsCache st !! pretty appId) as [types|] eqn:Ha;
      simpl; [|by intros [? [=]]].
    destruct (types !! value type) as [pages|] eqn:Ht; [|by intros [? [=]]].
    intros _. eexists; split; [reflexivity|].
    split; [by rewrite lookup_insert_eq|].
    intros p l. rewrite lookup_insert_eq; simpl.
    destruct (decide (p = pretty page)) as [->|Hne].
    + rewrite lookup_insert_eq. intros [= <-]. by left.
    + rewrite lookup_insert_ne by done. by right.
  - destruct (nonSteamGridsCache st !! pretty appId) as [types|] eqn:Ha;
      simpl; [|by intros [? [=]]].
    intros _. rewrite lookup_insert_eq; simpl. rewrite lookup_insert_eq.
    rewrite insert_insert_eq.
    eexists; split; [reflexivity|].
    split; [by rewrite lookup_insert_eq|].
    intros p l. rewrite lookup_insert_eq; simpl.
    destruct (decide (p = pretty page)) as [->|Hne].
    + rewrite lookup_insert_eq. intros [= <-]. by left.
    + rewrite lookup_insert_ne by done. by rewrite lookup_empty.
  - intros _. rewrite !lookup_insert_eq; simpl.
    rewrite !lookup_insert_eq. rewrite !insert_insert_eq.
    eexists; split; [reflexivity|].
    split; [by rewrite lookup_insert_eq|].
    intros p l. rewrite lookup_insert_eq; simpl.
    destruct (decide (p = pretty page)) as [->|Hne].
    + rewrite lookup_insert_eq. intros [= <-]. by left.
    + rewrite lookup_insert_ne by done. by rewrite lookup_empty.
Qed.

Lemma levelOf_present entry t p at_ :
  levelOf entry t p = Miss at_ -> level_present entry t at_.
Proof.
  unfold levelOf, level_present. destruct entry as [types|]; simpl.
  - destruct (types !! t) as [pages|]; simpl.
    + destruct (pages !! p); [done|]. intros [= <-]. by eexists.
    + intros [= <-]. by eexists.
  - by intros [= <-].
Qed.

(** The second half writes under the key of its game only. *)
Lemma insertPage_other st appId type page at_ grids a :
  a ≠ pretty appId ->
  let st' := snd (insertPage value appId type page at_ grids st) in
  nonSteamGridsCache st' !! a = nonSteamGridsCache st !! a /\
  client st' = client st.
Proof.
  intros Ha. unfold insertPage.
  unfold update_nonSteamGridsCache, assign_in, assign, bind, ret.
  destruct at_; simpl;
    repeat (case_match; simplify_eq; simpl);
    rewrite ?lookup_insert_ne by done; done.
Qed.

Lemma next_walk_nonempty n grids :
  grids ≠ [] -> next_walk n (Ok grids) = Calling (n + 1).
Proof. by destruct grids. Qed.

Lemma closure_step_game type c st :
  game (fst (closure_step value type c st)) = game c.
Proof.
  unfold closure_step.
  destruct (walk c) as [n|n at_ [grids|e]|n]; simpl; [| |done..].
  - rewrite lookupPage_run.
    destruct (levelOf _ _ _); simpl; [done|].
    by destruct (getById _ _ _ _ _).
  - by destruct (insertPage _ _ _ _ _ _ _).
Qed.

Lemma closure_step_other type c st a :
  a ≠ pretty (id (game c)) ->
  let st' := snd (closure_step value type c st) in
  nonSteamGridsCache st' !! a = nonSteamGridsCache st !! a /\
  client st' = client st.
Proof.
  intros Ha. unfold closure_step.
  destruct (walk c) as [n|n at_ [grids|e]|n]; simpl; [| |done..].
  - rewrite lookupPage_run.
    destruct (levelOf _ _ _); simpl; [done|].
    unfold getById, call. by destruct (client st) eqn:E.
  - pose proof (insertPage_other st (id (game c)) type n at_ grids a Ha)
      as H. simpl in H.
    by destruct (insertPage _ _ _ _ _ _ _).
Qed.

(** One turn of the loop of lines 258-270, run without interruption, is
    the closure resumed once (on a hit) or twice (on a miss). *)
Lemma closure_step_iteration type c st n :
  walk c = Calling n ->
  let c1 := fst (closure_step value type c st) in
  let st1 := snd (closure_step value type c st) in
  let turn :=
    match walk c1 with
    | Suspended _ _ _ => closure_step value type c1 st1
    | _ => (c1, st1)
    end in
  walk (fst turn) =
    next_walk n (fst (fetchGridsForNonSteamGame value (id (game c)) type n st))
  /\
  snd turn = snd (fetchGridsForNonSteamGame value (id (game c)) type n st).
Proof.
  intros Hw. rewrite fetchGridsForNonSteamGame_halves, lookupPage_run.
  destruct c as [gc w f]; simpl in *; subst w.
  unfold closure_step; simpl. rewrite lookupPage_run.
  destruct (levelOf _ _ _) as [grids|at_]; simpl.
  - by destruct grids.
  - destruct (getById value (id gc) type n st) as [[grids|e] st'']; simpl.
    + by destruct (insertPage _ _ _ _ _ _ _) as [r st3].
    + done.
Qed.

Section Walk.

Variables (type : GridTypes) (sgdb : SGDB) (gameId : Z) (N : nat).

Hypothesis provider_ok : forall p history,
  (0 <= p <= Z.of_nat N)%Z ->
  page_ok N p
    (imagesById sgdb history (method_name value type "sById") gameId p).

(** A resumption of a closure of the game keeps the invariant of the cache
    and of the closure, brings the closure closer to its end, and keeps the
    levels that other closures are about to write through. *)
Lemma closure_step_own st c :
  client st = Some sgdb ->
  id (game c) = gameId ->
  cache_ok N (value type) (nonSteamGridsCache st !! pretty gameId) ->
  walk_inv N (value type) (nonSteamGridsCache st !! pretty gameId) c ->
  let c' := fst (closure_step value type c st) in
  let st' := snd (closure_step value type c st) in
  walk_inv N (value type) (nonSteamGridsCache st' !! pretty gameId) c' /\
  cache_ok N (value type) (nonSteamGridsCache st' !! pretty gameId) /\
  (forall at_,
     level_present (nonSteamGridsCache st !! pretty gameId) (value type) at_ ->
     level_present (nonSteamGridsCache st' !! pretty gameId) (value type) at_)
  /\
  (steps_left N c' <= pred (steps_left N c))%nat /\
  client st' = Some sgdb.
Proof.
  intros Hc Hg Hcache Hinv. destruct c as [gc w f]; simpl in Hg; subst gameId.
  unfold closure_step, walk_inv, steps_left in *; simpl in *.
  destruct w as [n|n at_ [grids|e]|n].
  - destruct Hinv as (Hn & Hf). rewrite lookupPage_run.
    pose proof (pageOf_levelOf (nonSteamGridsCache st !! pretty (id gc))
                  (value type) (pretty n)) as Hpage.
    destruct (levelOf _ _ _) as [grids|at_] eqn:Hl; simpl.
    + destruct (Hcache n grids Hn Hpage) as [Hlt Heq].
      destruct (decide (n < Z.of_nat N)%Z) as [Hn'|Hn'].
      * destruct (Hlt Hn') as (grids' & [= <-] & Hne).
        rewrite next_walk_nonempty by done; simpl.
        split_and!; try lia; done.
      * assert (n = Z.of_nat N) as Hn'' by lia.
        destruct (Heq Hn'') as [[= ->]|[e [=]]]; simpl.
        split_and!; try lia; done.
    + unfold getById, call. rewrite Hc; simpl.
      split_and!; try lia; try done.
      * by apply (levelOf_present _ _ (pretty n)).
      * by apply provider_ok.
  - destruct Hinv as (Hn & Hf & Hlevel & [Hlt Heq]).
    destruct (insertPage_present st (id gc) type n at_ grids Hlevel)
      as (entry' & -> & Htype & Hentry); simpl.
    rewrite lookup_insert_eq.
    assert (Hcache' : cache_ok N (value type) (Some entry')).
    { intros p l Hp Hl. destruct (Hentry _ _ Hl) as [[Hpn ->]|Hold].
      - apply (inj pretty) in Hpn. subst p. by split.
      - by apply (Hcache p l). }
    assert (Hlevels : forall at',
              level_present (Some entry') (value type) at').
    { intros [| |]; simpl; [done|by eexists|done]. }
    destruct (decide (n < Z.of_nat N)%Z) as [Hn'|Hn'].
    + destruct (Hlt Hn') as (grids' & [= <-] & Hne).
      rewrite next_walk_nonempty by done; simpl.
      split_and!; try lia; done.
    + assert (n = Z.of_nat N) as Hn'' by lia.
      destruct (Heq Hn'') as [[= ->]|[e [=]]]; simpl.
      split_and!; try lia; done.
  - destruct Hinv as (Hn & Hf & Hlevel & [Hlt Heq]); simpl.
    destruct (decide (n < Z.of_nat N)%Z) as [Hn'|Hn'].
    + by destruct (Hlt Hn') as (grids' & [=] & _).
    + split_and!; try lia; done.
  - simpl. split_and!; try lia; try done; tauto.
Qed.

Lemma walk_inv_levels entry entry' c :
  (forall at_,
     level_present entry (value type) at_ ->
     level_present entry' (value type) at_) ->
  walk_inv N (value type) entry c ->
  walk_inv N (value type) entry' c.
Proof.
  intros Hlevels. unfold walk_inv.
  destruct (walk c) as [n|n at_ r|n]; [done| |done].
  intros (Hn & Hf & Hlevel & Hok).
  split; [done|]. split; [done|]. split; [|done]. by apply Hlevels.
Qed.

(** The closures run under any schedule. *)
Lemma resume_inv cfg k :
  pool_inv N (value type) sgdb gameId cfg ->
  pool_inv N (value type) sgdb gameId (resume value type cfg k) /\
  length (snd (resume value type cfg k)) = length (snd cfg) /\
  forall i c,
    snd cfg !! i = Some c ->
    id (game c) = gameId ->
    exists c',
      snd (resume value type cfg k) !! i = Some c' /\
      game c' = game c /\
      (steps_left N c' <=
         steps_left N c - (if decide (k = i) then 1 else 0))%nat.
Proof.
  destruct cfg as [st cs]. intros (Hc & Hcache & Hall).
  simpl in *. unfold resume; simpl.
  destruct (cs !! k) as [ck|] eqn:Hk; simpl.
  - pose proof (closure_step_game type ck st) as Hgame.
    destruct (decide (id (game ck) = gameId)) as [Hid|Hid].
    + destruct (closure_step_own st ck Hc Hid Hcache (Hall k ck Hk Hid))
        as (Hinv' & Hcache' & Hlevels & Hm & Hc').
      destruct (closure_step value type ck st) as [ck' st']; simpl in *.
      split; [|split; [by rewrite length_insert|]].
      * split_and!; simpl; [done..|].
        intros j cj Hj Hidj.
        destruct (decide (j = k)) as [->|Hjk].
        -- rewrite list_lookup_insert_eq in Hj by (by eapply lookup_lt_Some).
           by simplify_eq.
        -- rewrite list_lookup_insert_ne in Hj by done.
           by apply (walk_inv_levels _ _ _ Hlevels), (Hall j cj).
      * intros i c Hi Hidc. destruct (decide (k = i)) as [->|Hki].
        -- assert (ck = c) as -> by congruence.
           exists ck'. rewrite list_lookup_insert_eq
             by (by eapply lookup_lt_Some).
           split; [done|]. split; [done|lia].
        -- exists c. rewrite list_lookup_insert_ne by done.
           split; [done|]. split; [done|lia].
    + assert (Hkey : pretty gameId ≠ pretty (id (game ck))).
      { intros Heq%(inj pretty). congruence. }
      destruct (closure_step_other type ck st (pretty gameId) Hkey)
        as [Hentry Hclient].
      destruct (closure_step value type ck st) as [ck' st']; simpl in *.
      split; [|split; [by rewrite length_insert|]].
      * split_and!; simpl; [congruence|by rewrite Hentry|].
        intros j cj Hj Hidj. rewrite Hentry.
        destruct (decide (j = k)) as [->|Hjk].
        -- rewrite list_lookup_insert_eq in Hj by (by eapply lookup_lt_Some).
           simplify_eq. congruence.
        -- rewrite list_lookup_insert_ne in Hj by done.
           by apply (Hall j cj).
      * intros i c Hi Hidc. destruct (decide (k = i)) as [->|Hki];
          [congruence|].
        exists c. rewrite list_lookup_insert_ne by done.
        split; [done|]. split; [done|lia].
  - split; [done|]. split; [done|].
    intros i c Hi Hidc. exists c. split; [done|]. split; [done|].
    case_decide; [congruence|lia].
Qed.

Lemma run_closures_inv schedule : forall cfg,
  pool_inv N (value type) sgdb gameId cfg ->
  pool_inv N (value type) sgdb gameId (run_closures value type schedule cfg)
  /\
  length (snd (run_closures value type schedule cfg)) = length (snd cfg) /\
  forall i c,
    snd cfg !! i = Some c ->
    id (game c) = gameId ->
    exists c',
      snd (run_closures value type schedule cfg) !! i = Some c' /\
      game c' = game c /\
      (steps_left N c' <=
         steps_left N c - count_occ Nat.eq_dec schedule i)%nat.
Proof.
  induction schedule as [|k schedule IH]; intros cfg Hinv; simpl.
  - split; [done|]. split; [done|].
    intros i c Hi Hid. exists c. split; [done|]. split; [done|lia].
  - destruct (resume_inv cfg k Hinv) as (Hinv1 & Hl1 & Hstep1).
    destruct (IH (resume value type cfg k) Hinv1) as (Hinv2 & Hl2 & Hstep2).
    split; [done|]. split; [congruence|].
    intros i c Hi Hid.
    destruct (Hstep1 i c Hi Hid) as (c1 & Hi1 & Hg1 & Hm1).
    destruct (Hstep2 i c1 Hi1) as (c2 & Hi2 & Hg2 & Hm2); [congruence|].
    exists c2. split; [done|]. split; [congruence|].
    destruct (Nat.eq_dec k i), (decide (k = i)); try done; lia.
Qed.

End Walk.

Lemma run_closures_length type schedule : forall cfg,
  length (snd (run_closures value type schedule cfg)) = length (snd cfg).
Proof.
  induction schedule as [|k schedule IH]; intros cfg; simpl; [done|].
  change (fold_left (resume value type) schedule (resume value type cfg k))
    with (run_closures value type schedule (resume value type cfg k)).
  rewrite IH. unfold resume.
  destruct (snd cfg !! k) as [c|]; [|done].
  destruct (closure_step value type c (fst cfg)) as [c' st']; simpl.
  by rewrite length_insert.
Qed.

(** The closure of a candidate with N non-empty pages ends, under any
    schedule that resumes it often enough. *)
Lemma closure_finishes st sgdb results i g (N : nat) schedule type :
  client st = Some sgdb ->
  results !! i = Some g ->
  (forall p r,
     (0 <= p < Z.of_nat N)%Z ->
     served value st sgdb (id g) type p r -> nonempty_page r) ->
  (forall r,
     served value st sgdb (id g) type (Z.of_nat N) r -> last_page r) ->
  (2 * (N + 1) <= count_occ Nat.eq_dec schedule i)%nat ->
  let closures :=
    snd (run_closures value type schedule (st, map start_closure results)) in
  closures !! i =
    Some {| game := g; walk := Finished (Z.of_nat N); fetches := S N |} /\
  length closures = length results.
Proof.
  intros Hc Hi Hnonempty Hlast Hcount closures.
  assert (Hserved : forall p r,
    (0 <= p <= Z.of_nat N)%Z ->
    served value st sgdb (id g) type p r -> page_ok N p r).
  { intros p r Hp Hserved. split.
    - intros Hlt. apply (Hnonempty p r); [lia|done].
    - intros ->. by apply Hlast. }
  assert (Hprovider : forall p history,
    (0 <= p <= Z.of_nat N)%Z ->
    page_ok N p
      (imagesById sgdb history (method_name value type "sById") (id g) p)).
  { intros p history Hp. apply Hserved; [done|]. right. by eexists. }
  assert (Hstart : pool_inv N (value type) sgdb (id g)
                     (st, map start_closure results)).
  { split_and!; simpl; [done| |].
    - intros p grids Hp Hpage. apply Hserved; [done|]. left. by eexists.
    - intros j cj Hj _. rewrite lookup_map in Hj.
      destruct (results !! j) as [g'|] eqn:Hg'; simpl in Hj; simplify_eq.
      unfold walk_inv; simpl. split; [lia|done]. }
  destruct (run_closures_inv type sgdb (id g) N Hprovider schedule _ Hstart)
    as ((_ & _ & Hall) & Hlen & Hsteps).
  destruct (Hsteps i (start_closure g)) as (c' & Hi' & Hg' & Hm);
    [simpl; rewrite lookup_map; by rewrite Hi|done|].
  pose proof (Hall i c' Hi') as Hinv'.
  simpl in *. rewrite length_map in Hlen. split; [|done].
  subst closures. rewrite Hi'. f_equal.
  destruct c' as [g' w f]; simpl in *; subst g'.
  unfold walk_inv, steps_left in *; simpl in *.
  specialize (Hinv' eq_refl).
  destruct w as [n|n at_ r|n]; [lia|lia|].
  destruct Hinv' as [-> ->]. done.
Qed.


(** When every candidate has its number of pages and is resumed often
    enough, [cacheAllGridsForGame] returns, with every candidate annotated. *)
Lemma cacheAllGridsForGame_returns st sgdb results (pages : nat -> nat)
    schedule platform type :
  client st = Some sgdb ->
  (forall i g,
     results !! i = Some g ->
     (forall p r,
        (0 <= p < Z.of_nat (pages i))%Z ->
        served value st sgdb (id g) type p r -> nonempty_page r) /\
     (forall r,
        served value st sgdb (id g) type (Z.of_nat (pages i)) r ->
        last_page r) /\
     (2 * (pages i + 1) <= count_occ Nat.eq_dec schedule i)%nat) ->
  exists annotated,
    fst (cacheAllGridsForGame value schedule results platform type st) =
      Some annotated /\
    length annotated = length results /\
    forall i g,
      results !! i = Some g ->
      annotated !! i = Some (set_numResultPages (Z.of_nat (pages i)) g).
Proof.
  intros Hc Hall.
  assert (Hclosures : forall i g,
    results !! i = Some g ->
    snd (run_closures value type schedule (st, map start_closure results))
      !! i =
      Some {| game := g; walk := Finished (Z.of_nat (pages i));
              fetches := S (pages i) |} /\
    length (snd (run_closures value type schedule
                   (st, map start_closure results))) = length results).
  { intros i g Hi. destruct (Hall i g Hi) as (H1 & H2 & H3).
    by apply closure_finishes with (sgdb := sgdb). }
  unfold cacheAllGridsForGame.
  destruct (run_closures value type schedule (st, map start_closure results))
    as [st' closures] eqn:Hrun. simpl in Hclosures.
  assert (Hlen : length closures = length results).
  { pose proof (run_closures_length type schedule
                  (st, map start_closure results)) as Hlen.
    rewrite Hrun in Hlen. simpl in Hlen. by rewrite length_map in Hlen. }
  assert (Hfin : forallb finished closures = true).
  { apply forallb_forall. intros c Hin.
    apply list_elem_of_In, list_elem_of_lookup in Hin as [i Hi].
    assert (is_Some (results !! i)) as [g Hg].
    { apply lookup_lt_is_Some. rewrite <- Hlen. by eapply lookup_lt_Some. }
    destruct (Hclosures i g Hg) as [Hc' _]. by simplify_eq. }
  rewrite Hfin. simpl. eexists; split; [done|].
  split; [by rewrite length_map|].
  intros i g Hi. rewrite lookup_map.
  destruct (Hclosures i g Hi) as [-> _]. done.
Qed.

End Pagination.


(** * Further properties of the controller *)

Section SteamGridsCache.

Variable value : GridTypes -> string.

Lemma fetchGridsForSteamGame_hit st appId type grids :
  (types ← steamGridsCache st !! pretty appId; types !! value type) =
    Some grids ->
  fetchGridsForSteamGame value appId type st = (Ok grids, st).
Proof.
  unfold fetchGridsForSteamGame, bind, gets, ret; simpl.
  destruct (steamGridsCache st !! pretty appId) as [types|]; simpl; [|done].
  by intros ->.
Qed.

Lemma fetchGridsForSteamGame_miss st c appId type :
  client st = Some c ->
  (types ← steamGridsCache st !! pretty appId; types !! value type) = None ->
  let m := method_name value type "sBySteamAppId" in
  let st' := set_requests (requests st ++ [BySteamAppId m appId]) st in
  fetchGridsForSteamGame value appId type st =
    match imagesBySteamAppId c (requests st) m appId with
    | Ok grids =>
        (Ok grids,
         set_steamGridsCache
           (<[pretty appId :=
                <[value type := grids]>
                  (default ∅ (steamGridsCache st !! pretty appId))]>
              (steamGridsCache st)) st')
    | Throw e => (Throw e, st')
    end.
Proof.
  intros Hc Hmiss m.
  unfold fetchGridsForSteamGame, call, bind, gets, ret; simpl. fold m.
  destruct (steamGridsCache st !! pretty appId) as [types|] eqn:Ha;
    simpl in Hmiss.
  - rewrite Hmiss, Hc.
    destruct (imagesBySteamAppId c (requests st) m appId); [|done].
    unfold update_steamGridsCache, assign_in, assign; simpl. by rewrite Ha.
  - rewrite Hc.
    destruct (imagesBySteamAppId c (requests st) m appId); [|done].
    unfold update_steamGridsCache, assign_in, assign; simpl.
    rewrite lookup_insert_eq; simpl. by rewrite insert_insert_eq.
Qed.

(** X1.  [fetchGridsForSteamGame], for a native app id and a category that
    are not in the steam cache, issues exactly one by-app-id request and
    changes nothing but the steam cache and the history; an answered request
    is cached under the pair with every other pair kept, and a repeated call
    returns the cached list without a request; a failed request caches
    nothing. *)
Theorem fetchGridsForSteamGame_fetches_once st c appId type :
  client st = Some c ->
  (types ← steamGridsCache st !! pretty appId; types !! value type) = None ->
  let m := method_name value type "sBySteamAppId" in
  let response := imagesBySteamAppId c (requests st) m appId in
  let st1 := snd (fetchGridsForSteamGame value appId type st) in
  fst (fetchGridsForSteamGame value appId type st) = response /\
  requests st1 = requests st ++ [BySteamAppId m appId] /\
  set_steamGridsCache (steamGridsCache st) st1 =
    set_requests (requests st ++ [BySteamAppId m appId]) st /\
  (forall grids, response = Ok grids ->
     (types ← steamGridsCache st1 !! pretty appId; types !! value type) =
       Some grids /\
     (forall a t,
        (a, t) ≠ (pretty appId, value type) ->
        (types ← steamGridsCache st1 !! a; types !! t) =
        (types ← steamGridsCache st !! a; types !! t)) /\
     (forall st2,
        (types ← steamGridsCache st2 !! pretty appId; types !! value type) =
          Some grids ->
        fetchGridsForSteamGame value appId type st2 = (Ok grids, st2))) /\
  (forall e, response = Throw e -> steamGridsCache st1 = steamGridsCache st).
Proof.
  intros Hc Hmiss m response st1. subst st1.
  rewrite (fetchGridsForSteamGame_miss st c appId type Hc Hmiss).
  fold m. fold response. destruct response as [grids|e]; simpl.
  - split; [done|]. split; [done|]. split; [by destruct st|].
    split; [|discriminate]. intros ? [= <-].
    split; [rewrite lookup_insert_eq; simpl; by rewrite lookup_insert_eq|].
    split.
    + intros a t Hne.
      destruct (decide (a = pretty appId)) as [->|Ha'].
      * rewrite lookup_insert_eq; simpl.
        rewrite lookup_insert_ne by congruence.
        by destruct (steamGridsCache st !! pretty appId).
      * by rewrite lookup_insert_ne.
    + intros st2. apply fetchGridsForSteamGame_hit.
  - split; [done|]. split; [done|]. split; [by destruct st|].
    split; [discriminate|done].
Qed.

End SteamGridsCache.

(** The heroes of the native game 100, not cached at startup. *)
Lemma fetchGridsForSteamGame_fetches_once_witness :
  client Examples.st0 = Some Examples.provider /\
  fst (fetchGridsForSteamGame Examples.value 100 HERO Examples.st0) =
    Ok [Examples.img1] /\
  requests (snd (fetchGridsForSteamGame Examples.value 100 HERO Examples.st0)) =
    [BySteamAppId "getHeroesBySteamAppId" 100].
Proof.
  split; [reflexivity|].
  pose proof (fetchGridsForSteamGame_fetches_once Examples.value Examples.st0
                Examples.provider 100 HERO eq_refl eq_refl) as (H1 & H2 & _).
  split; [exact H1|exact H2].
Defined.

Section Printing.

(** [n.toString()] is never the empty string and never ["None"]. *)
Lemma pretty_N_go_length x s :
  (String.length s <= String.length (pretty_N_go x s))%nat.
Proof.
  revert s. induction (N.lt_wf_0 x) as [x _ IH]; intros s.
  assert (x = 0 \/ 0 < x)%N as [->|Hx] by lia.
  - by rewrite pretty_N_go_0.
  - rewrite pretty_N_go_step by done.
    etrans; [|apply IH; by apply N.div_lt]. simpl. lia.
Qed.

Lemma pretty_N_go_ne_N x s s' :
  s ≠ String "N" s' -> pretty_N_go x s ≠ String "N" s'.
Proof.
  revert s. induction (N.lt_wf_0 x) as [x _ IH]; intros s Hs.
  assert (x = 0 \/ 0 < x)%N as [->|Hx] by lia.
  - by rewrite pretty_N_go_0.
  - rewrite pretty_N_go_step by done. apply IH.
    { by apply N.div_lt. }
    unfold pretty_N_char. by repeat case_match.
Qed.

Lemma pretty_positive_nonempty (x : positive) : pretty x ≠ "".
Proof.
  unfold pretty, pretty_positive, pretty, pretty_N.
  rewrite decide_False by done.
  rewrite pretty_N_go_step by lia.
  intros H. pose proof (pretty_N_go_length (N.pos x `div` 10)
    (String (pretty_N_char (N.pos x `mod` 10)) "")) as Hlen.
  rewrite H in Hlen. simpl in Hlen. lia.
Qed.

Lemma pretty_Z_nonempty (x : Z) : pretty x ≠ "".
Proof.
  destruct x as [|x|x]; [done|apply pretty_positive_nonempty|done].
Qed.

Lemma pretty_Z_ne_None (x : Z) : pretty x ≠ "None".
Proof.
  destruct x as [|x|x]; [done| |done].
  unfold pretty, pretty_Z, pretty, pretty_positive, pretty, pretty_N.
  rewrite decide_False by done. by apply pretty_N_go_ne_N.
Qed.

End Printing.

Section Calls.

Variable value : GridTypes -> string.

Lemma outside_caches_refl st : outside_caches st st.
Proof. by repeat split. Qed.

Lemma outside_caches_trans st1 st2 st3 :
  outside_caches st1 st2 -> outside_caches st2 st3 -> outside_caches st1 st3.
Proof.
  unfold outside_caches. intros (?&?&?&?&?&?&?&?) (?&?&?&?&?&?&?&?).
  split_and!; congruence.
Qed.

Lemma getCandidates_outside st appId type :
  outside_caches st (snd (getCandidates appId type st)) /\
  steamGridSteamAppIdMap (snd (getCandidates appId type st)) =
    steamGridSteamAppIdMap st /\
  selectedSteamGridGameId (snd (getCandidates appId type st)) =
    selectedSteamGridGameId st /\
  nonSteamGridsCache (snd (getCandidates appId type st)) =
    nonSteamGridsCache st.
Proof.
  pose proof (getCandidates_frame st appId type) as H. simpl in H.
  destruct (getCandidates appId type st) as [r st']; simpl in *.
  destruct st, st'. unfold_setters. injection H; intros; subst.
  by repeat split.
Qed.

Lemma resolveProviderId_outside st appId :
  outside_caches st (snd (resolveProviderId appId st)) /\
  steamGridSearchCache (snd (resolveProviderId appId st)) =
    steamGridSearchCache st /\
  selectedSteamGridGameId (snd (resolveProviderId appId st)) =
    selectedSteamGridGameId st /\
  nonSteamGridsCache (snd (resolveProviderId appId st)) =
    nonSteamGridsCache st.
Proof.
  pose proof (resolveProviderId_frame st appId) as H. simpl in H.
  destruct (resolveProviderId appId st) as [r st']; simpl in *.
  destruct st, st'. unfold_setters. injection H; intros; subst.
  by repeat split.
Qed.

Lemma fetchChoosen_outside st choosenResult type page :
  outside_caches st (snd (fetchChoosen value choosenResult type page st)) /\
  steamGridSearchCache (snd (fetchChoosen value choosenResult type page st)) =
    steamGridSearchCache st /\
  steamGridSteamAppIdMap
    (snd (fetchChoosen value choosenResult type page st)) =
    steamGridSteamAppIdMap st.
Proof.
  pose proof (fetchChoosen_frame value st choosenResult type page) as H.
  simpl in H.
  destruct (fetchChoosen value choosenResult type page st) as [r st'];
    simpl in *.
  destruct st, st'. unfold_setters. injection H; intros; subst.
  by repeat split.
Qed.

(** The requests of each step. *)
Lemma getCandidates_shape st appId type :
  requests (snd (getCandidates appId type st)) = requests st \/
  requests (snd (getCandidates appId type st)) =
    requests st ++ [SearchGame (selectedGameName st)].
Proof.
  unfold getCandidates, bind, gets, call, getNumPages, modify, ret; simpl.
  destruct (steamGridSearchCache st !! pretty appId); [by left|].
  destruct (client st) as [c|]; [|by left].
  destruct (searchGame c _ _); by right.
Qed.

Lemma resolveProviderId_shape st appId :
  requests (snd (resolveProviderId appId st)) = requests st \/
  requests (snd (resolveProviderId appId st)) =
    requests st ++ [GetGameBySteamAppId appId].
Proof.
  unfold resolveProviderId, bind, gets, call, modify, ret; simpl.
  destruct (JS.truthy_string _); [by left|].
  destruct (client st) as [c|]; [|by left].
  destruct (getGameBySteamAppId c _ _); by right.
Qed.

Lemma fetchGridsForNonSteamGame_shape st appId type page :
  requests (snd (fetchGridsForNonSteamGame value appId type page st)) =
    requests st \/
  requests (snd (fetchGridsForNonSteamGame value appId type page st)) =
    requests st ++ [ById (method_name value type "sById") appId page].
Proof.
  destruct (cachedPage value st appId type page) as [grids|] eqn:Hp.
  - rewrite (fetchGridsForNonSteamGame_hit value st appId type page grids)
      by done. by left.
  - destruct (client st) as [c|] eqn:Hc.
    + destruct (fetchGridsForNonSteamGame_miss value st c appId type page
                  Hc Hp) as (cache' & -> & _); simpl.
      right. by destruct (imagesById c _ _ _ _).
    + rewrite (fetchGridsForNonSteamGame_no_client value) by done. by left.
Qed.

Lemma fetchChoosen_shape st choosenResult type page :
  requests (snd (fetchChoosen value choosenResult type page st)) =
    requests st \/
  exists gameId,
    requests (snd (fetchChoosen value choosenResult type page st)) =
      requests st ++ [ById (method_name value type "sById") gameId page].
Proof.
  unfold fetchChoosen. destruct choosenResult as [g|]; [|by left].
  destruct (JS.truthy_number (id g)); [|by left].
  unfold bind, modify; simpl.
  pose proof (fetchGridsForNonSteamGame_shape
                (set_selectedSteamGridGameId (pretty (id g)) st)
                (id g) type page) as H. simpl in H.
  destruct (fetchGridsForNonSteamGame _ _ _ _ _) as [[grids|e] st'];
    simpl in *; (destruct H as [H|H]; [by left|right; by exists (id g)]).
Qed.

End Calls.

Section FetchGrids.

Variable value : GridTypes -> string.

Lemma getCandidates_stored st appId type results st' :
  getCandidates appId type st = (Ok results, st') ->
  steamGridSearchCache st' !! pretty appId = Some results.
Proof.
  destruct (steamGridSearchCache st !! pretty appId) as [cached|] eqn:H.
  - rewrite (getCandidates_hit st appId type cached H). by intros [= <- <-].
  - destruct (client st) as [c|] eqn:Hc.
    + rewrite (getCandidates_miss st c appId type Hc H).
      destruct (searchGame c _ _); [|done].
      intros [= <- <-]. simpl. by rewrite lookup_insert_eq.
    + unfold getCandidates, bind, gets, call; simpl. by rewrite H, Hc.
Qed.

Lemma resolveProviderId_stored st appId gameId st' :
  resolveProviderId appId st = (Ok gameId, st') ->
  JS.truthy_string (steamGridSteamAppIdMap st' !! pretty appId) = true /\
  default "" (steamGridSteamAppIdMap st' !! pretty appId) = gameId.
Proof.
  unfold resolveProviderId, bind, gets, call, modify, ret; simpl.
  destruct (JS.truthy_string (steamGridSteamAppIdMap st !! pretty appId))
    eqn:Ht.
  - by intros [= <- <-].
  - destruct (client st) as [c|]; [|done].
    destruct (getGameBySteamAppId c _ _) as [gameInfo|e]; [|done].
    intros [= <- <-]. simpl. rewrite lookup_insert_eq. simpl.
    split; [|done].
    destruct (String.eqb_spec (pretty (id gameInfo)) ""); [|done].
    by destruct (pretty_Z_nonempty (id gameInfo)).
Qed.

Lemma resolveProviderId_cached st appId :
  JS.truthy_string (steamGridSteamAppIdMap st !! pretty appId) = true ->
  resolveProviderId appId st =
    (Ok (default "" (steamGridSteamAppIdMap st !! pretty appId)), st).
Proof.
  intros H. unfold resolveProviderId, bind, gets, ret; simpl. by rewrite H.
Qed.

Lemma set_selectedSteamGridGameId_same st :
  set_selectedSteamGridGameId (selectedSteamGridGameId st) st = st.
Proof. by destruct st. Qed.

Lemma fetchChoosen_repeat st choosenResult type page r :
  fst (fetchChoosen value choosenResult type page st) = Ok r ->
  fetchChoosen value choosenResult type page
    (snd (fetchChoosen value choosenResult type page st)) =
    (Ok r, snd (fetchChoosen value choosenResult type page st)).
Proof.
  unfold fetchChoosen. destruct choosenResult as [g|]; [|by intros [= <-]].
  destruct (JS.truthy_number (id g)); [|by intros [= <-]].
  unfold bind, modify, ret; simpl.
  pose proof (fetchGridsForNonSteamGame_cached value
    (set_selectedSteamGridGameId (pretty (id g)) st) (id g) type page)
    as Hcached.
  pose proof (f_equal selectedSteamGridGameId
    (fetchGridsForNonSteamGame_frame value
       (set_selectedSteamGridGameId (pretty (id g)) st) (id g) type page))
    as Hsel. simpl in Hsel.
  destruct (fetchGridsForNonSteamGame _ _ _ _ _) as [[grids|e] st'];
    simpl in *; [|done].
  intros [= <-]. rewrite <- Hsel, set_selectedSteamGridGameId_same.
  by rewrite (fetchGridsForNonSteamGame_hit value st' (id g) type page grids)
    by auto.
Qed.

(** X2.  A call of [fetchGrids] that has returned is repeatable: the same
    call in the state it has left returns the same result, issues no request
    and changes nothing. *)
Theorem fetchGrids_repeat st appId page selected r :
  fst (fetchGrids value appId page selected st) = Ok r ->
  let st1 := snd (fetchGrids value appId page selected st) in
  fetchGrids value appId page selected st1 = (Ok r, st1).
Proof.
  intros Hr st1. subst st1. revert Hr.
  rewrite (fetchGrids_run value st).
  destruct (currentPlatform st) eqn:Hp.
  - destruct (getCandidates appId (gridType st) st) as [[results|e] sta]
      eqn:Hg; [|done].
    destruct (resolveProviderId appId sta) as [[gameId|e] stb] eqn:Hi;
      [|done].
    intros Hr.
    pose proof (fetchChoosen_repeat stb _ _ _ _ Hr) as Hrep.
    destruct (fetchChoosen_outside value stb
                (choosenResult_steam results selected gameId)
                (gridType st) page) as ((_&_&Ht&Hpl&Hn&_) & Hsc & Him).
    destruct (resolveProviderId_outside sta appId)
      as ((_&_&Ht2&Hpl2&Hn2&_) & Hsc2 & _).
    destruct (getCandidates_outside st appId (gridType st))
      as ((_&_&Ht3&Hpl3&Hn3&_) & _).
    rewrite Hg in Ht3, Hpl3, Hn3. rewrite Hi in Ht2, Hpl2, Hn2, Hsc2.
    simpl in *.
    destruct (resolveProviderId_stored sta appId gameId stb Hi)
      as [Htruthy Hdef].
    pose proof (getCandidates_stored st appId _ _ _ Hg) as Hstored.
    set (st1 := snd (fetchChoosen value
                       (choosenResult_steam results selected gameId)
                       (gridType st) page stb)) in *.
    rewrite (fetchGrids_run value st1).
    replace (currentPlatform st1) with STEAM by congruence.
    replace (gridType st1) with (gridType st) by congruence.
    rewrite (getCandidates_hit st1 appId (gridType st) results)
      by congruence.
    rewrite (resolveProviderId_cached st1 appId) by congruence.
    rewrite Him, Hdef. exact Hrep.
  - destruct (getCandidates appId (gridType st) st) as [[results|e] sta]
      eqn:Hg; [|done].
    intros Hr.
    pose proof (fetchChoosen_repeat sta _ _ _ _ Hr) as Hrep.
    destruct (fetchChoosen_outside value sta
                (choosenResult_nonSteam results selected (selectedGameName st))
                (gridType st) page) as ((_&_&Ht&Hpl&Hn&_) & Hsc & Him).
    destruct (getCandidates_outside st appId (gridType st))
      as ((_&_&Ht3&Hpl3&Hn3&_) & _).
    rewrite Hg in Ht3, Hpl3, Hn3. simpl in *.
    pose proof (getCandidates_stored st appId _ _ _ Hg) as Hstored.
    set (st1 := snd (fetchChoosen value
                       (choosenResult_nonSteam results selected
                          (selectedGameName st))
                       (gridType st) page sta)) in *.
    rewrite (fetchGrids_run value st1).
    replace (currentPlatform st1) with NON_STEAM by congruence.
    replace (gridType st1) with (gridType st) by congruence.
    replace (selectedGameName st1) with (selectedGameName st) by congruence.
    rewrite (getCandidates_hit st1 appId (gridType st) results)
      by congruence.
    exact Hrep.
  - intros [= <-]. simpl. rewrite (fetchGrids_run value st). by rewrite Hp.
Qed.

End FetchGrids.

(** The call for the native game 100 at startup, and again. *)
Lemma fetchGrids_repeat_witness :
  fst (fetchGrids Examples.value 100 0 None Examples.st0) =
    Ok (Some [Examples.img1]) /\
  fst (fetchGrids Examples.value 100 0 None
         (snd (fetchGrids Examples.value 100 0 None Examples.st0))) =
    Ok (Some [Examples.img1]).
Proof.
  split; [reflexivity|].
  rewrite (fetchGrids_repeat Examples.value Examples.st0 100 0 None
             (Some [Examples.img1]) eq_refl).
  reflexivity.
Defined.

Section FetchGridsRequests.

Variable value : GridTypes -> string.

(** X3.  A call of [fetchGrids] adds at most three requests to the history,
    in this order: the name search for the selected game's name, the direct
    lookup of the app id (for a native entry only), and the by-identity
    request for the requested page of one game in the selected category. *)
Theorem fetchGrids_requests st appId page selected :
  exists s l f,
    requests (snd (fetchGrids value appId page selected st)) =
      requests st ++ s ++ l ++ f /\
    (s = [] \/ s = [SearchGame (selectedGameName st)]) /\
    (l = [] \/
     currentPlatform st = STEAM /\ l = [GetGameBySteamAppId appId]) /\
    (f = [] \/
     exists gameId,
       f = [ById (method_name value (gridType st) "sById") gameId page]).
Proof.
  rewrite (fetchGrids_run value st).
  assert (Hs : exists s,
            requests (snd (getCandidates appId (gridType st) st)) =
              requests st ++ s /\
            (s = [] \/ s = [SearchGame (selectedGameName st)])).
  { destruct (getCandidates_shape st appId (gridType st)) as [->| ->];
      [exists []; rewrite app_nil_r|eexists]; eauto. }
  assert (Hl : forall sta, exists l,
            requests (snd (resolveProviderId appId sta)) = requests sta ++ l /\
            (l = [] \/ l = [GetGameBySteamAppId appId])).
  { intros sta. destruct (resolveProviderId_shape sta appId) as [->| ->];
      [exists []; rewrite app_nil_r|eexists]; eauto. }
  assert (Hf : forall sta ch, exists f,
            requests (snd (fetchChoosen value ch (gridType st) page sta)) =
              requests sta ++ f /\
            (f = [] \/
             exists gameId,
               f = [ById (method_name value (gridType st) "sById") gameId
                      page])).
  { intros sta ch.
    destruct (fetchChoosen_shape value sta ch (gridType st) page)
      as [->|[g ->]]; [exists []; rewrite app_nil_r|eexists]; eauto. }
  destruct Hs as (s & Hs & Hs').
  destruct (currentPlatform st) eqn:Hp.
  - destruct (getCandidates appId (gridType st) st) as [[results|e] sta];
      simpl in *.
    + destruct (Hl sta) as (l & Hl1 & Hl2).
      destruct (resolveProviderId appId sta) as [[gameId|e] stb]; simpl in *.
      * destruct (Hf stb (choosenResult_steam results selected gameId))
          as (f & Hf1 & Hf2).
        exists s, l, f. rewrite Hf1, Hl1, Hs, <- !app_assoc.
        split_and!; try done. destruct Hl2; eauto.
      * exists s, l, []. rewrite Hl1, Hs, <- !app_assoc, app_nil_r.
        split_and!; eauto. destruct Hl2; eauto.
    + exists s, [], []. rewrite Hs. simpl. rewrite app_nil_r.
      split_and!; eauto.
  - destruct (getCandidates appId (gridType st) st) as [[results|e] sta];
      simpl in *.
    + destruct (Hf sta
        (choosenResult_nonSteam results selected (selectedGameName st)))
        as (f & Hf1 & Hf2).
      exists s, [], f. rewrite Hf1, Hs, <- !app_assoc. simpl.
      split_and!; eauto.
    + exists s, [], []. rewrite Hs. simpl. rewrite app_nil_r.
      split_and!; eauto.
  - exists [], [], []. simpl. rewrite app_nil_r. split_and!; eauto.
Qed.

(** X4.  [fetchGrids] leaves alone the steam cache, the download signal, the
    selected category, platform and game name, the controller's cache
    directory and client, and the files; for an entry that is not native it
    leaves the identity map alone as well. *)
Theorem fetchGrids_frame st appId page selected :
  let st' := snd (fetchGrids value appId page selected st) in
  outside_caches st st' /\
  (currentPlatform st ≠ STEAM ->
   steamGridSteamAppIdMap st' = steamGridSteamAppIdMap st).
Proof.
  intros st'. subst st'. rewrite (fetchGrids_run value st).
  destruct (getCandidates_outside st appId (gridType st)) as (Ho1 & Hm1 & _).
  destruct (currentPlatform st) eqn:Hp.
  - destruct (getCandidates appId (gridType st) st) as [[results|e] sta];
      simpl in *; [|done].
    destruct (resolveProviderId_outside sta appId) as (Ho2 & _).
    destruct (resolveProviderId appId sta) as [[gameId|e] stb]; simpl in *.
    + destruct (fetchChoosen_outside value stb
        (choosenResult_steam results selected gameId) (gridType st) page)
        as (Ho3 & _).
      split; [|done].
      eapply outside_caches_trans; [|exact Ho3].
      eapply outside_caches_trans; [exact Ho1|exact Ho2].
    + split; [|done]. eapply outside_caches_trans; [exact Ho1|exact Ho2].
  - destruct (getCandidates appId (gridType st) st) as [[results|e] sta];
      simpl in *; [|done].
    destruct (fetchChoosen_outside value sta
      (choosenResult_nonSteam results selected (selectedGameName st))
      (gridType st) page) as (Ho3 & _ & Hm3).
    split; [|intros _; congruence].
    eapply outside_caches_trans; [exact Ho1|exact Ho3].
  - simpl. split; [apply outside_caches_refl|done].
Qed.

(** X5.  A name search that fails is not cached: [fetchGrids] raises the
    error of the search, has changed nothing but the history of requests,
    and the search cache still has no entry for the app id, so that the next
    call searches again. *)
Theorem fetchGrids_search_failed st c appId page selected e :
  currentPlatform st ≠ OTHER_PLATFORM ->
  client st = Some c ->
  steamGridSearchCache st !! pretty appId = None ->
  searchGame c (requests st) (selectedGameName st) = Throw e ->
  let st' := set_requests (requests st ++ [SearchGame (selectedGameName st)])
               st in
  fetchGrids value appId page selected st = (Throw e, st') /\
  steamGridSearchCache st' !! pretty appId = None /\
  forall page' selected',
    searches (requests (snd (fetchGrids value appId page' selected' st'))) =
      S (searches (requests st')).
Proof.
  intros Hp Hc Hmiss He st'.
  pose proof (getCandidates_miss st c appId (gridType st) Hc Hmiss) as Hg.
  simpl in Hg. rewrite He in Hg.
  split; [|split; [done|]].
  - rewrite (fetchGrids_without_candidates value st appId page selected _ _ Hg).
    by destruct (currentPlatform st).
  - intros page' selected'.
    pose proof (getCandidates_miss st' c appId (gridType st') Hc Hmiss) as Hg'.
    simpl in Hg'.
    destruct (searchGame c (requests st ++ [SearchGame (selectedGameName st)])
                (selectedGameName st)) as [results|e'].
    + destruct (fetchGrids_after_candidates value st' appId page' selected'
                  _ _ Hp Hg') as [_ ->].
      simpl. apply searches_snoc_search.
    + rewrite (fetchGrids_without_candidates value st' appId page' selected'
                 _ _ Hg').
      replace (currentPlatform st') with (currentPlatform st) by done.
      destruct (currentPlatform st); simpl; [| |done];
        apply searches_snoc_search.
Qed.

(** X6.  Without a client (no API key), [fetchGrids] issues no request; for
    an app id that has no candidates in the search cache it raises a
    [TypeError] and changes nothing. *)
Theorem fetchGrids_no_client st appId page selected :
  client st = None ->
  requests (snd (fetchGrids value appId page selected st)) = requests st /\
  (currentPlatform st ≠ OTHER_PLATFORM ->
   steamGridSearchCache st !! pretty appId = None ->
   fetchGrids value appId page selected st =
     (Throw (TypeError "this.client is null"), st)).
Proof.
  intros Hc. split.
  - destruct (fetchGrids_requests st appId page selected)
      as (s & l & f & Hreq & _).
    rewrite (fetchGrids_run value st) in *.
    assert (Hcand : requests (snd (getCandidates appId (gridType st) st)) =
                    requests st /\
                    client (snd (getCandidates appId (gridType st) st)) = None).
    { unfold getCandidates, bind, gets, call; simpl.
      destruct (steamGridSearchCache st !! pretty appId); [done|].
      by rewrite Hc. }
    assert (Hch : forall st0 ch,
              client st0 = None ->
              requests (snd (fetchChoosen value ch (gridType st) page st0)) =
                requests st0).
    { intros st0 ch Hc0. unfold fetchChoosen.
      destruct ch as [g|]; [|done].
      destruct (JS.truthy_number (id g)); [|done].
      unfold bind, modify; simpl.
      destruct (cachedPage value
                  (set_selectedSteamGridGameId (pretty (id g)) st0)
                  (id g) (gridType st) page) as [grids|] eqn:Hpage.
      - by rewrite (fetchGridsForNonSteamGame_hit value _ _ _ _ grids).
      - by rewrite (fetchGridsForNonSteamGame_no_client value). }
    destruct (currentPlatform st); [| |done].
    + destruct (getCandidates appId (gridType st) st) as [[results|e] sta];
        simpl in *; [|tauto].
      destruct Hcand as [Hr1 Hc1].
      assert (Hres : requests (snd (resolveProviderId appId sta)) =
                     requests sta /\
                     client (snd (resolveProviderId appId sta)) = None).
      { unfold resolveProviderId, bind, gets, call; simpl.
        destruct (JS.truthy_string _); [done|]. by rewrite Hc1. }
      destruct (resolveProviderId appId sta) as [[gameId|e] stb];
        simpl in *; [|by rewrite (proj1 Hres)].
      destruct Hres as [Hr2 Hc2]. rewrite Hch by done. congruence.
    + destruct (getCandidates appId (gridType st) st) as [[results|e] sta];
        simpl in *; [|tauto].
      destruct Hcand as [Hr1 Hc1]. rewrite Hch by done. congruence.
  - intros Hp Hmiss.
    assert (Hg : getCandidates appId (gridType st) st =
                 (Throw (TypeError "this.client is null"), st)).
    { unfold getCandidates, bind, gets, call; simpl. by rewrite Hmiss, Hc. }
    rewrite (fetchGrids_without_candidates value st appId page selected _ _ Hg).
    by destruct (currentPlatform st).
Qed.

End FetchGridsRequests.

(** The provider is down at the first call for the native game 100. *)
Lemma fetchGrids_search_failed_witness :
  currentPlatform Examples.st_down ≠ OTHER_PLATFORM /\
  client Examples.st_down = Some Examples.provider_down /\
  fst (fetchGrids Examples.value 100 0 None Examples.st_down) =
    Throw (GatewayError "503").
Proof.
  split; [discriminate|]. split; [reflexivity|].
  pose proof (fetchGrids_search_failed Examples.value Examples.st_down
                Examples.provider_down 100 0 None (GatewayError "503"))
    as H.
  destruct H as [H _]; [discriminate|reflexivity..|].
  by rewrite H.
Defined.

(** The first call for the native game 100 without an API key. *)
Lemma fetchGrids_no_client_witness :
  client Examples.st_no_key = None /\
  requests (snd (fetchGrids Examples.value 100 0 None Examples.st_no_key)) =
    [].
Proof.
  split; [reflexivity|].
  apply (fetchGrids_no_client Examples.value Examples.st_no_key 100 0 None).
  reflexivity.
Defined.

Section Selection.

Variable value : GridTypes -> string.

(** X7.  A selection that is the identity of none of the candidates selects
    the first candidate, for native and non-native entries alike, whatever
    identity was resolved and whatever the name is.  The value ["None"],
    with which the user interface starts, is such a selection. *)
Theorem choosenResult_unmatched results selected gameId gameName :
  JS.truthy_string selected = true ->
  (selected = Some "None" \/
   Forall (fun g => Some (pretty (id g)) ≠ selected) results) ->
  choosenResult_steam results selected gameId = head results /\
  choosenResult_nonSteam results selected gameName = head results.
Proof.
  intros Hs Hnone.
  assert (Hall : Forall (fun g => ~ (Some (pretty (id g)) = selected))
                   results).
  { destruct Hnone as [->|H]; [|done].
    apply Forall_forall. intros g _ [= H].
    by destruct (pretty_Z_ne_None (id g)). }
  assert (Hfind : find (fun g => JS.eq_string (pretty (id g)) selected)
                    results = None).
  { apply (find_none_with _ (fun g => Some (pretty (id g)) = selected));
      [|done].
    intros g. apply eq_string_spec. }
  unfold choosenResult_steam, choosenResult_nonSteam. rewrite Hs, Hfind.
  by destruct results.
Qed.

End Selection.

(** The candidates ["Baz"] and ["Bar"] under the selection ["None"], for a
    native entry whose resolved identity is that of ["Bar"]. *)
Lemma choosenResult_unmatched_witness :
  JS.truthy_string (Some "None") = true /\
  choosenResult_steam [Examples.baz; Examples.bar] (Some "None") "2" =
    Some Examples.baz.
Proof.
  split; [reflexivity|].
  apply (choosenResult_unmatched [Examples.baz; Examples.bar] (Some "None")
           "2" "Bar"); [reflexivity|by left].
Defined.

Section IdentityMap.

Variable value : GridTypes -> string.

Lemma lookups_app h1 h2 :
  lookups (h1 ++ h2) = (lookups h1 + lookups h2)%nat.
Proof. unfold lookups. by rewrite filter_app, length_app. Qed.

Lemma getCandidates_lookups st appId type :
  lookups (requests (snd (getCandidates appId type st))) =
    lookups (requests st).
Proof.
  destruct (getCandidates_shape st appId type) as [->| ->]; [done|].
  rewrite lookups_app.
  change (lookups [SearchGame (selectedGameName st)]) with 0%nat. lia.
Qed.

Lemma fetchChoosen_lookups st choosenResult type page :
  lookups (requests (snd (fetchChoosen value choosenResult type page st))) =
    lookups (requests st).
Proof.
  destruct (fetchChoosen_shape value st choosenResult type page)
    as [->|[g ->]]; [done|].
  rewrite lookups_app.
  change (lookups [ById (method_name value type "sById") g page])
    with 0%nat. lia.
Qed.

(** X8.  The identity of a native app is looked up once: while the identity
    map has no (non-empty) entry for the app id, the resolution of lines
    306-312 issues exactly one direct lookup and stores the identity that is
    answered, a failed lookup storing nothing; once the entry is there, the
    resolution returns it without a request, and a call of [fetchGrids] adds
    no direct lookup and keeps the entry. *)
Theorem resolveProviderId_once st c appId :
  client st = Some c ->
  JS.truthy_string (steamGridSteamAppIdMap st !! pretty appId) = false ->
  let response := getGameBySteamAppId c (requests st) appId in
  let st1 := snd (resolveProviderId appId st) in
  requests st1 = requests st ++ [GetGameBySteamAppId appId] /\
  (forall gameInfo, response = Ok gameInfo ->
     fst (resolveProviderId appId st) = Ok (pretty (id gameInfo)) /\
     steamGridSteamAppIdMap st1 =
       <[pretty appId := pretty (id gameInfo)]> (steamGridSteamAppIdMap st) /\
     forall st2,
       steamGridSteamAppIdMap st2 !! pretty appId =
         Some (pretty (id gameInfo)) ->
       resolveProviderId appId st2 = (Ok (pretty (id gameInfo)), st2) /\
       forall page selected,
         let st3 := snd (fetchGrids value appId page selected st2) in
         lookups (requests st3) = lookups (requests st2) /\
         steamGridSteamAppIdMap st3 !! pretty appId =
           Some (pretty (id gameInfo))) /\
  (forall e, response = Throw e ->
     fst (resolveProviderId appId st) = Throw e /\
     steamGridSteamAppIdMap st1 = steamGridSteamAppIdMap st).
Proof.
  intros Hc Hm response st1. subst st1.
  rewrite (resolveProviderId_lookup st c appId Hc Hm). fold response.
  destruct response as [gameInfo|e]; simpl.
  - split; [done|]. split; [|discriminate].
    intros ? [= <-]. split; [done|]. split; [done|].
    intros st2 Hentry.
    assert (Htruthy : JS.truthy_string
                        (steamGridSteamAppIdMap st2 !! pretty appId) = true).
    { rewrite Hentry. simpl.
      destruct (String.eqb_spec (pretty (id gameInfo)) ""); [|done].
      by destruct (pretty_Z_nonempty (id gameInfo)). }
    pose proof (resolveProviderId_cached st2 appId Htruthy) as Hres.
    rewrite Hentry in Hres. simpl in Hres.
    split; [done|]. intros page selected.
    rewrite (fetchGrids_run value st2).
    pose proof (getCandidates_lookups st2 appId (gridType st2)) as Hl1.
    destruct (getCandidates_outside st2 appId (gridType st2))
      as (_ & Hm1 & _).
    destruct (currentPlatform st2).
    + destruct (getCandidates appId (gridType st2) st2)
        as [[results|e] sta]; simpl in *; [|by rewrite Hm1].
      assert (Htruthy' : JS.truthy_string
                (steamGridSteamAppIdMap sta !! pretty appId) = true)
        by (by rewrite Hm1).
      rewrite (resolveProviderId_cached sta appId Htruthy').
      rewrite fetchChoosen_lookups.
      destruct (fetchChoosen_outside value sta
        (choosenResult_steam results selected
           (default "" (steamGridSteamAppIdMap sta !! pretty appId)))
        (gridType st2) page) as (_ & _ & ->).
      split; [done|]. by rewrite Hm1.
    + destruct (getCandidates appId (gridType st2) st2)
        as [[results|e] sta]; simpl in *; [|by rewrite Hm1].
      rewrite fetchChoosen_lookups.
      destruct (fetchChoosen_outside value sta
        (choosenResult_nonSteam results selected (selectedGameName st2))
        (gridType st2) page) as (_ & _ & ->).
      split; [done|]. by rewrite Hm1.
    + done.
  - split; [done|]. split; [discriminate|]. by intros ? [= <-].
Qed.

End IdentityMap.

(** The identity of the native game 100, looked up at startup. *)
Lemma resolveProviderId_once_witness :
  client Examples.st0 = Some Examples.provider /\
  JS.truthy_string
    (steamGridSteamAppIdMap Examples.st0 !! pretty 100%Z) = false /\
  requests (snd (resolveProviderId 100 Examples.st0)) =
    [GetGameBySteamAppId 100].
Proof.
  split; [reflexivity|]. split; [reflexivity|].
  apply (resolveProviderId_once Examples.value Examples.st0 Examples.provider
           100); reflexivity.
Defined.

Section PageWalks.

Variable value : GridTypes -> string.

#[local] Arguments next_walk _ _ : simpl never.

Lemma insertPage_frame st appId type page at_ grids :
  set_nonSteamGridsCache (nonSteamGridsCache st)
    (snd (insertPage value appId type page at_ grids st)) = st.
Proof.
  unfold insertPage, update_nonSteamGridsCache, assign_in, assign, bind, ret.
  destruct st; unfold_setters.
  destruct at_; simpl; repeat (case_match; simplify_eq; simpl); done.
Qed.

Lemma closure_step_frame type c st :
  let st' := snd (closure_step value type c st) in
  set_nonSteamGridsCache (nonSteamGridsCache st)
    (set_requests (requests st) st') = st /\
  (requests st' = requests st \/
   exists page,
     requests st' =
       requests st ++
       [ById (method_name value type "sById") (id (game c)) page]).
Proof.
  unfold closure_step.
  destruct (walk c) as [n|n at_ [grids|e]|n]; simpl;
    try (split; [by destruct st|by left]).
  - rewrite lookupPage_run.
    destruct (levelOf _ _ _); simpl; [split; [by destruct st|by left]|].
    unfold getById, call. destruct (client st) eqn:Hc; simpl.
    + split; [by destruct st|]. right. by eexists.
    + split; [by destruct st|by left].
  - pose proof (insertPage_frame st (id (game c)) type n at_ grids) as H.
    assert (Hreq : requests
              (snd (insertPage value (id (game c)) type n at_ grids st)) =
              requests st).
    { apply (f_equal requests) in H. by simpl in H. }
    destruct (insertPage _ _ _ _ _ _ _) as [r st']; simpl in *.
    split; [|by left]. rewrite <- H at 3. rewrite <- Hreq.
    by destruct st'.
Qed.

Lemma run_closures_frame type schedule : forall st cs,
  let st' := fst (run_closures value type schedule (st, cs)) in
  let cs' := snd (run_closures value type schedule (st, cs)) in
  set_nonSteamGridsCache (nonSteamGridsCache st)
    (set_requests (requests st) st') = st /\
  map game cs' = map game cs /\
  (forall a,
     Forall (fun g => pretty (id g) ≠ a) (map game cs) ->
     nonSteamGridsCache st' !! a = nonSteamGridsCache st !! a) /\
  exists later,
    requests st' = requests st ++ later /\
    Forall (fun r =>
              exists g page,
                g ∈ map game cs /\
                r = ById (method_name value type "sById") (id g) page)
      later.
Proof.
  induction schedule as [|k schedule IH]; intros st cs; simpl.
  - split; [by destruct st|]. split; [done|]. split; [done|].
    exists []. by rewrite app_nil_r.
  - change (fold_left (resume value type) schedule
              (resume value type (st, cs) k))
      with (run_closures value type schedule (resume value type (st, cs) k)).
    unfold resume; simpl.
    destruct (cs !! k) as [ck|] eqn:Hk; [|apply IH].
    destruct (closure_step_frame type ck st) as [Hframe Hreq].
    pose proof (closure_step_game value type ck st) as Hgame.
    assert (Hother : forall a,
              a ≠ pretty (id (game ck)) ->
              nonSteamGridsCache (snd (closure_step value type ck st)) !! a =
                nonSteamGridsCache st !! a).
    { intros a Ha. by apply closure_step_other. }
    destruct (closure_step value type ck st) as [ck' st1]; simpl in *.
    destruct (IH st1 (<[k := ck']> cs)) as (Hf & Hg & Ho & later & Hl & Hall).
    assert (Hgames : map game (<[k := ck']> cs) = map game cs).
    { apply list_eq. intros j. rewrite !lookup_map.
      destruct (decide (j = k)) as [->|Hjk].
      - rewrite list_lookup_insert_eq by (by eapply lookup_lt_Some).
        rewrite Hk. simpl. by rewrite Hgame.
      - by rewrite list_lookup_insert_ne. }
    assert (Hin : game ck ∈ map game cs).
    { apply list_elem_of_lookup. exists k. rewrite lookup_map. by rewrite Hk. }
    rewrite Hgames in *.
    split; [|split; [done|split]].
    + set (st' := fst (run_closures value type schedule
                         (st1, <[k := ck']> cs))) in *.
      clearbody st'. destruct st, st1, st'. unfold_setters.
      injection Hf; injection Hframe; intros; by subst.
    + intros a Ha. rewrite Ho by done. apply Hother.
      rewrite Forall_forall in Ha. intros ->. by destruct (Ha _ Hin).
    + destruct Hreq as [Hreq|[page Hreq]].
      * exists later. rewrite Hl, Hreq. done.
      * exists (ById (method_name value type "sById") (id (game ck)) page
                :: later).
        rewrite Hl, Hreq, <- app_assoc. split; [done|].
        constructor; [|done]. by exists (game ck), page.
Qed.

(** X9.  Whatever the schedule, [cacheAllGridsForGame] changes nothing but
    the non-steam cache and the history of requests; in the cache it writes
    under the identities of its candidates only, and its requests are
    by-identity requests for pages of its candidates in the given
    category. *)
Theorem cacheAllGridsForGame_frame st schedule results platform type :
  let st' := snd (cacheAllGridsForGame value schedule results platform type
                    st) in
  set_nonSteamGridsCache (nonSteamGridsCache st)
    (set_requests (requests st) st') = st /\
  (forall a,
     Forall (fun g => pretty (id g) ≠ a) results ->
     nonSteamGridsCache st' !! a = nonSteamGridsCache st !! a) /\
  exists later,
    requests st' = requests st ++ later /\
    Forall (fun r =>
              exists g page,
                g ∈ results /\
                r = ById (method_name value type "sById") (id g) page)
      later.
Proof.
  intros st'. subst st'. unfold cacheAllGridsForGame.
  pose proof (run_closures_frame type schedule st (map start_closure results))
    as H. simpl in H.
  assert (Hgames : map game (map start_closure results) = results).
  { clear. induction results; simpl; [done|]. by f_equal. }
  rewrite Hgames in H.
  destruct (run_closures value type schedule (st, map start_closure results))
    as [st' cs']. simpl in *.
  destruct H as (Hf & _ & Ho & Hl).
  by destruct (forallb finished cs').
Qed.

End PageWalks.

Section EndlessPages.

Variable value : GridTypes -> string.
Variables (type : GridTypes) (sgdb : SGDB) (gameId : Z).

#[local] Arguments next_walk _ _ : simpl never.

Hypothesis provider_endless : forall p history,
  (0 <= p)%Z ->
  nonempty_page
    (imagesById sgdb history (method_name value type "sById") gameId p).

Lemma closure_step_unbounded st c :
  client st = Some sgdb ->
  id (game c) = gameId ->
  cache_nonempty (value type) (nonSteamGridsCache st !! pretty gameId) ->
  walk_inv_unbounded (value type) (nonSteamGridsCache st !! pretty gameId) c ->
  let c' := fst (closure_step value type c st) in
  let st' := snd (closure_step value type c st) in
  walk_inv_unbounded (value type) (nonSteamGridsCache st' !! pretty gameId) c'
  /\
  cache_nonempty (value type) (nonSteamGridsCache st' !! pretty gameId) /\
  (forall at_,
     level_present (nonSteamGridsCache st !! pretty gameId) (value type) at_ ->
     level_present (nonSteamGridsCache st' !! pretty gameId) (value type) at_)
  /\
  client st' = Some sgdb.
Proof.
  intros Hc Hg Hcache Hinv. destruct c as [gc w f]; simpl in Hg; subst gameId.
  unfold closure_step, walk_inv_unbounded in *; simpl in *.
  destruct w as [n|n at_ [grids|e]|n].
  - rewrite lookupPage_run.
    pose proof (pageOf_levelOf (nonSteamGridsCache st !! pretty (id gc))
                  (value type) (pretty n)) as Hpage.
    destruct (levelOf _ _ _) as [grids|at_] eqn:Hl; simpl.
    + rewrite next_walk_nonempty by (by eapply Hcache). simpl.
      split_and!; try lia; done.
    + unfold getById, call. rewrite Hc; simpl.
      split_and!; try lia; try done.
      * by apply (levelOf_present _ _ (pretty n)).
      * by apply provider_endless.
  - destruct Hinv as (Hn & Hlevel & (grids' & [= <-] & Hne)).
    destruct (insertPage_present value st (id gc) type n at_ grids Hlevel)
      as (entry' & -> & Htype & Hentry); simpl.
    rewrite lookup_insert_eq.
    rewrite next_walk_nonempty by done; simpl.
    split_and!; try lia; try done.
    + intros p l Hp Hl. destruct (Hentry _ _ Hl) as [[Hpn ->]|Hold]; [done|].
      by apply (Hcache p l).
    + intros [| |]; simpl; [done|by eexists|done].
  - by destruct Hinv as (_ & _ & (grids' & [=] & _)).
  - done.
Qed.

Lemma resume_unbounded cfg k :
  pool_inv_unbounded (value type) sgdb gameId cfg ->
  pool_inv_unbounded (value type) sgdb gameId (resume value type cfg k).
Proof.
  destruct cfg as [st cs]. intros (Hc & Hcache & Hall).
  simpl in *. unfold resume; simpl.
  destruct (cs !! k) as [ck|] eqn:Hk; simpl; [|done].
  pose proof (closure_step_game value type ck st) as Hgame.
  destruct (decide (id (game ck) = gameId)) as [Hid|Hid].
  - destruct (closure_step_unbounded st ck Hc Hid Hcache (Hall k ck Hk Hid))
      as (Hinv' & Hcache' & Hlevels & Hc').
    destruct (closure_step value type ck st) as [ck' st']; simpl in *.
    split_and!; simpl; [done..|].
    intros j cj Hj Hidj.
    destruct (decide (j = k)) as [->|Hjk].
    + rewrite list_lookup_insert_eq in Hj by (by eapply lookup_lt_Some).
      by simplify_eq.
    + rewrite list_lookup_insert_ne in Hj by done.
      pose proof (Hall j cj Hj Hidj) as Hj'.
      unfold walk_inv_unbounded in *.
      destruct (walk cj) as [n|n at_ r|n]; [done| |done].
      destruct Hj' as (Hn & Hlevel & Hr). split_and!; [done| |done].
      by apply Hlevels.
  - assert (Hkey : pretty gameId ≠ pretty (id (game ck))).
    { intros Heq%(inj pretty). congruence. }
    destruct (closure_step_other value type ck st (pretty gameId) Hkey)
      as [Hentry Hclient].
    destruct (closure_step value type ck st) as [ck' st']; simpl in *.
    split_and!; simpl; [congruence|by rewrite Hentry|].
    intros j cj Hj Hidj. rewrite Hentry.
    destruct (decide (j = k)) as [->|Hjk].
    + rewrite list_lookup_insert_eq in Hj by (by eapply lookup_lt_Some).
      simplify_eq. congruence.
    + rewrite list_lookup_insert_ne in Hj by done.
      by apply (Hall j cj).
Qed.

Lemma run_closures_unbounded schedule : forall cfg,
  pool_inv_unbounded (value type) sgdb gameId cfg ->
  pool_inv_unbounded (value type) sgdb gameId
    (run_closures value type schedule cfg).
Proof.
  induction schedule as [|k schedule IH]; intros cfg Hinv; simpl; [done|].
  by apply IH, resume_unbounded.
Qed.

End EndlessPages.

Section Endless.

Variable value : GridTypes -> string.

(** X10.  When what [fetchGridsForNonSteamGame] can return for a candidate
    is a non-empty list for every page (the provider never answers with an
    empty page and never raises for it), the loop of that candidate has no
    exit: under no schedule, however long, does [cacheAllGridsForGame] get
    to its [return]. *)
Theorem cacheAllGridsForGame_endless st sgdb results i g schedule platform
    type :
  client st = Some sgdb ->
  results !! i = Some g ->
  (forall p r,
     (0 <= p)%Z ->
     served value st sgdb (id g) type p r -> nonempty_page r) ->
  fst (cacheAllGridsForGame value schedule results platform type st) = None.
Proof.
  intros Hc Hi Hserved.
  assert (Hstart : pool_inv_unbounded (value type) sgdb (id g)
                     (st, map start_closure results)).
  { split_and!; simpl; [done| |].
    - intros p grids Hp Hpage.
      destruct (Hserved p (Ok grids) Hp) as (grids' & [= <-] & Hne);
        [|done]. left. by eexists.
    - intros j cj Hj _. rewrite lookup_map in Hj.
      destruct (results !! j) as [g'|] eqn:Hg'; simpl in Hj; simplify_eq.
      unfold walk_inv_unbounded; simpl. lia. }
  assert (Hprovider : forall p history,
    (0 <= p)%Z ->
    nonempty_page
      (imagesById sgdb history (method_name value type "sById") (id g) p)).
  { intros p history Hp. apply (Hserved p); [done|]. right. by eexists. }
  pose proof (run_closures_unbounded value type sgdb (id g) Hprovider schedule
                _ Hstart) as (_ & _ & Hall).
  pose proof (run_closures_frame value type schedule st
                (map start_closure results)) as (_ & Hgames & _).
  pose proof (run_closures_length value type schedule
                (st, map start_closure results)) as Hlen.
  unfold cacheAllGridsForGame.
  destruct (run_closures value type schedule (st, map start_closure results))
    as [st' closures]. simpl in *.
  assert (is_Some (closures !! i)) as [c Hci].
  { apply lookup_lt_is_Some. rewrite Hlen, length_map.
    by eapply lookup_lt_Some. }
  assert (Hgc : game c = g).
  { apply (f_equal (fun l => l !! i)) in Hgames.
    rewrite !lookup_map, Hci, Hi in Hgames. simpl in Hgames. congruence. }
  assert (Hnot : forallb finished closures = false).
  { apply not_true_is_false. intros Hfin.
    rewrite forallb_forall in Hfin.
    assert (Hin : In c closures).
    { apply list_elem_of_In, list_elem_of_lookup. by exists i. }
    specialize (Hfin c Hin).
    specialize (Hall i c Hci (f_equal id Hgc)).
    unfold finished in Hfin. unfold walk_inv_unbounded in Hall.
    by destruct (walk c). }
  by rewrite Hnot.
Qed.

End Endless.

(** A provider with pages without end, under a schedule of nine
    resumptions. *)
Lemma cacheAllGridsForGame_endless_witness :
  client Examples.st_endless = Some Examples.provider_endless /\
  [Examples.foo] !! 0%nat = Some Examples.foo /\
  fst (cacheAllGridsForGame Examples.value [0; 0; 0; 0; 0; 0; 0; 0; 0]%nat
         [Examples.foo] STEAM CAPSULE Examples.st_endless) = None.
Proof.
  split; [reflexivity|]. split; [reflexivity|].
  apply (cacheAllGridsForGame_endless Examples.value Examples.st_endless
           Examples.provider_endless [Examples.foo] 0 Examples.foo).
  - reflexivity.
  - reflexivity.
  - intros p r Hp [(grids & [=] & _)|[history ->]]. simpl. by eexists.
Defined.

Section ImageFiles.

Variable value : GridTypes -> string.
Variable join : list string -> string.
Variable download : list Request -> string -> string -> Result bool.

Lemma last_segment s :
  no_slash s = true \/
  exists prefix base, s = prefix +:+ "/" +:+ base /\ no_slash base = true.
Proof.
  induction s as [|c s IH]; [by left|].
  destruct IH as [Hs|(prefix & base & -> & Hb)].
  - destruct (Ascii.eqb c "/") eqn:Hc.
    + apply Ascii.eqb_eq in Hc as ->. right. by exists "", s.
    + left. simpl. by rewrite Hc.
  - right. by exists (String c prefix), base.
Qed.

(** X11.  The file name of line 128 is the part of the URL after its last
    ["/"]: it has no ["/"] in it, and the URL is the file name itself or
    ends with ["/"] and the file name. *)
Theorem fileName_last_segment url :
  no_slash (fileName url) = true /\
  (url = fileName url \/
   exists prefix, url = prefix +:+ "/" +:+ fileName url).
Proof.
  destruct (last_segment url) as [Hs|(prefix & base & -> & Hb)].
  - rewrite fileName_no_slash by done. split; [done|by left].
  - rewrite fileName_segment by done. split; [done|]. right. by exists prefix.
Qed.

(** X12.  When the derived local file does not exist and the download
    succeeds, [getGridImage] returns the derived path, the file is there
    afterwards and the signal is back at [null]; from then on a call for any
    URL with the same file name, under the same category, returns that path
    without a download and without a change of state. *)
Theorem getGridImage_downloads_once st appId imageURL :
  let path :=
    localImagePath value join (gridCacheDirPath st) (gridType st) imageURL in
  path ∉ files st ->
  download (requests st) imageURL path = Ok true ->
  let st' := snd (getGridImage value join download appId imageURL st) in
  fst (getGridImage value join download appId imageURL st) = Ok path /\
  files st' = {[path]} ∪ files st /\
  dowloadingGridId st' = None /\
  requests st' = requests st ++ [DownloadGrid imageURL path] /\
  forall appId' imageURL',
    fileName imageURL' = fileName imageURL ->
    getGridImage value join download appId' imageURL' st' = (Ok path, st').
Proof.
  intros path Hfile Hok st'. subst st'.
  rewrite getGridImage_run. fold path.
  rewrite bool_decide_eq_false_2 by done. rewrite Hok. simpl.
  split_and!; [done..|].
  intros appId' imageURL' Hname.
  rewrite getGridImage_run. simpl.
  assert (Hpath : localImagePath value join (gridCacheDirPath st)
                    (gridType st) imageURL' = path).
  { unfold path, localImagePath. by rewrite Hname. }
  rewrite Hpath. rewrite bool_decide_eq_true_2; [done|set_solver].
Qed.

(** X13.  A download that does not succeed leaves no file, so that the next
    call for the image requests the download again; when the promise of the
    download is rejected, the rejection reaches the caller and the signal
    stays at the app id. *)
Theorem getGridImage_retries st appId imageURL :
  let path :=
    localImagePath value join (gridCacheDirPath st) (gridType st) imageURL in
  path ∉ files st ->
  download (requests st) imageURL path ≠ Ok true ->
  let st' := snd (getGridImage value join download appId imageURL st) in
  files st' = files st /\
  (forall e,
     download (requests st) imageURL path = Throw e ->
     fst (getGridImage value join download appId imageURL st) = Throw e /\
     dowloadingGridId st' = Some appId) /\
  forall appId',
    requests (snd (getGridImage value join download appId' imageURL st')) =
      requests st ++
      [DownloadGrid imageURL path; DownloadGrid imageURL path].
Proof.
  intros path Hfile Hfail st'. subst st'.
  rewrite getGridImage_run. fold path.
  rewrite bool_decide_eq_false_2 by done.
  destruct (download (requests st) imageURL path) as [[|]|e] eqn:Hd;
    [done| |]; simpl.
  - split; [done|]. split; [done|].
    intros appId'. rewrite getGridImage_run. simpl. fold path.
    rewrite bool_decide_eq_false_2 by done.
    destruct (download (requests st ++ _) _ _) as [[|]|e]; simpl;
      by rewrite <- app_assoc.
  - split; [done|]. split; [by intros e' [= <-]|].
    intros appId'. rewrite getGridImage_run. simpl. fold path.
    rewrite bool_decide_eq_false_2 by done.
    destruct (download (requests st ++ _) _ _) as [[|]|e']; simpl;
      by rewrite <- app_assoc.
Qed.

End ImageFiles.

(** The image [a.png], downloaded once and found by its file name under
    another URL. *)
Lemma getGridImage_downloads_once_witness :
  ("/cache/grids/Capsule/a.png" ∉ files Examples.st0) /\
  getGridImage Examples.value Examples.join Examples.download_succeeds 7
    "https://other.example/thumb/a.png"
    (snd (getGridImage Examples.value Examples.join
            Examples.download_succeeds 100 "https://cdn.example/grid/a.png"
            Examples.st0)) =
    (Ok "/cache/grids/Capsule/a.png",
     snd (getGridImage Examples.value Examples.join
            Examples.download_succeeds 100 "https://cdn.example/grid/a.png"
            Examples.st0)).
Proof.
  split; [apply not_elem_of_empty|].
  apply (getGridImage_downloads_once Examples.value Examples.join
           Examples.download_succeeds Examples.st0 100
           "https://cdn.example/grid/a.png");
    [apply not_elem_of_empty | reflexivity | reflexivity].
Defined.

(** The image [a.png] with a download command that rejects. *)
Lemma getGridImage_retries_witness :
  ("/cache/grids/Capsule/a.png" ∉ files Examples.st0) /\
  files (snd (getGridImage Examples.value Examples.join
                Examples.download_rejects 100
                "https://cdn.example/grid/a.png" Examples.st0)) =
    files Examples.st0.
Proof.
  split; [apply not_elem_of_empty|].
  apply (getGridImage_retries Examples.value Examples.join
           Examples.download_rejects Examples.st0 100
           "https://cdn.example/grid/a.png");
    [apply not_elem_of_empty | discriminate].
Defined.

Section StartupLayout.

Variable value : GridTypes -> string.
Variable appCacheDir : Result string.
Variable path_join : list string -> Result string.
Variable fs_exists_rejects : gset string -> string -> option Error.
Variable fs_createDir_rejects : gset string -> string -> option Error.
Variable new_SGDB : string -> SGDB.









End StartupLayout.

(** The startup with the API key ["key"], in a file system that rejects
    nothing and in one that rejects every call. *)
Example init_startup :
  let st' :=
    snd (init Examples.value (Ok "/cache") Examples.path_join
           Examples.fs_accepts Examples.fs_accepts (fun _ => Examples.provider)
           "key" Examples.st_no_key) in
  fst (init Examples.value (Ok "/cache") Examples.path_join
         Examples.fs_accepts Examples.fs_accepts (fun _ => Examples.provider)
         "key" Examples.st_no_key) = Ok tt /\
  gridCacheDirPath st' = "/cache/grids" /\
  "/cache/grids/Wide Capsule" ∈ files st' /\
  client st' = Some Examples.provider /\
  init Examples.value (Ok "/cache") Examples.path_join
    Examples.fs_forbidden Examples.fs_accepts (fun _ => Examples.provider)
    "key" Examples.st_no_key =
    (Throw (GatewayError "path not allowed on the configured scope"),
     Examples.st_no_key).
Proof.
  split_and!; reflexivity.
Qed.

Section SearchCacheEntries.

Variable value : GridTypes -> string.

Lemma getCandidates_entries st appId type :
  let st' := snd (getCandidates appId type st) in
  steamGridSearchCache st' = steamGridSearchCache st \/
  exists results,
    steamGridSearchCache st !! pretty appId = None /\
    fst (getCandidates appId type st) =
      Ok (map (set_numResultPages 1) results) /\
    steamGridSearchCache st' =
      <[pretty appId := map (set_numResultPages 1) results]>
        (steamGridSearchCache st).
Proof.
  destruct (steamGridSearchCache st !! pretty appId) as [cached|] eqn:H.
  - rewrite (getCandidates_hit st appId type cached H). by left.
  - destruct (client st) as [c|] eqn:Hc.
    + rewrite (getCandidates_miss st c appId type Hc H).
      destruct (searchGame c _ _) as [results|e]; [|by left].
      right. by exists results.
    + unfold getCandidates, bind, gets, call; simpl. rewrite H, Hc.
      by left.
Qed.

Lemma fetchGrids_entries st appId page selected :
  let st' := snd (fetchGrids value appId page selected st) in
  steamGridSearchCache st' = steamGridSearchCache st \/
  exists results,
    steamGridSearchCache st !! pretty appId = None /\
    steamGridSearchCache st' =
      <[pretty appId := map (set_numResultPages 1) results]>
        (steamGridSearchCache st).
Proof.
  cbv zeta.
  destruct (decide (currentPlatform st = OTHER_PLATFORM)) as [Hp|Hp].
  { rewrite fetchGrids_run, Hp. by left. }
  pose proof (getCandidates_entries st appId (gridType st)) as Hentries.
  destruct (getCandidates appId (gridType st) st) as [[results|e] st1]
    eqn:Hrun; simpl in Hentries.
  - destruct (fetchGrids_after_candidates value st appId page selected
                results st1 Hp Hrun) as [-> _].
    destruct Hentries as [?|(r & ? & _ & ?)]; [by left|right; by exists r].
  - rewrite (fetchGrids_without_candidates value st appId page selected e
               st1 Hrun).
    destruct (currentPlatform st); simpl; try by left.
    + destruct Hentries as [?|(r & ? & [=] & ?)]. by left.
    + destruct Hentries as [?|(r & ? & [=] & ?)]. by left.
Qed.

(** X15.  The only change that [fetchGrids] makes to the search cache is to
    add, under an app id that had no entry, the candidates of a search with
    the page count 1 on each; the entries that are there stay as they are. *)
Theorem fetchGrids_search_cache st appId page selected :
  let st' := snd (fetchGrids value appId page selected st) in
  (forall key results,
     steamGridSearchCache st !! key = Some results ->
     steamGridSearchCache st' !! key = Some results) /\
  (forall key results,
     steamGridSearchCache st' !! key = Some results ->
     steamGridSearchCache st !! key = Some results \/
     (key = pretty appId /\
      Forall (fun g => numResultPages g = Some 1%Z) results)).
Proof.
  intros st'. subst st'.
  destruct (fetchGrids_entries st appId page selected)
    as [->|(r & Hnone & ->)]; [by split; [|left]|].
  split.
  - intros key results Hkey. rewrite lookup_insert_ne; [done|].
    intros <-. congruence.
  - intros key results.
    destruct (decide (key = pretty appId)) as [->|Hne].
    + rewrite lookup_insert_eq. intros [= <-]. right. split; [done|].
      apply Forall_forall. intros g Hg.
      apply list_elem_of_fmap in Hg as (g' & -> & _). done.
    + rewrite lookup_insert_ne by done. by left.
Qed.

Lemma fetchGrids_annotated st appId page selected :
  candidates_annotated (steamGridSearchCache st) ->
  candidates_annotated
    (steamGridSearchCache (snd (fetchGrids value appId page selected st))).
Proof.
  intros Hinv.
  destruct (fetchGrids_entries st appId page selected)
    as [->|(r & Hnone & ->)]; [done|].
  intros key results g.
  destruct (decide (key = pretty appId)) as [->|Hne].
  - rewrite lookup_insert_eq. intros [= <-].
    by intros (g' & -> & _)%list_elem_of_fmap.
  - rewrite lookup_insert_ne by done. apply Hinv.
Qed.

End SearchCacheEntries.

Section GridsComponent.

Variable value : GridTypes -> string.

Lemma find_elem_of (p : SGDBGame -> bool) results g :
  find p results = Some g -> g ∈ results /\ p g = true.
Proof.
  intros [Hin Hp]%find_some. split; [|done]. by apply list_elem_of_In.
Qed.

Lemma or_first_elem_of choosenResult results g :
  (forall g', choosenResult = Some g' -> g' ∈ results) ->
  or_first choosenResult results = Some g ->
  g ∈ results.
Proof.
  intros Hc. destruct choosenResult as [g'|]; simpl.
  - intros [= <-]. by apply Hc.
  - destruct results as [|g1 results]; simpl; [done|].
    intros [= <-]. apply list_elem_of_here.
Qed.

Lemma choosenResult_steam_elem_of results selected gameId g :
  choosenResult_steam results selected gameId = Some g -> g ∈ results.
Proof.
  unfold choosenResult_steam. apply or_first_elem_of. intros g'.
  destruct (JS.truthy_string selected); by intros [? _]%find_elem_of.
Qed.

Lemma choosenResult_nonSteam_elem_of results selected gameName g :
  choosenResult_nonSteam results selected gameName = Some g -> g ∈ results.
Proof.
  unfold choosenResult_nonSteam. apply or_first_elem_of. intros g'.
  destruct (JS.truthy_string selected); by intros [? _]%find_elem_of.
Qed.

(** Images come with a published selection. *)
Lemma fetchChoosen_published st choosenResult type page grids :
  fst (fetchChoosen value choosenResult type page st) = Ok (Some grids) ->
  grids ≠ [] ->
  exists g,
    choosenResult = Some g /\
    selectedSteamGridGameId
      (snd (fetchChoosen value choosenResult type page st)) =
      pretty (id g).
Proof.
  unfold fetchChoosen. destruct choosenResult as [g|]; simpl;
    [|by intros [= <-]].
  destruct (JS.truthy_number (id g)); simpl; [|by intros [= <-]].
  intros _ _. exists g. split; [done|].
  unfold bind, modify; simpl.
  pose proof (f_equal selectedSteamGridGameId
    (fetchGridsForNonSteamGame_frame value
       (set_selectedSteamGridGameId (pretty (id g)) st) (id g) type page))
    as Hsel. simpl in Hsel.
  by destruct (fetchGridsForNonSteamGame _ _ _ _ _) as [[l|e] st'].
Qed.

Lemma getCandidates_annotated st appId type :
  candidates_annotated (steamGridSearchCache st) ->
  candidates_annotated (steamGridSearchCache (snd (getCandidates appId type st))).
Proof.
  intros Hinv.
  destruct (getCandidates_entries st appId type)
    as [->|(r & Hnone & _ & ->)]; [done|].
  intros key results g.
  destruct (decide (key = pretty appId)) as [->|Hne].
  - rewrite lookup_insert_eq. intros [= <-].
    by intros (g' & -> & _)%list_elem_of_fmap.
  - rewrite lookup_insert_ne by done. apply Hinv.
Qed.

(** The component, for a state whose selection is one of the candidates. *)
Lemma setAvailableSgdbGamesOnStateChange_selected st appId results g view :
  currentPlatform st ≠ OTHER_PLATFORM ->
  selectedGameName st ≠ "" ->
  steamGridSearchCache st !! pretty appId = Some results ->
  candidates_annotated (steamGridSearchCache st) ->
  g ∈ results ->
  selectedSteamGridGameId st = pretty (id g) ->
  let view' :=
    setAvailableSgdbGamesOnStateChange st (steamGridSearchCache st)
      (Some appId) view in
  availableSteamGridGames view' =
    map (fun g => {| label := name g; data := pretty (id g) |}) results /\
  shownPages view' = 1%Z.
Proof.
  intros Hp Hname Hresults Hinv Hg Hsel view'. subst view'.
  unfold setAvailableSgdbGamesOnStateChange. rewrite Hresults.
  assert (Hn : negb (selectedGameName st =? "")%string = true).
  { by destruct (String.eqb_spec (selectedGameName st) ""). }
  assert (Hpages :
    default 3%Z
      (game ← find (fun game =>
                      String.eqb (pretty (id game))
                        (selectedSteamGridGameId st)) results;
       numResultPages game) = 1%Z).
  { destruct (find _ results) as [g'|] eqn:Hfind; simpl.
    - apply find_elem_of in Hfind as [Hin _].
      by rewrite (Hinv _ _ _ Hresults Hin).
    - apply list_elem_of_In in Hg.
      pose proof (find_none _ _ Hfind g Hg) as Hno. simpl in Hno.
      rewrite Hsel, String.eqb_refl in Hno. done. }
  destruct (currentPlatform st); [| |done]; rewrite Hn; simpl;
    by rewrite Hpages.
Qed.

(** X16.  From a state whose candidates carry the page count 1 and in which
    a game with a name is selected, a call of [fetchGrids] that returns
    images leaves the component of [Grids.svelte] with one option per
    candidate of the app id, with the published selection among them, and
    with one page to show: the count that [getNumPages] has put on the
    candidate, not the fallback 3. *)
Theorem fetchGrids_view st appId page selected grids view :
  selectedGameName st ≠ "" ->
  candidates_annotated (steamGridSearchCache st) ->
  fst (fetchGrids value appId page selected st) = Ok (Some grids) ->
  grids ≠ [] ->
  let st' := snd (fetchGrids value appId page selected st) in
  let view' :=
    setAvailableSgdbGamesOnStateChange st' (steamGridSearchCache st')
      (Some appId) view in
  exists results g,
    steamGridSearchCache st' !! pretty appId = Some results /\
    g ∈ results /\
    selectedSteamGridGameId st' = pretty (id g) /\
    availableSteamGridGames view' =
      map (fun g => {| label := name g; data := pretty (id g) |}) results /\
    {| label := name g; data := selectedSteamGridGameId st' |} ∈
      availableSteamGridGames view' /\
    shownPages view' = 1%Z.
Proof.
  intros Hname Hinv Hok Hgrids st' view'.
  assert (Hp : currentPlatform st ≠ OTHER_PLATFORM).
  { intros Hp. rewrite fetchGrids_run, Hp in Hok. done. }
  assert (Hkey : exists results g,
    steamGridSearchCache st' !! pretty appId = Some results /\
    g ∈ results /\
    selectedSteamGridGameId st' = pretty (id g) /\
    currentPlatform st' = currentPlatform st /\
    selectedGameName st' = selectedGameName st).
  { subst st' view'. rewrite fetchGrids_run in *.
    pose proof (getCandidates_stored st appId (gridType st)) as Hstored.
    pose proof (getCandidates_outside st appId (gridType st))
      as ((_ & _ & _ & Hp1 & Hn1 & _) & _).
    destruct (getCandidates appId (gridType st) st) as [[results|e] st1];
      simpl in *; [|by destruct (currentPlatform st)].
    specialize (Hstored results st1 eq_refl).
    destruct (currentPlatform st) eqn:Hplatform; [| |done].
    - pose proof (resolveProviderId_outside st1 appId)
        as ((_ & _ & _ & Hp2 & Hn2 & _) & Hc2 & _).
      destruct (resolveProviderId appId st1) as [[gameId|e] st2];
        simpl in *; [|done].
      destruct (fetchChoosen_published st2
                  (choosenResult_steam results selected gameId)
                  (gridType st) page grids Hok Hgrids) as (g & Hg & Hsel).
      pose proof (fetchChoosen_outside value st2
                    (choosenResult_steam results selected gameId)
                    (gridType st) page)
        as ((_ & _ & _ & Hp3 & Hn3 & _) & Hc3 & _).
      exists results, g. rewrite Hc3, Hc2.
      split; [done|]. split; [by eapply choosenResult_steam_elem_of|].
      split; [done|]. split; congruence.
    - destruct (fetchChoosen_published st1
                  (choosenResult_nonSteam results selected
                     (selectedGameName st))
                  (gridType st) page grids Hok Hgrids) as (g & Hg & Hsel).
      pose proof (fetchChoosen_outside value st1
                    (choosenResult_nonSteam results selected
                       (selectedGameName st))
                    (gridType st) page)
        as ((_ & _ & _ & Hp3 & Hn3 & _) & Hc3 & _).
      exists results, g. rewrite Hc3.
      split; [done|]. split; [by eapply choosenResult_nonSteam_elem_of|].
      split; [done|]. split; congruence. }
  destruct Hkey as (results & g & Hresults & Hg & Hsel & Hp' & Hn').
  destruct (setAvailableSgdbGamesOnStateChange_selected st' appId results g
              view) as [Hoptions Hpages]; try done; try congruence.
  { by apply fetchGrids_annotated. }
  exists results, g. fold view' in Hoptions, Hpages.
  split_and!; try done.
  rewrite Hoptions, Hsel.
  apply (list_elem_of_fmap_2
           (fun g => {| label := name g; data := pretty (id g) |})). done.
Qed.

End GridsComponent.

(** The first call for the native game 100 at startup. *)
Lemma fetchGrids_view_witness :
  selectedGameName Examples.st0 ≠ "" /\
  fst (fetchGrids Examples.value 100 0 None Examples.st0) =
    Ok (Some [Examples.img1]) /\
  exists results g,
    steamGridSearchCache (snd (fetchGrids Examples.value 100 0 None
                                 Examples.st0)) !! pretty 100%Z =
      Some results /\
    g ∈ results /\
    selectedSteamGridGameId (snd (fetchGrids Examples.value 100 0 None
                                    Examples.st0)) = pretty (id g).
Proof.
  split; [discriminate|]. split; [reflexivity|].
  destruct (fetchGrids_view Examples.value Examples.st0 100 0 None
              [Examples.img1] Examples.no_view)
    as (results & g & H1 & H2 & H3 & _).
  - discriminate.
  - intros key results g H. unfold Examples.st0, Examples.startup in H.
    simpl in H. by rewrite lookup_empty in H.
  - reflexivity.
  - discriminate.
  - by exists results, g.
Defined.

Section NonSteamCacheContents.

Variable value : GridTypes -> string.

Lemma fetchGridsForNonSteamGame_contents st appId type page a t p :
  let st' := snd (fetchGridsForNonSteamGame value appId type page st) in
  let m := method_name value type "sById" in
  (cachedAt st' a t p = cachedAt st a t p /\
   exists more, requests st' = requests st ++ more) \/
  (cachedAt st a t p = None /\
   a = pretty appId /\ t = value type /\ p = pretty page /\
   exists c grids,
     client st = Some c /\
     imagesById c (requests st) m appId page = Ok grids /\
     fst (fetchGridsForNonSteamGame value appId type page st) = Ok grids /\
     cachedAt st' a t p = Some grids /\
     requests st' = requests st ++ [ById m appId page]).
Proof.
  cbv zeta.
  destruct (cachedPage value st appId type page) as [grids|] eqn:Hp.
  - rewrite (fetchGridsForNonSteamGame_hit value st appId type page grids)
      by done.
    left. split; [done|]. exists []. by rewrite app_nil_r.
  - destruct (client st) as [c|] eqn:Hc.
    + destruct (fetchGridsForNonSteamGame_miss value st c appId type page
                  Hc Hp) as (cache' & -> & Hcache); cbn [fst snd].
      destruct (imagesById c _ _ _ _) as [grids|e] eqn:Hr.
      * assert (Hnew :
          cachedAt
            (set_nonSteamGridsCache cache'
               (set_requests
                  (requests st ++
                   [ById (method_name value type "sById") appId page]) st))
            a t p =
          if decide ((a, t, p) = (pretty appId, value type, pretty page))
          then Some grids else cachedAt st a t p)
          by exact (Hcache grids eq_refl a t p).
        rewrite Hnew.
        destruct (decide ((a, t, p) =
                          (pretty appId, value type, pretty page)))
          as [[= -> -> ->]|Hne].
        -- right. split; [done|]. split_and!; try done.
           by exists c, grids.
        -- left. split; [done|]. by eexists.
      * left. split; [done|]. by eexists.
    + rewrite (fetchGridsForNonSteamGame_no_client value) by done.
      left. split; [done|]. exists []. by rewrite app_nil_r.
Qed.

(** X17.  A call of [fetchGridsForNonSteamGame] that runs from call to
    return removes and replaces nothing in the cache: every list that was
    cached stays under its keys, and what is new is the list that the call
    returns, under the game, category and page of the call. *)
Theorem fetchGridsForNonSteamGame_grows st appId type page :
  let st' := snd (fetchGridsForNonSteamGame value appId type page st) in
  (forall a t p grids,
     cachedAt st a t p = Some grids -> cachedAt st' a t p = Some grids) /\
  (forall a t p grids,
     cachedAt st' a t p = Some grids ->
     cachedAt st a t p = Some grids \/
     (a = pretty appId /\ t = value type /\ p = pretty page /\
      fst (fetchGridsForNonSteamGame value appId type page st) = Ok grids)).
Proof.
  intros st'. subst st'. split; intros a t p grids H.
  - destruct (fetchGridsForNonSteamGame_contents st appId type page a t p)
      as [[-> _]|(Hnone & _)]; [done|congruence].
  - destruct (fetchGridsForNonSteamGame_contents st appId type page a t p)
      as [[<- _]|(_ & -> & -> & -> & c & l & _ & _ & Hr & Hl & _)];
      [by left|].
    right. split_and!; try done. congruence.
Qed.

Lemma answered_app c history more m gameId page grids :
  answered c history m gameId page grids ->
  answered c (history ++ more) m gameId page grids.
Proof.
  intros (before & later & -> & H). exists before, (later ++ more).
  split; [|done]. by rewrite <- app_assoc.
Qed.

Lemma cache_answered_requests c st st' :
  nonSteamGridsCache st' = nonSteamGridsCache st ->
  (exists more, requests st' = requests st ++ more) ->
  cache_answered value c st ->
  cache_answered value c st'.
Proof.
  intros Hcache [more Hreq] Hinv a t p grids H.
  unfold cachedAt in H. rewrite Hcache in H.
  destruct (Hinv a t p grids H) as (gameId & type & page & -> & -> & -> & Ha).
  exists gameId, type, page. split_and!; try done.
  rewrite Hreq. by apply answered_app.
Qed.

Lemma fetchGridsForNonSteamGame_answered c st appId type page :
  client st = Some c ->
  cache_answered value c st ->
  cache_answered value c
    (snd (fetchGridsForNonSteamGame value appId type page st)).
Proof.
  intros Hc Hinv a t p grids H.
  destruct (fetchGridsForNonSteamGame_contents st appId type page a t p)
    as [[Hsame [more Hreq]]|
        (_ & -> & -> & -> & c' & l & Hc' & Hr & _ & Hl & Hreq)].
  - rewrite Hsame in H.
    destruct (Hinv a t p grids H)
      as (gameId & type' & page' & -> & -> & -> & Ha).
    exists gameId, type', page'. split_and!; try done.
    rewrite Hreq. by apply answered_app.
  - exists appId, type, page. split_and!; try done.
    rewrite Hreq. exists (requests st), []. split; [done|].
    congruence.
Qed.

Lemma fetchChoosen_answered c st choosenResult type page :
  client st = Some c ->
  cache_answered value c st ->
  cache_answered value c
    (snd (fetchChoosen value choosenResult type page st)).
Proof.
  intros Hc Hinv. unfold fetchChoosen.
  destruct choosenResult as [g|]; [|done].
  destruct (JS.truthy_number (id g)); [|done].
  unfold bind, modify; simpl.
  pose proof (fetchGridsForNonSteamGame_answered c
                (set_selectedSteamGridGameId (pretty (id g)) st)
                (id g) type page Hc Hinv) as H.
  by destruct (fetchGridsForNonSteamGame _ _ _ _ _) as [[l|e] st'].
Qed.

(** X18.  With a client in place, [fetchGrids] keeps the provenance of the
    cache: when every cached list is the provider's answer to a request of
    the history for the game, category and page that it is stored under,
    this is so after the call as well. *)
Theorem fetchGrids_cache_answered c st appId page selected :
  client st = Some c ->
  cache_answered value c st ->
  cache_answered value c (snd (fetchGrids value appId page selected st)).
Proof.
  intros Hc Hinv. rewrite fetchGrids_run.
  assert (H1 : cache_answered value c
                 (snd (getCandidates appId (gridType st) st))).
  { apply (cache_answered_requests c st); [| |done].
    - apply getCandidates_outside.
    - destruct (getCandidates_shape st appId (gridType st)) as [->| ->];
        [exists []; by rewrite app_nil_r|by eexists]. }
  pose proof (getCandidates_outside st appId (gridType st))
    as ((_ & _ & _ & _ & _ & _ & Hc1 & _) & _).
  destruct (getCandidates appId (gridType st) st) as [[results|e] st1];
    simpl in *; [|by destruct (currentPlatform st)].
  rewrite <- Hc1 in Hc.
  destruct (currentPlatform st); [| |done].
  - assert (H2 : cache_answered value c
                   (snd (resolveProviderId appId st1))).
    { apply (cache_answered_requests c st1); [| |done].
      - apply resolveProviderId_outside.
      - destruct (resolveProviderId_shape st1 appId) as [->| ->];
          [exists []; by rewrite app_nil_r|by eexists]. }
    pose proof (resolveProviderId_outside st1 appId)
      as ((_ & _ & _ & _ & _ & _ & Hc2 & _) & _).
    destruct (resolveProviderId appId st1) as [[gameId|e] st2];
      simpl in *; [|done].
    rewrite <- Hc2 in Hc. by apply fetchChoosen_answered.
  - by apply fetchChoosen_answered.
Qed.

End NonSteamCacheContents.

(** The first call for the native game 100 at startup, when nothing is
    cached. *)
Lemma fetchGrids_cache_answered_witness :
  client Examples.st0 = Some Examples.provider /\
  cache_answered Examples.value Examples.provider
    (snd (fetchGrids Examples.value 100 0 None Examples.st0)).
Proof.
  split; [reflexivity|].
  apply (fetchGrids_cache_answered Examples.value Examples.provider
           Examples.st0 100 0 None).
  - reflexivity.
  - intros a t p grids H. unfold cachedAt in H. simpl in H.
    by rewrite lookup_empty in H.
Defined.

Section OverlappingFetches.

Variable value : GridTypes -> string.

(** X19.  Two calls of [fetchGridsForNonSteamGame] for two pages of a game
    that has no entry in the cache, the second started while the first waits
    for its answer: both find the game missing, and each starts the entry of
    the game afresh when it is resumed.  After the first has been resumed
    its page is cached; after the second has been resumed the page of the
    first is gone and only the page of the second is cached. *)
Theorem overlapping_fetches_lose_page st appId type page0 page1 grids0
    grids1 :
  nonSteamGridsCache st !! pretty appId = None ->
  page0 ≠ page1 ->
  let st1 := snd (getById value appId type page0 st) in
  let st2 := snd (getById value appId type page1 st1) in
  fst (getById value appId type page0 st) = Ok grids0 ->
  fst (getById value appId type page1 st1) = Ok grids1 ->
  let st3 := snd (insertPage value appId type page0 AtGame grids0 st2) in
  let st4 := snd (insertPage value appId type page1 AtGame grids1 st3) in
  fst (lookupPage value appId type page0 st) = Ok (Miss AtGame) /\
  fst (lookupPage value appId type page1 st1) = Ok (Miss AtGame) /\
  cachedPage value st3 appId type page0 = Some grids0 /\
  cachedPage value st4 appId type page0 = None /\
  cachedPage value st4 appId type page1 = Some grids1.
Proof.
  intros Hnone Hne st1 st2 H0 H1 st3 st4.
  assert (Hkey : pretty page0 ≠ pretty page1).
  { intros Heq%(inj pretty). done. }
  subst st4 st3 st2 st1. revert H0 H1.
  unfold getById, call. destruct (client st) as [c|] eqn:Hc; [|done].
  simpl. rewrite Hc. simpl. intros H0 H1.
  rewrite !lookupPage_run. simpl. rewrite Hnone. simpl.
  unfold insertPage, update_nonSteamGridsCache, assign_in, assign, bind, ret,
    cachedPage, cachedAt; simpl.
  repeat (rewrite lookup_insert_eq; simpl).
  split_and!; try done.
  by rewrite lookup_insert_ne, lookup_empty by done.
Qed.

End OverlappingFetches.

(** Pages 0 and 1 of the game 5, requested one after the other before
    either answer is there. *)
Lemma overlapping_fetches_lose_page_witness :
  nonSteamGridsCache Examples.st0 !! pretty 5%Z = None /\
  cachedPage Examples.value
    (snd (insertPage Examples.value 5 CAPSULE 1 AtGame [Examples.img2]
            (snd (insertPage Examples.value 5 CAPSULE 0 AtGame [Examples.img1]
                    (snd (getById Examples.value 5 CAPSULE 1
                            (snd (getById Examples.value 5 CAPSULE 0
                                    Examples.st0))))))))
    5 CAPSULE 0 = None.
Proof.
  split; [reflexivity|].
  edestruct (overlapping_fetches_lose_page Examples.value Examples.st0 5
               CAPSULE 0 1 [Examples.img1] [Examples.img2])
    as (_ & _ & _ & H & _); [reflexivity|lia|reflexivity|reflexivity|].
  exact H.
Defined.

Section CachedPages.

Variable value : GridTypes -> string.

#[local] Arguments next_walk _ _ : simpl never.

(** The insertions after a suspension, for an entry that is as the lookup
    before the suspension has found it. *)
Lemma insertPage_keeps st appId type page at_ grids :
  levelOf (nonSteamGridsCache st !! pretty appId) (value type) (pretty page) =
    Miss at_ ->
  exists entry',
    insertPage value appId type page at_ grids st =
      (Ok grids,
       set_nonSteamGridsCache
         (<[pretty appId := entry']> (nonSteamGridsCache st)) st) /\
    forall p,
      pageOf (Some entry') (value type) p =
        if decide (p = pretty page) then Some grids
        else pageOf (nonSteamGridsCache st !! pretty appId) (value type) p.
Proof.
  unfold levelOf, insertPage, pageOf.
  unfold update_nonSteamGridsCache, assign_in, assign, bind, ret.
  destruct (nonSteamGridsCache st !! pretty appId) as [types|] eqn:Ha; simpl.
  - destruct (types !! value type) as [pages|] eqn:Ht; simpl.
    + destruct (pages !! pretty page) eqn:Hpage; [done|].
      intros [= <-]. simpl. rewrite Ha, Ht. simpl.
      eexists; split; [reflexivity|].
      intros p. rewrite lookup_insert_eq; simpl.
      destruct (decide (p = pretty page)) as [->|Hne].
      * by rewrite lookup_insert_eq.
      * by rewrite lookup_insert_ne.
    + intros [= <-]. simpl. rewrite Ha. simpl.
      rewrite lookup_insert_eq. simpl. rewrite lookup_insert_eq. simpl.
      rewrite insert_insert_eq.
      eexists; split; [reflexivity|].
      intros p. rewrite lookup_insert_eq; simpl.
      destruct (decide (p = pretty page)) as [->|Hne].
      * by rewrite lookup_insert_eq.
      * by rewrite lookup_insert_ne, lookup_empty.
  - intros [= <-]. simpl.
    repeat (rewrite lookup_insert_eq; simpl).
    rewrite !insert_insert_eq.
    eexists; split; [reflexivity|].
    intros p. rewrite lookup_insert_eq; simpl.
    destruct (decide (p = pretty page)) as [->|Hne].
    + by rewrite lookup_insert_eq.
    + by rewrite lookup_insert_ne, lookup_empty.
Qed.

Lemma pages_cached_next t entry entry' n grids :
  (0 <= n)%Z ->
  pages_cached t entry n ->
  (forall p,
     pageOf entry' t p =
       if decide (p = pretty n) then Some grids else pageOf entry t p) ->
  pages_cached t entry' n /\
  (grids ≠ [] -> pages_cached t entry' (n + 1)).
Proof.
  intros Hn Hold Hnew. split.
  - intros p Hp. rewrite Hnew.
    destruct (decide (pretty p = pretty n)) as [Heq%(inj pretty)|_]; [lia|].
    by apply Hold.
  - intros Hne p Hp. rewrite Hnew.
    destruct (decide (pretty p = pretty n)) as [Heq|Hpn].
    + by exists grids.
    + apply Hold. assert (p ≠ n) by congruence. lia.
Qed.

Lemma closure_step_cached type c st :
  walk_cached (value type) (nonSteamGridsCache st !! pretty (id (game c))) c ->
  let c' := fst (closure_step value type c st) in
  let st' := snd (closure_step value type c st) in
  walk_cached (value type) (nonSteamGridsCache st' !! pretty (id (game c)))
    c'.
Proof.
  destruct c as [gc w f]. unfold closure_step, walk_cached; simpl.
  destruct w as [n|n at_ [grids|e]|n].
  - intros [Hn Hpages]. rewrite lookupPage_run.
    pose proof (pageOf_levelOf (nonSteamGridsCache st !! pretty (id gc))
                  (value type) (pretty n)) as Hpage.
    destruct (levelOf _ _ _) as [grids|at_] eqn:Hl; simpl.
    + destruct grids as [|g grids]; simpl; [done|].
      split; [lia|]. intros p Hp.
      destruct (decide (p = n)) as [->|Hpn].
      * by eexists.
      * apply Hpages. lia.
    + unfold getById, call. by destruct (client st).
  - intros (Hn & Hlevel & Hpages).
    destruct (insertPage_keeps st (id gc) type n at_ grids Hlevel)
      as (entry' & -> & Hentry); simpl.
    rewrite lookup_insert_eq.
    destruct (pages_cached_next (value type)
                (nonSteamGridsCache st !! pretty (id gc)) (Some entry') n
                grids Hn Hpages Hentry) as [Hkept Hnext].
    destruct grids as [|g grids]; simpl; [done|].
    split; [lia|]. by apply Hnext.
  - by intros (Hn & _ & Hpages).
  - done.
Qed.

Lemma run_closures_cached type schedule : forall st cs,
  NoDup (map (fun c => id (game c)) cs) ->
  (forall j cj,
     cs !! j = Some cj ->
     walk_cached (value type)
       (nonSteamGridsCache st !! pretty (id (game cj))) cj) ->
  let st' := fst (run_closures value type schedule (st, cs)) in
  let cs' := snd (run_closures value type schedule (st, cs)) in
  forall j cj,
    cs' !! j = Some cj ->
    walk_cached (value type)
      (nonSteamGridsCache st' !! pretty (id (game cj))) cj.
Proof.
  induction schedule as [|k schedule IH]; intros st cs Hnodup Hall; simpl;
    [done|].
  change (fold_left (resume value type) schedule
            (resume value type (st, cs) k))
    with (run_closures value type schedule (resume value type (st, cs) k)).
  unfold resume; simpl.
  destruct (cs !! k) as [ck|] eqn:Hk; [|by apply IH].
  pose proof (closure_step_cached type ck st (Hall k ck Hk)) as Hown.
  pose proof (closure_step_game value type ck st) as Hgame.
  assert (Hother : forall a,
            a ≠ pretty (id (game ck)) ->
            nonSteamGridsCache (snd (closure_step value type ck st)) !! a =
              nonSteamGridsCache st !! a).
  { intros a Ha. by apply closure_step_other. }
  destruct (closure_step value type ck st) as [ck' st1]; simpl in *.
  assert (Hids : map (fun c => id (game c)) (<[k := ck']> cs) =
                 map (fun c => id (game c)) cs).
  { apply list_eq. intros j. rewrite !lookup_map.
    destruct (decide (j = k)) as [->|Hjk].
    - rewrite list_lookup_insert_eq by (by eapply lookup_lt_Some).
      rewrite Hk. simpl. by rewrite Hgame.
    - by rewrite list_lookup_insert_ne. }
  apply IH; [by rewrite Hids|].
  intros j cj Hj. destruct (decide (j = k)) as [->|Hjk].
  - rewrite list_lookup_insert_eq in Hj by (by eapply lookup_lt_Some).
    simplify_eq. by rewrite Hgame.
  - rewrite list_lookup_insert_ne in Hj by done.
    rewrite Hother; [by apply (Hall j)|].
    intros Heq%(inj pretty). apply Hjk.
    apply (NoDup_lookup _ j k (id (game cj)) Hnodup).
    + rewrite lookup_map. by rewrite Hj.
    + rewrite lookup_map, Hk. simpl. by rewrite Heq.
Qed.

(** X20.  For candidates of distinct identities, whatever the schedule and
    whatever the provider answers: when [cacheAllGridsForGame] returns,
    every candidate carries a page count, and every page below the count is
    in the cache with a list that is not empty. *)
Theorem cacheAllGridsForGame_caches st schedule results platform type
    annotated :
  NoDup (map id results) ->
  fst (cacheAllGridsForGame value schedule results platform type st) =
    Some annotated ->
  let st' := snd (cacheAllGridsForGame value schedule results platform type
                    st) in
  length annotated = length results /\
  forall i g,
    annotated !! i = Some g ->
    exists g0 N,
      results !! i = Some g0 /\
      g = set_numResultPages N g0 /\
      (0 <= N)%Z /\
      forall p,
        (0 <= p < N)%Z ->
        exists grids,
          cachedPage value st' (id g) type p = Some grids /\ grids ≠ [].
Proof.
  intros Hnodup Hsome st'. subst st'. revert Hsome.
  unfold cacheAllGridsForGame.
  pose proof (run_closures_cached type schedule st (map start_closure results))
    as Hinv. simpl in Hinv.
  pose proof (run_closures_frame value type schedule st
                (map start_closure results)) as (_ & Hgames & _).
  pose proof (run_closures_length value type schedule
                (st, map start_closure results)) as Hlen.
  assert (Hmap : forall l, map game (map start_closure l) = l).
  { induction l; simpl; [done|]. by f_equal. }
  rewrite Hmap in Hgames.
  destruct (run_closures value type schedule (st, map start_closure results))
    as [st' closures]. simpl in *.
  destruct (forallb finished closures) eqn:Hfin; [|done].
  simpl. intros [= <-]. rewrite length_map in Hlen. rewrite length_map.
  split; [done|].
  intros i g. rewrite lookup_map.
  destruct (closures !! i) as [c|] eqn:Hc; [|done]. simpl. intros [= <-].
  assert (Hwalk : walk_cached (value type)
                    (nonSteamGridsCache st' !! pretty (id (game c))) c).
  { apply (fun H1 H2 => Hinv H1 H2 i c Hc).
    - rewrite <- (Hmap results) in Hnodup. rewrite map_map in Hnodup.
      exact Hnodup.
    - intros j cj Hj. rewrite lookup_map in Hj.
      destruct (results !! j); simplify_eq/=.
      unfold walk_cached; simpl. split; [done|]. intros p Hp. lia. }
  rewrite forallb_forall in Hfin.
  assert (Hin : In c closures).
  { apply list_elem_of_In, list_elem_of_lookup. by exists i. }
  specialize (Hfin c Hin). unfold finished, annotated, walk_cached in *.
  destruct (walk c) as [n|n at_ r|N]; [done|done|].
  destruct Hwalk as [HN Hpages].
  exists (game c), N. split_and!; try done.
  apply (f_equal (fun l => l !! i)) in Hgames.
  rewrite lookup_map, Hc in Hgames. done.
Qed.

End CachedPages.

(** The game ["Foo"], whose provider has two pages of capsules, as the only
    candidate at startup. *)
Lemma cacheAllGridsForGame_caches_witness :
  NoDup (map id [Examples.foo]) /\
  fst (cacheAllGridsForGame Examples.value [0; 0; 0; 0; 0; 0]%nat
         [Examples.foo] STEAM CAPSULE Examples.st0) =
    Some [set_numResultPages 2 Examples.foo] /\
  length [set_numResultPages 2 Examples.foo] = length [Examples.foo].
Proof.
  assert (Hnodup : NoDup (map id [Examples.foo])).
  { apply NoDup_singleton. }
  split; [done|]. split; [reflexivity|].
  apply (cacheAllGridsForGame_caches Examples.value Examples.st0
           [0; 0; 0; 0; 0; 0]%nat [Examples.foo] STEAM CAPSULE
           [set_numResultPages 2 Examples.foo] Hnodup).
  reflexivity.
Defined.
